(** * fitness-tracker: the account service and its local store

    A shallow embedding of [src/services/AuthService.js] (the class
    [AuthServiceClass]) and of the database service it drives
    ([DatabaseServiceClass], the SQL statements it sends to SQLite), with the
    properties of the account, logging and statistics operations.

    Conventions of the embedding.
    - A JavaScript string is a [string]; a character stands for one UTF-16
      code unit in the range U+0000..U+00FF.
    - A row returned by a query is a JavaScript object: a finite map from
      column names to values ([jsobj]).  A row kept in a table is a record.
    - An [async] method is a computation in the monad [M]: it threads the
      [world] (database, AsyncStorage, the service's [currentUser], the
      counters of the platform's clock and random source) and either returns
      or throws.  [console.error] writes nothing the program reads back and
      is left out.
    - What the platform gives (SHA-256, random bytes, the clock) is an
      instance of the class [Platform]; the properties hold on every
      platform, and [demo_platform] is one to run the model on.
    - The database has been opened by [init]: the tables of [createTables]
      exist.  Foreign keys are declared but SQLite does not enforce them
      unless [PRAGMA foreign_keys] is switched on, which the code never
      does. *)

From Stdlib Require Import ZArith QArith Strings.Ascii Strings.Byte Lia.
From stdpp Require Import base option list gmap strings sorting.

Local Open Scope Z_scope.

(** ** Strings *)

Module Str.

Definition code (c : ascii) : N := N_of_ascii c.

(** The class [\s] of regular expressions, which is also what [trim]
    strips: tab, line feed, vertical tab, form feed, carriage return, space
    and the no-break space. *)
Definition is_space (c : ascii) : bool :=
  let n := code c in
  ((9 <=? n) && (n <=? 13) || (n =? 32) || (n =? 160))%N.

Definition lower_char (c : ascii) : ascii :=
  let n := code c in
  if ((65 <=? n) && (n <=? 90)
      || (192 <=? n) && (n <=? 222) && negb (n =? 215))%N
  then ascii_of_N (n + 32) else c.

(** [s.toLowerCase()] *)
Fixpoint toLowerCase (s : string) : string :=
  match s with
  | EmptyString => EmptyString
  | String c s' => String (lower_char c) (toLowerCase s')
  end.

Fixpoint trimStart (s : string) : string :=
  match s with
  | EmptyString => EmptyString
  | String c s' => if is_space c then trimStart s' else s
  end.

(** [s.trim()] *)
Definition trim (s : string) : string :=
  String.rev (trimStart (String.rev (trimStart s))).

(** [s.length] *)
Definition length (s : string) : Z := Z.of_nat (String.length s).

(** [s.split(sep)] for a separator of one character: the pieces between
    the separators, never the empty list. *)
Fixpoint split (sep : ascii) (s : string) : list string :=
  match s with
  | EmptyString => [EmptyString]
  | String c s' =>
      if Ascii.eqb c sep then EmptyString :: split sep s'
      else match split sep s' with
           | p :: ps => String c p :: ps
           | [] => [String c EmptyString]
           end
  end.

Fixpoint mem (c : ascii) (s : string) : bool :=
  match s with
  | EmptyString => false
  | String d s' => Ascii.eqb d c || mem c s'
  end.

End Str.

(** ** Regular expressions

    The fragment [validateEmail] needs, matched with derivatives.  [test] is
    [RegExp.prototype.test] for a pattern anchored by [^] and [$]. *)

Module Regex.

Inductive t : Type :=
| Void
| Eps
| Class (p : ascii → bool)
| Cat (r s : t)
| Alt (r s : t)
| Star (r : t).

Definition Plus (r : t) : t := Cat r (Star r).

Fixpoint nullable (r : t) : bool :=
  match r with
  | Void => false
  | Eps => true
  | Class _ => false
  | Cat r s => nullable r && nullable s
  | Alt r s => nullable r || nullable s
  | Star _ => true
  end.

Fixpoint deriv (c : ascii) (r : t) : t :=
  match r with
  | Void => Void
  | Eps => Void
  | Class p => if p c then Eps else Void
  | Cat r s =>
      if nullable r then Alt (Cat (deriv c r) s) (deriv c s)
      else Cat (deriv c r) s
  | Alt r s => Alt (deriv c r) (deriv c s)
  | Star r => Cat (deriv c r) (Star r)
  end.

Fixpoint test (r : t) (s : string) : bool :=
  match s with
  | EmptyString => nullable r
  | String c s' => test (deriv c r) s'
  end.

End Regex.

(** ** Values, objects and exceptions *)

Inductive jsval : Type :=
| JUndefined
| JNull
| JNum (n : Z)
| JStr (s : string).

Global Instance jsval_eq_dec : EqDecision jsval.
Proof. solve_decision. Defined.

(** An object with scalar fields, such as a row handed back by expo-sqlite. *)
Abbreviation jsobj := (gmap string jsval).

(** [o.k]: a missing property reads as [undefined]. *)
Definition prop (o : jsobj) (k : string) : jsval := default JUndefined (o !! k).

Inductive exn : Type :=
| Error (message : string)   (* [new Error(message)], also what SQLite raises *)
| TypeError.                 (* raised by the engine; its message is the engine's *)

Inductive outcome (A : Type) : Type :=
| Return (a : A)
| Throw (e : exn).
Global Arguments Return {A} a.
Global Arguments Throw {A} e.

(** ** The store: tables of [createTables]

    One record per table row, one field per column; a nullable column is an
    [option] ([None] is SQL [NULL]).  Numbers are integers.  The tables
    [workout_sessions] and [body_measurements] are not touched by the
    account, logging and statistics operations and are left out. *)

Record user_row : Type := {
  u_id : Z;
  u_email : string;
  u_password_hash : string;
  u_full_name : string;
  u_created_at : string }.

Record profile_row : Type := {
  p_id : Z;
  p_user_id : Z;
  p_age : option Z;
  p_weight : option Z;
  p_height : option Z;
  p_gender : option string;
  p_fitness_goal : option string }.

Record activity_row : Type := {
  a_id : Z;
  a_user_id : Z;
  a_name : string;
  a_description : option string;
  a_icon : option string;
  a_target_value : option Z;
  a_target_unit : option string;
  a_category : option string;
  a_is_active : Z;
  a_created_at : string }.

Record log_row : Type := {
  l_id : Z;
  l_activity_id : Z;
  l_user_id : Z;
  l_completed : Z;
  l_actual_value : option Z;
  l_notes : option string;
  l_log_date : string;
  l_logged_at : string }.

Record database : Type := {
  users : list user_row;
  user_profiles : list profile_row;
  fitness_activities : list activity_row;
  activity_logs : list log_row;
  (** SQLite's table [sqlite_sequence]: per table, the largest rowid an
      [AUTOINCREMENT] key has been given. *)
  sqlite_sequence : gmap string Z }.

Definition set_users (d : database) (t : list user_row) : database :=
  {| users := t; user_profiles := user_profiles d;
     fitness_activities := fitness_activities d;
     activity_logs := activity_logs d; sqlite_sequence := sqlite_sequence d |}.

Definition set_user_profiles (d : database) (t : list profile_row) : database :=
  {| users := users d; user_profiles := t;
     fitness_activities := fitness_activities d;
     activity_logs := activity_logs d; sqlite_sequence := sqlite_sequence d |}.

Definition set_fitness_activities (d : database) (t : list activity_row)
  : database :=
  {| users := users d; user_profiles := user_profiles d;
     fitness_activities := t;
     activity_logs := activity_logs d; sqlite_sequence := sqlite_sequence d |}.

Definition set_activity_logs (d : database) (t : list log_row) : database :=
  {| users := users d; user_profiles := user_profiles d;
     fitness_activities := fitness_activities d;
     activity_logs := t; sqlite_sequence := sqlite_sequence d |}.

Definition set_sequence (d : database) (table : string) (rowid : Z) : database :=
  {| users := users d; user_profiles := user_profiles d;
     fitness_activities := fitness_activities d;
     activity_logs := activity_logs d;
     sqlite_sequence := <[table := rowid]> (sqlite_sequence d) |}.

(** The rowid an [INTEGER PRIMARY KEY AUTOINCREMENT] column gives the next
    inserted row: one more than the largest rowid the table holds or has ever
    held. *)
Definition next_rowid (d : database) (table : string) (rowids : list Z) : Z :=
  1 + foldr Z.max (Z.max 0 (default 0 (sqlite_sequence d !! table))) rowids.

(** *** Bound parameters and three-valued comparison *)

(** The [i]-th [?] of a statement: a parameter the caller did not bind is
    [NULL]. *)
Definition param (params : list jsval) (i : nat) : jsval :=
  default JNull (params !! i).

(** SQL [a = b]: unknown ([None]) as soon as one side is [NULL]. *)
Definition sql_eq (a b : jsval) : option bool :=
  match a, b with
  | JNull, _ | _, JNull => None
  | _, _ => Some (bool_decide (a = b))
  end.

(** A [WHERE] or [ON] clause keeps a row only when its condition is true. *)
Definition holds (c : option bool) : bool :=
  match c with Some true => true | _ => false end.

(** ** The world and the platform *)

(** What [createSession] writes under [SESSION_KEY].  AsyncStorage keeps the
    text [JSON.stringify] makes of it and [JSON.parse] reads the same object
    back; the model keeps the object. *)
Record session : Type := {
  session_user : option jsobj;       (* [None] is [null] *)
  session_timestamp : string }.

Record world : Type := {
  db : database;                       (* [DatabaseService.db] *)
  asyncStorage : gmap string session;  (* AsyncStorage *)
  currentUser : option jsobj;          (* [AuthService.currentUser] *)
  draws : nat;                         (* calls of the random source so far *)
  ticks : nat }.                       (* readings of the clock so far *)

Definition set_db (w : world) (d : database) : world :=
  {| db := d; asyncStorage := asyncStorage w; currentUser := currentUser w;
     draws := draws w; ticks := ticks w |}.

Definition set_asyncStorage (w : world) (s : gmap string session) : world :=
  {| db := db w; asyncStorage := s; currentUser := currentUser w;
     draws := draws w; ticks := ticks w |}.

Definition set_currentUser (w : world) (u : option jsobj) : world :=
  {| db := db w; asyncStorage := asyncStorage w; currentUser := u;
     draws := draws w; ticks := ticks w |}.

Definition set_draws (w : world) (n : nat) : world :=
  {| db := db w; asyncStorage := asyncStorage w; currentUser := currentUser w;
     draws := n; ticks := ticks w |}.

Definition set_ticks (w : world) (n : nat) : world :=
  {| db := db w; asyncStorage := asyncStorage w; currentUser := currentUser w;
     draws := draws w; ticks := n |}.

Class Platform : Type := {
  (** [Crypto.digestStringAsync(SHA256, s, { encoding: HEX })] *)
  sha256_hex : string → string;
  (** the bytes the [n]-th call of [Crypto.getRandomBytesAsync(count)] gives *)
  random_bytes : nat → nat → list byte;
  (** [new Date().toISOString()] at the [n]-th reading of the clock *)
  iso_time : nat → string;
  (** SQLite's [CURRENT_TIMESTAMP] at the [n]-th reading of the clock *)
  sql_time : nat → string }.

(** ** The monad of [async] methods *)

Definition M (A : Type) : Type := world → world * outcome A.

Definition ret {A} (a : A) : M A := λ w, (w, Return a).

Definition throw {A} (e : exn) : M A := λ w, (w, Throw e).

Definition bind {A B} (m : M A) (k : A → M B) : M B :=
  λ w, match m w with
       | (w', Return a) => k a w'
       | (w', Throw e) => (w', Throw e)
       end.

(** [try { m } catch (error) { h error }] *)
Definition try_catch {A} (m : M A) (h : exn → M A) : M A :=
  λ w, match m w with
       | (w', Return a) => (w', Return a)
       | (w', Throw e) => h e w'
       end.

Notation "x <- m ;; k" := (bind m (λ x, k))
  (at level 100, m at next level, right associativity, only parsing).
Notation "m ;;; k" := (bind m (λ _, k))
  (at level 100, right associativity, only parsing).

Definition gets {A} (f : world → A) : M A := λ w, (w, Return (f w)).

Definition modify (f : world → world) : M unit := λ w, (f w, Return tt).

Definition modify_db (f : database → database) : M unit :=
  modify (λ w, set_db w (f (db w))).

Definition when (b : bool) (m : M unit) : M unit := if b then m else ret tt.

(** The world a computation leaves and the outcome it ends with. *)
Definition exec {A} (m : M A) (w : world) : world := fst (m w).
Definition eval {A} (m : M A) (w : world) : outcome A := snd (m w).

(** ** DatabaseService

    Each method is the SQL statement it sends, read as the function on tables
    the statement computes.  A statement's [?] are taken from the array the
    method passes, by position ([param]). *)

Record profile_data : Type := {
  age : option Z;
  weight : option Z;
  height : option Z;
  gender : option string;
  fitness_goal : option string }.

Record activity_data : Type := {
  name : string;
  description : option string;
  icon : option string;
  target_value : option Z;
  target_unit : option string;
  category : option string }.

(** A row of the result of [getActivityStats].  [completion_rate] is the exact
    quotient; SQLite gives the nearest double, which is the same number when
    the quotient is 0. *)
Record stat_row : Type := {
  st_id : Z;
  st_name : string;
  st_category : option string;
  completed_count : Z;
  total_count : Z;
  completion_rate : option Q }.

(** [SELECT id, email, password_hash, full_name, created_at] *)
Definition user_columns_with_hash (r : user_row) : jsobj :=
  list_to_map [("id", JNum (u_id r)); ("email", JStr (u_email r));
               ("password_hash", JStr (u_password_hash r));
               ("full_name", JStr (u_full_name r));
               ("created_at", JStr (u_created_at r))].

(** [SELECT id, email, full_name, created_at] *)
Definition user_columns (r : user_row) : jsobj :=
  list_to_map [("id", JNum (u_id r)); ("email", JStr (u_email r));
               ("full_name", JStr (u_full_name r));
               ("created_at", JStr (u_created_at r))].

(** [x BETWEEN lo AND hi] on text *)
Definition between (lo hi x : string) : bool :=
  String.leb lo x && String.leb x hi.

(** [FROM fitness_activities fa LEFT JOIN activity_logs al ON ...]: an
    activity no log matches is kept once, with the log's columns [NULL]. *)
Definition left_join (on : activity_row → log_row → bool)
    (fas : list activity_row) (als : list log_row)
  : list (activity_row * option log_row) :=
  fas ≫= (λ fa,
    match List.filter (on fa) als with
    | [] => [(fa, None)]
    | matched => (λ al, (fa, Some al)) <$> matched
    end).

(** [CASE WHEN al.completed = 1 THEN ... END] takes its first branch. *)
Definition completed_is_1 (al : option log_row) : bool :=
  match al with
  | Some l => holds (sql_eq (JNum (l_completed l)) (JNum 1))
  | None => false        (* [al.completed] is [NULL] *)
  end.

(** [AVG(e) * 100] over a group where [e] is 1.0 on [ones] rows and 0.0 on
    the others; [AVG] over no row is [NULL]. *)
Definition avg_times_100 (ones rows : nat) : option Q :=
  match rows with
  | O => None
  | S _ => Some (Qred (inject_Z (Z.of_nat ones) / inject_Z (Z.of_nat rows)
                       * inject_Z 100))
  end.

(** One output row per group of [GROUP BY fa.id]; the bare columns [fa.name]
    and [fa.category] come from a row of the group. *)
Definition aggregate (group : list (activity_row * option log_row))
  : option stat_row :=
  match group with
  | [] => None
  | (fa, _) :: _ =>
      let ones := List.length (List.filter (λ jr, completed_is_1 (snd jr)) group) in
      Some {| st_id := a_id fa;
              st_name := a_name fa;
              st_category := a_category fa;
              completed_count := Z.of_nat ones;
              total_count := Z.of_nat (List.length group);   (* [COUNT( * )] *)
              completion_rate := avg_times_100 ones (List.length group) |}
  end.

(** The groups of [GROUP BY fa.id]: one per id, here in the order the ids
    first occur (SQL leaves the order of the groups open). *)
Definition group_by_id (joined : list (activity_row * option log_row))
  : list (list (activity_row * option log_row)) :=
  (λ k, List.filter (λ jr, a_id (fst jr) =? k) joined)
    <$> remove_dups ((λ jr, a_id (fst jr)) <$> joined).

Section DatabaseService.

Context `{Platform}.

Definition current_timestamp : M string :=
  λ w, (set_ticks w (S (ticks w)), Return (sql_time (ticks w))).

Definition createUser (email passwordHash fullName : string) : M Z :=
  d <- gets db ;;
  if existsb (λ r, bool_decide (u_email r = email)) (users d)
  then throw (Error "UNIQUE constraint failed: users.email")
  else
    created_at <- current_timestamp ;;
    let rowid := next_rowid d "users" (u_id <$> users d) in
    modify_db (λ d,
      set_sequence
        (set_users d
           (users d ++ [{| u_id := rowid; u_email := email;
                           u_password_hash := passwordHash;
                           u_full_name := fullName;
                           u_created_at := created_at |}]))
        "users" rowid) ;;;
    ret rowid.                                  (* [result.lastInsertRowId] *)

(** [getFirstAsync]: the first row, or [null] *)
Definition getUserByEmail (email : jsval) : M (option jsobj) :=
  let params := [email] in
  d <- gets db ;;
  ret (user_columns_with_hash
         <$> List.find (λ r, holds (sql_eq (JStr (u_email r)) (param params 0)))
                       (users d)).

Definition getUserById (userId : jsval) : M (option jsobj) :=
  let params := [userId] in
  d <- gets db ;;
  ret (user_columns
         <$> List.find (λ r, holds (sql_eq (JNum (u_id r)) (param params 0)))
                       (users d)).

Definition createOrUpdateProfile (userId : Z) (profileData : profile_data)
  : M unit :=
  d <- gets db ;;
  let existing :=
    List.find (λ r, holds (sql_eq (JNum (p_user_id r)) (param [JNum userId] 0)))
              (user_profiles d) in
  match existing with
  | Some _ =>
    modify_db (λ d,
      set_user_profiles d
        ((λ r, if holds (sql_eq (JNum (p_user_id r)) (JNum userId))
               then {| p_id := p_id r; p_user_id := p_user_id r;
                       p_age := age profileData;
                       p_weight := weight profileData;
                       p_height := height profileData;
                       p_gender := gender profileData;
                       p_fitness_goal := fitness_goal profileData |}
               else r) <$> user_profiles d))
  | None =>
    (** no row has this [user_id]: the insertion meets no [UNIQUE] conflict *)
    let rowid := next_rowid d "user_profiles" (p_id <$> user_profiles d) in
    modify_db (λ d,
      set_sequence
        (set_user_profiles d
           (user_profiles d ++ [{| p_id := rowid; p_user_id := userId;
                                   p_age := age profileData;
                                   p_weight := weight profileData;
                                   p_height := height profileData;
                                   p_gender := gender profileData;
                                   p_fitness_goal := fitness_goal profileData |}]))
        "user_profiles" rowid)
  end.

Definition createActivity (userId : Z) (activityData : activity_data) : M Z :=
  d <- gets db ;;
  created_at <- current_timestamp ;;
  let rowid := next_rowid d "fitness_activities" (a_id <$> fitness_activities d) in
  modify_db (λ d,
    set_sequence
      (set_fitness_activities d
         (fitness_activities d
            ++ [{| a_id := rowid; a_user_id := userId;
                   a_name := name activityData;
                   a_description := description activityData;
                   a_icon := icon activityData;
                   a_target_value := target_value activityData;
                   a_target_unit := target_unit activityData;
                   a_category := category activityData;
                   a_is_active := 1;                   (* [DEFAULT 1] *)
                   a_created_at := created_at |}]))
      "fitness_activities" rowid) ;;;
  ret rowid.

Definition deactivate (r : activity_row) : activity_row :=
  {| a_id := a_id r; a_user_id := a_user_id r; a_name := a_name r;
     a_description := a_description r; a_icon := a_icon r;
     a_target_value := a_target_value r; a_target_unit := a_target_unit r;
     a_category := a_category r; a_is_active := 0;
     a_created_at := a_created_at r |}.

(** [UPDATE fitness_activities SET is_active = 0 WHERE id = ?] with the
    parameter array [[]]: [activityId] is not bound. *)
Definition deleteActivity (activityId : Z) : M unit :=
  let params : list jsval := [] in
  modify_db (λ d,
    set_fitness_activities d
      ((λ r, if holds (sql_eq (JNum (a_id r)) (param params 0))
             then deactivate r else r) <$> fitness_activities d)).

(** [INSERT OR REPLACE INTO activity_logs ...]: the rows that collide with
    the new one on [UNIQUE(activity_id, log_date)] are deleted, then the
    row is inserted.  [actualValue] and [notes] default to [null]. *)
Definition logActivity (userId activityId : Z) (date : string)
    (completed : bool) (actualValue : option Z) (notes : option string)
  : M unit :=
  try_catch
    (d <- gets db ;;
     logged_at <- current_timestamp ;;
     let rowid := next_rowid d "activity_logs" (l_id <$> activity_logs d) in
     let collides (r : log_row) :=
       holds (sql_eq (JNum (l_activity_id r)) (JNum activityId))
       && holds (sql_eq (JStr (l_log_date r)) (JStr date)) in
     modify_db (λ d,
       set_sequence
         (set_activity_logs d
            (List.filter (λ r, negb (collides r)) (activity_logs d)
               ++ [{| l_id := rowid; l_activity_id := activityId;
                      l_user_id := userId;
                      l_completed := if completed then 1 else 0;
                      l_actual_value := actualValue;
                      l_notes := notes;
                      l_log_date := date;
                      l_logged_at := logged_at |}]))
         "activity_logs" rowid))
    (λ error, throw error).

Definition getActivityStats (userId : Z) (startDate endDate : string)
  : M (list stat_row) :=
  let params := [JStr startDate; JStr endDate; JNum userId] in
  d <- gets db ;;
  let joined :=
    left_join (λ fa al, holds (sql_eq (JNum (a_id fa)) (JNum (l_activity_id al)))
                        && between startDate endDate (l_log_date al))
              (fitness_activities d) (activity_logs d) in
  let kept :=
    List.filter (λ jr, holds (sql_eq (JNum (a_user_id (fst jr))) (param params 2))
                       && holds (sql_eq (JNum (a_is_active (fst jr))) (JNum 1)))
                joined in
  ret (omap aggregate (group_by_id kept)).

End DatabaseService.

(** ** AuthService *)

Definition SESSION_KEY : string := "@fitness_tracker_session".

Record validation : Type := {
  isValid : bool;
  errors : list string }.

Definition hex_digit (k : N) : ascii :=
  default "0"%char (String.get (N.to_nat k) "0123456789abcdef").

(** [n.toString(16)] for a number below 256 *)
Definition toString16 (n : N) : string :=
  if (n <? 16)%N then String (hex_digit n) EmptyString
  else String (hex_digit (n / 16)%N) (String (hex_digit (n mod 16)%N) EmptyString).

(** [s.padStart(targetLength, pad)] for a pad of one character *)
Definition padStart (targetLength : nat) (pad : ascii) (s : string) : string :=
  String.append
    (String.string_of_list_ascii (replicate (targetLength - String.length s) pad))
    s.

(** [pieces.join(sep)] *)
Fixpoint join (sep : string) (pieces : list string) : string :=
  match pieces with
  | [] => EmptyString
  | [p] => p
  | p :: ps => String.append p (String.append sep (join sep ps))
  end.

(** The seven activities of [createDefaultActivities].  The icons, and the
    icon at the head of each name, lie outside the character range of the
    model; the literals are those of the source file. *)
Definition defaultActivities : list activity_data :=
  [
    {| name := "ðŸ’§ Hydration";
       description := Some "Drink water throughout the day";
       icon := Some "ðŸ’§";
       target_value := Some 8;
       target_unit := Some "glasses";
       category := Some "nutrition" |};
    {| name := "ðŸƒ Cardio";
       description := Some "Cardiovascular exercise";
       icon := Some "ðŸƒ";
       target_value := Some 30;
       target_unit := Some "minutes";
       category := Some "exercise" |};
    {| name := "ðŸ‹ï¸ Strength";
       description := Some "Strength training workout";
       icon := Some "ðŸ‹ï¸";
       target_value := Some 45;
       target_unit := Some "minutes";
       category := Some "exercise" |};
    {| name := "ðŸ§˜ Stretching";
       description := Some "Flexibility and mobility work";
       icon := Some "ðŸ§˜";
       target_value := Some 15;
       target_unit := Some "minutes";
       category := Some "recovery" |};
    {| name := "ðŸ˜´ Sleep";
       description := Some "Quality sleep";
       icon := Some "ðŸ˜´";
       target_value := Some 8;
       target_unit := Some "hours";
       category := Some "recovery" |};
    {| name := "ðŸ¥— Healthy Meal";
       description := Some "Balanced, nutritious meal";
       icon := Some "ðŸ¥—";
       target_value := Some 3;
       target_unit := Some "meals";
       category := Some "nutrition" |};
    {| name := "ðŸ“Š Track Progress";
       description := Some "Log weight or measurements";
       icon := Some "ðŸ“Š";
       target_value := Some 1;
       target_unit := Some "entry";
       category := Some "tracking" |}
  ].

(** The pattern of [validateEmail]: one or more characters other than white
    space and [@], an [@], one or more such characters, a dot, one or more
    such characters. *)
Definition emailRegex : Regex.t :=
  let other := Regex.Class (λ c, negb (Str.is_space c || Ascii.eqb c "@")) in
  Regex.Cat (Regex.Plus other)
    (Regex.Cat (Regex.Class (Ascii.eqb "@"))
       (Regex.Cat (Regex.Plus other)
          (Regex.Cat (Regex.Class (Ascii.eqb "."))
             (Regex.Plus other)))).

Section AuthService.

Context `{Platform}.

Definition digestStringAsync (data : string) : M string :=
  ret (sha256_hex data).

Definition getRandomBytesAsync (count : nat) : M (list byte) :=
  λ w, (set_draws w (S (draws w)), Return (random_bytes (draws w) count)).

Definition toISOString : M string :=
  λ w, (set_ticks w (S (ticks w)), Return (iso_time (ticks w))).

Definition setItem (key : string) (value : session) : M unit :=
  modify (λ w, set_asyncStorage w (<[key := value]> (asyncStorage w))).

Definition getItem (key : string) : M (option session) :=
  gets (λ w, asyncStorage w !! key).

Definition removeItem (key : string) : M unit :=
  modify (λ w, set_asyncStorage w (delete key (asyncStorage w))).

(** [o.k] where [o] may be [null]: reading a property of [null] is a
    [TypeError]. *)
Definition member (o : option jsobj) (k : string) : M jsval :=
  match o with
  | Some obj => ret (prop obj k)
  | None => throw TypeError
  end.

(** [v.split(':')]: only a string has the method. *)
Definition split_colon (v : jsval) : M (list string) :=
  match v with
  | JStr s => ret (Str.split ":" s)
  | _ => throw TypeError
  end.

(** [password + piece] where [piece] is an element of an array of strings,
    [None] when the index is past the end ([undefined]). *)
Definition plus (password : string) (piece : option string) : string :=
  String.append password (default "undefined" piece).

Definition generateSalt : M string :=
  randomBytes <- getRandomBytesAsync 16 ;;
  ret (join "" ((λ b, padStart 2 "0" (toString16 (Byte.to_N b))) <$> randomBytes)).

Definition hashPassword (password : string) : M string :=
  try_catch
    (salt <- generateSalt ;;
     hash <- digestStringAsync (String.append password salt) ;;
     ret (String.append salt (String.append ":" hash)))
    (λ error, throw (Error "Password hashing failed")).

Definition verifyPassword (password : string) (storedHash : jsval) : M bool :=
  try_catch
    (pieces <- split_colon storedHash ;;
     let salt := pieces !! 0%nat in
     let hash := pieces !! 1%nat in
     computedHash <- digestStringAsync (plus password salt) ;;
     ret (bool_decide (Some computedHash = hash)))    (* [computedHash === hash] *)
    (λ error, ret false).

Definition validateEmail (email : string) : bool :=
  Regex.test emailRegex email.

(** The body pushes nothing on [errors]. *)
Definition validatePassword (password : string) : validation :=
  let errors : list string := [] in
  {| isValid := bool_decide (List.length errors = 0%nat); errors := errors |}.

Definition createSession (user : option jsobj) : M unit :=
  try_catch
    (timestamp <- toISOString ;;
     let session := {| session_user := user; session_timestamp := timestamp |} in
     setItem SESSION_KEY session ;;;
     modify (λ w, set_currentUser w user))
    (λ error, throw error).

Fixpoint createActivities (userId : Z) (activities : list activity_data)
  : M unit :=
  match activities with
  | [] => ret tt
  | activity :: rest =>
      createActivity userId activity ;;; createActivities userId rest
  end.

Definition createDefaultActivities (userId : Z) : M unit :=
  createActivities userId defaultActivities.

Definition register (email password fullName : string) : M (option jsobj) :=
  try_catch
    (when (negb (validateEmail email))
       (throw (Error "Invalid email format")) ;;;
     let passwordValidation := validatePassword password in
     when (negb (isValid passwordValidation))
       (throw (Error (join ". " (errors passwordValidation)))) ;;;
     when (bool_decide (fullName = EmptyString)
           || (Str.length (Str.trim fullName) <? 2))
       (throw (Error "Full name must be at least 2 characters")) ;;;
     existingUser <- getUserByEmail (JStr (Str.toLowerCase email)) ;;
     when (bool_decide (is_Some existingUser))
       (throw (Error "Email already registered")) ;;;
     passwordHash <- hashPassword password ;;
     userId <- createUser (Str.toLowerCase email) passwordHash
                          (Str.trim fullName) ;;
     createOrUpdateProfile userId
       {| age := None; weight := None; height := None; gender := None;
          fitness_goal := None |} ;;;
     createDefaultActivities userId ;;;
     user <- getUserById (JNum userId) ;;
     createSession user ;;;
     ret user)
    (λ error, throw error).

Definition login (email password : string) : M jsobj :=
  try_catch
    (user <- getUserByEmail (JStr (Str.toLowerCase email)) ;;
     match user with
     | None => throw (Error "Invalid email or password")
     | Some user =>
         verified <- verifyPassword password (prop user "password_hash") ;;
         when (negb verified) (throw (Error "Invalid email or password")) ;;;
         let userWithoutPassword := delete "password_hash" user in
         createSession (Some userWithoutPassword) ;;;
         ret userWithoutPassword
     end)
    (λ error, throw error).

Definition getCurrentUser : M (option jsobj) :=
  try_catch
    (sessionData <- getItem SESSION_KEY ;;
     match sessionData with
     | None => ret None
     | Some session =>
         modify (λ w, set_currentUser w (session_user session)) ;;;
         ret (session_user session)
     end)
    (λ error, ret None).

Definition logout : M unit :=
  try_catch
    (removeItem SESSION_KEY ;;;
     modify (λ w, set_currentUser w None))
    (λ error, throw error).

(** [UPDATE users SET password_hash = ? WHERE id = ?] *)
Definition update_password_hash (params : list jsval) : M unit :=
  modify_db (λ d,
    set_users d
      ((λ r, if holds (sql_eq (JNum (u_id r)) (param params 1))
             then {| u_id := u_id r; u_email := u_email r;
                     u_password_hash :=
                       match param params 0 with
                       | JStr h => h
                       | _ => u_password_hash r
                       end;
                     u_full_name := u_full_name r;
                     u_created_at := u_created_at r |}
             else r) <$> users d)).

Definition changePassword (userId : Z) (currentPassword newPassword : string)
  : M bool :=
  try_catch
    (user <- getUserById (JNum userId) ;;
     email <- member user "email" ;;
     fullUser <- getUserByEmail email ;;
     password_hash <- member fullUser "password_hash" ;;
     verified <- verifyPassword currentPassword password_hash ;;
     when (negb verified) (throw (Error "Current password is incorrect")) ;;;
     let passwordValidation := validatePassword newPassword in
     when (negb (isValid passwordValidation))
       (throw (Error (join ". " (errors passwordValidation)))) ;;;
     newPasswordHash <- hashPassword newPassword ;;
     update_password_hash [JStr newPasswordHash; JNum userId] ;;;
     ret true)
    (λ error, throw error).

End AuthService.

(** ** A platform to run the model on

    SHA-256 as FIPS 180-4 defines it, on the UTF-8 bytes of the string, in
    lowercase hexadecimal: what expo-crypto computes.  The random source of
    [demo_platform] gives the number of the draw in every byte and its clock
    stands still; the properties below are stated for every platform. *)

Module SHA256.

Local Open Scope N_scope.

Definition w32 (x : N) : N := N.land x 0xffffffff.
Definition add (x y : N) : N := w32 (x + y).
Definition rotr (n x : N) : N := N.lor (N.shiftr x n) (w32 (N.shiftl x (32 - n))).
Definition shr (n x : N) : N := N.shiftr x n.
Definition not32 (x : N) : N := N.lxor x 0xffffffff.

Definition Ch (x y z : N) : N := N.lxor (N.land x y) (N.land (not32 x) z).
Definition Maj (x y z : N) : N :=
  N.lxor (N.lxor (N.land x y) (N.land x z)) (N.land y z).
Definition Sigma0 (x : N) : N := N.lxor (N.lxor (rotr 2 x) (rotr 13 x)) (rotr 22 x).
Definition Sigma1 (x : N) : N := N.lxor (N.lxor (rotr 6 x) (rotr 11 x)) (rotr 25 x).
Definition sigma0 (x : N) : N := N.lxor (N.lxor (rotr 7 x) (rotr 18 x)) (shr 3 x).
Definition sigma1 (x : N) : N := N.lxor (N.lxor (rotr 17 x) (rotr 19 x)) (shr 10 x).

(** The largest [r] below [2 ^ bits] with [power r <= n] *)
Fixpoint root (bits : nat) (power : N → N) (n r : N) : N :=
  match bits with
  | O => r
  | S bits' =>
      let candidate := r + 2 ^ N.of_nat bits' in
      root bits' power n (if power candidate <=? n then candidate else r)
  end.

Definition is_prime (n : N) : bool :=
  (2 <=? n)
  && forallb (λ d, negb (n mod N.of_nat d =? 0)) (seq 2 (N.to_nat n - 2)).

Definition primes : list N :=
  List.filter is_prime (N.of_nat <$> seq 2 310).

(** The first 32 bits of the fractional part of the square root, and of
    the cube root, of [p] *)
Definition frac_sqrt (p : N) : N :=
  w32 (root 36 (λ r, r * r) (p * 2 ^ 64) 0).
Definition frac_cbrt (p : N) : N :=
  w32 (root 36 (λ r, r * r * r) (p * 2 ^ 96) 0).

(** The round constants, from the first 64 primes, and the initial hash
    value, from the first 8 *)
Definition K : list N := frac_cbrt <$> primes.
Definition H0 : list N := frac_sqrt <$> take 8 primes.

(** The message followed by the bit 1, zeros, and its length in bits on 64
    bits, a multiple of 64 bytes in all. *)
Definition pad (message : list N) : list N :=
  let len := N.of_nat (List.length message) in
  let zeros := N.to_nat ((119 - len mod 64) mod 64) in
  message ++ [0x80] ++ replicate zeros 0
    ++ ((λ i, N.shiftr (8 * len) (8 * i) mod 256) <$> [7; 6; 5; 4; 3; 2; 1; 0]).

(** Big-endian words of 32 bits *)
Fixpoint words (bytes : list N) : list N :=
  match bytes with
  | a :: b :: c :: d :: rest =>
      (N.shiftl a 24 + N.shiftl b 16 + N.shiftl c 8 + d) :: words rest
  | _ => []
  end.

Fixpoint schedule (n : nat) (ws : list N) : list N :=
  match n with
  | O => ws
  | S n' =>
      let t := List.length ws in
      let at_ (i : nat) := default 0 (ws !! (t - i)%nat) in
      schedule n'
        (ws ++ [add (add (sigma1 (at_ 2%nat)) (at_ 7%nat))
                    (add (sigma0 (at_ 15%nat)) (at_ 16%nat))])
  end.

Definition round (state : list N) (kw : N * N) : list N :=
  match state with
  | [a; b; c; d; e; f; g; h] =>
      let t1 := add (add (add h (Sigma1 e)) (add (Ch e f g) (fst kw))) (snd kw) in
      let t2 := add (Sigma0 a) (Maj a b c) in
      [add t1 t2; a; b; c; add d t1; e; f; g]
  | _ => state
  end.

Definition compress (hash block : list N) : list N :=
  zip_with add hash (foldl round hash (zip K (schedule 48 block))).

Fixpoint blocks (n : nat) (hash ws : list N) : list N :=
  match n with
  | O => hash
  | S n' =>
      match ws with
      | [] => hash
      | _ => blocks n' (compress hash (take 16 ws)) (drop 16 ws)
      end
  end.

Definition digest (message : list N) : list N :=
  let ws := words (pad message) in
  blocks (List.length ws) H0 ws.

(** UTF-8 of a string whose characters are below U+0100 *)
Fixpoint utf8 (s : string) : list N :=
  match s with
  | EmptyString => []
  | String c s' =>
      let n := N_of_ascii c in
      if n <? 128 then n :: utf8 s'
      else (192 + n / 64) :: (128 + n mod 64) :: utf8 s'
  end.

Definition hex8 (x : N) : string :=
  String.string_of_list_ascii
    ((λ i, hex_digit (N.shiftr x (4 * i) mod 16)) <$> [7; 6; 5; 4; 3; 2; 1; 0]).

Definition hex (s : string) : string :=
  foldr (λ x acc, String.append (hex8 x) acc) EmptyString (digest (utf8 s)).

End SHA256.

Definition demo_platform : Platform :=
  {| sha256_hex := SHA256.hex;
     random_bytes := λ n count, replicate count (default Byte.x00 (Byte.of_nat n));
     iso_time := λ _, "2024-01-01T00:00:00.000Z";
     sql_time := λ _, "2024-01-01 00:00:00" |}.

Definition empty_db : database :=
  {| users := []; user_profiles := []; fitness_activities := [];
     activity_logs := []; sqlite_sequence := ∅ |}.

(** The world when the application starts on a database [d]: nothing in
    AsyncStorage, [currentUser] as the constructor leaves it. *)
Definition boot (d : database) : world :=
  {| db := d; asyncStorage := ∅; currentUser := None; draws := 0; ticks := 0 |}.

(** ** Vocabulary of the properties *)

(** A stored credential of the form [salt:digest]: split on the delimiter it
    is exactly a salt and a digest.  A string with no delimiter, or with more
    than one, is malformed. *)
Definition well_formed_credential (stored : string) : bool :=
  bool_decide (List.length (Str.split ":" stored) = 2%nat).

(** What [verifyPassword] answers on a string: whether the second piece of the
    split is the digest of the password followed by the first piece. *)
Definition verifies `{Platform} (password stored : string) : bool :=
  let pieces := Str.split ":" stored in
  bool_decide (Some (sha256_hex (plus password (pieces !! 0%nat)))
               = pieces !! 1%nat).

(** A string of hexadecimal digits, as a digest in [HEX] encoding is. *)
Definition is_hex_digit (c : ascii) : bool :=
  let n := Str.code c in
  ((48 <=? n) && (n <=? 57) || (97 <=? n) && (n <=? 102)
   || (65 <=? n) && (n <=? 70))%N.

Fixpoint hex_string (s : string) : bool :=
  match s with
  | EmptyString => true
  | String c s' => is_hex_digit c && hex_string s'
  end.

(** The salt [generateSalt] makes of the [n]-th draw of the random source,
    and the credential [hashPassword] stores with it. *)
Definition salt_of_draw `{Platform} (n : nat) : string :=
  join "" ((λ b, padStart 2 "0" (toString16 (Byte.to_N b))) <$> random_bytes n 16).

Definition credential `{Platform} (password salt : string) : string :=
  String.append salt (String.append ":" (sha256_hex (String.append password salt))).

(** The password policy the comment of [validatePassword], the README and the
    registration screen state: at least 8 characters, an uppercase letter, a
    lowercase letter and a digit. *)
Definition is_upper (c : ascii) : bool := ((65 <=? Str.code c) && (Str.code c <=? 90))%N.
Definition is_lower (c : ascii) : bool := ((97 <=? Str.code c) && (Str.code c <=? 122))%N.
Definition is_digit (c : ascii) : bool := ((48 <=? Str.code c) && (Str.code c <=? 57))%N.

Definition meets_policy (password : string) : bool :=
  let cs := String.list_ascii_of_string password in
  (8 <=? Str.length password)
  && existsb is_upper cs && existsb is_lower cs && existsb is_digit cs.

(** A store with one user, whose credential is the one [hashPassword] makes
    of the password ["Passw0rd!"] and the salt of the bytes 0 to 15, and one
    active activity of theirs, with no log. *)
Definition one_activity_db : database :=
  {| users := [{| u_id := 1; u_email := "alice@test.com";
                  u_password_hash :=
                    "000102030405060708090a0b0c0d0e0f:572a578e2bb9b6010e5bd7abc7540a733205bc6d4d99bb41d429d58af5e93565"; u_full_name := "Alice A";
                  u_created_at := "2024-01-01 00:00:00" |}];
     user_profiles := [];
     fitness_activities :=
       [{| a_id := 1; a_user_id := 1; a_name := "Cardio";
           a_description := None; a_icon := None;
           a_target_value := Some 30; a_target_unit := Some "minutes";
           a_category := Some "exercise"; a_is_active := 1;
           a_created_at := "2024-01-01 00:00:00" |}];
     activity_logs := [];
     sqlite_sequence := {[ "users" := 1; "fitness_activities" := 1 ]} |}.

(** The same store with one log of the activity, dated before 2024. *)
Definition logged_in_2023_db : database :=
  set_activity_logs one_activity_db
    [{| l_id := 1; l_activity_id := 1; l_user_id := 1; l_completed := 1;
        l_actual_value := Some 30; l_notes := None;
        l_log_date := "2023-12-31"; l_logged_at := "2023-12-31 18:00:00" |}].

(** The log rows kept for the activity [activityId] on the day [date]. *)
Definition logs_for (activityId : Z) (date : string) (d : database)
  : list log_row :=
  List.filter (λ r, bool_decide (l_activity_id r = activityId)
                    && bool_decide (l_log_date r = date))
              (activity_logs d).

(** What a computation establishes from a world: [Q] of its result and final
    world when it returns, [E] of the exception and final world when it
    throws. *)
Definition wp {A} (m : M A) (Q : A → world → Prop) (E : exn → world → Prop)
    (w : world) : Prop :=
  match m w with
  | (w', Return a) => Q a w'
  | (w', Throw e) => E e w'
  end.

(** An object, or [null], without the property [password_hash]. *)
Definition no_password_hash (user : option jsobj) : Prop :=
  ∀ u, user = Some u → u !! "password_hash" = None.

(** The session kept in AsyncStorage, if any, and [currentUser] hold no
    [password_hash]. *)
Definition session_clean (w : world) : Prop :=
  (∀ s, asyncStorage w !! SESSION_KEY = Some s → no_password_hash (session_user s))
  ∧ no_password_hash (currentUser w).

(** The operations of the account service a caller can issue. *)
Inductive operation : Type :=
| Register (email password fullName : string)
| Login (email password : string)
| GetCurrentUser
| Logout.

(** The user object an operation hands back, if it hands one back. *)
Definition returned_user {A} (to_user : A → option jsobj) (o : outcome A)
  : option jsobj :=
  match o with
  | Return a => to_user a
  | Throw _ => None
  end.

Section Reachable.

Context `{Platform}.

Definition run (op : operation) (w : world) : world * option jsobj :=
  match op with
  | Register email password fullName =>
      let r := register email password fullName w in
      (fst r, returned_user id (snd r))
  | Login email password =>
      let r := login email password w in
      (fst r, returned_user Some (snd r))
  | GetCurrentUser =>
      let r := getCurrentUser w in
      (fst r, returned_user id (snd r))
  | Logout => (fst (logout w), None)
  end.

(** The worlds the application can be in: it starts with nothing in
    AsyncStorage and no current user, on any database, and then runs
    operations; it can be started again, which builds the service anew
    ([currentUser] is [null]) on the database and the AsyncStorage it had. *)
Inductive reachable : world → Prop :=
| reachable_boot (d : database) : reachable (boot d)
| reachable_run (op : operation) (w : world) :
    reachable w → reachable (fst (run op w))
| reachable_restart (w : world) :
    reachable w → reachable (set_currentUser w None).

End Reachable.

(** The row a registration that returned has added to [users], seen from the
    world before ([w]) and the world after ([w1]). *)
Definition registered `{Platform} (email password : string) (w : world)
    (user : option jsobj) (w1 : world) : Prop :=
  ∃ row salt,
    List.find (λ r, holds (sql_eq (JStr (u_email r)) (JStr (Str.toLowerCase email))))
              (users (db w)) = None
    ∧ users (db w1) = users (db w) ++ [row]
    ∧ (∀ r, r ∈ users (db w) → u_id r < u_id row)
    ∧ u_email row = Str.toLowerCase email
    ∧ u_password_hash row = credential password salt
    ∧ Str.mem ":" salt = false
    ∧ user = Some (user_columns row).

(** ** DatabaseService: the other methods

    A query that selects every column of a table ([SELECT *]) hands back row
    objects with exactly the columns of the table: the row records
    themselves.  [ORDER BY] sorts; SQL leaves the order of rows with equal
    keys open, and nothing below depends on it. *)

(** A row of the result of [getActivityLogsForDate]: the columns of the log
    ([al.*]) and six columns of its activity. *)
Record log_with_activity : Type := {
  la_log : log_row;
  la_name : string;
  la_description : option string;
  la_icon : option string;
  la_target_value : option Z;
  la_target_unit : option string;
  la_category : option string }.

(** A nullable number, a nullable text, as the value JavaScript has of it *)
Definition of_number (n : option Z) : jsval := from_option JNum JNull n.
Definition of_text (s : option string) : jsval := from_option JStr JNull s.

(** [ORDER BY created_at DESC] *)
Definition created_at_desc (a b : activity_row) : Prop :=
  String.le (a_created_at b) (a_created_at a).

Global Instance created_at_desc_dec : RelDecision created_at_desc.
Proof. intros a b. unfold created_at_desc. apply _. Defined.

Definition getUserProfile (userId : Z) : M (option profile_row) :=
  let params := [JNum userId] in
  d <- gets db ;;
  ret (List.find (λ r, holds (sql_eq (JNum (p_user_id r)) (param params 0)))
                 (user_profiles d)).

Definition getActivitiesByUser (userId : Z) : M (list activity_row) :=
  let params := [JNum userId] in
  d <- gets db ;;
  ret (merge_sort created_at_desc
         (List.filter
            (λ r, holds (sql_eq (JNum (a_user_id r)) (param params 0))
                  && holds (sql_eq (JNum (a_is_active r)) (JNum 1)))
            (fitness_activities d))).

Definition updateActivity (activityId : Z) (activityData : activity_data)
  : M unit :=
  let params :=
    [JStr (name activityData); of_text (description activityData);
     of_text (icon activityData); of_number (target_value activityData);
     of_text (target_unit activityData); of_text (category activityData);
     JNum activityId] in
  modify_db (λ d,
    set_fitness_activities d
      ((λ r, if holds (sql_eq (JNum (a_id r)) (param params 6))
             then {| a_id := a_id r; a_user_id := a_user_id r;
                     a_name := name activityData;
                     a_description := description activityData;
                     a_icon := icon activityData;
                     a_target_value := target_value activityData;
                     a_target_unit := target_unit activityData;
                     a_category := category activityData;
                     a_is_active := a_is_active r;
                     a_created_at := a_created_at r |}
             else r) <$> fitness_activities d)).

(** [FROM activity_logs al JOIN fitness_activities fa ON al.activity_id =
    fa.id WHERE al.user_id = ? AND al.log_date = ?] *)
Definition getActivityLogsForDate (userId : Z) (date : string)
  : M (list log_with_activity) :=
  let params := [JNum userId; JStr date] in
  d <- gets db ;;
  ret (List.filter
         (λ al, holds (sql_eq (JNum (l_user_id al)) (param params 0))
                && holds (sql_eq (JStr (l_log_date al)) (param params 1)))
         (activity_logs d)
       ≫= (λ al,
         (λ fa, {| la_log := al; la_name := a_name fa;
                   la_description := a_description fa; la_icon := a_icon fa;
                   la_target_value := a_target_value fa;
                   la_target_unit := a_target_unit fa;
                   la_category := a_category fa |})
         <$> List.filter
               (λ fa, holds (sql_eq (JNum (l_activity_id al)) (JNum (a_id fa))))
               (fitness_activities d))).

(** *** Workout sessions and body measurements

    The two tables the record [database] leaves out.  Their methods are
    written with the state passed along: the world, for the clock and
    [sqlite_sequence], and the two tables. *)

Record workout_row : Type := {
  s_id : Z;
  s_user_id : Z;
  s_workout_type : string;
  s_duration_minutes : option Z;
  s_calories_burned : option Z;
  s_intensity : option string;
  s_notes : option string;
  s_session_date : string;
  s_created_at : string }.

Record measurement_row : Type := {
  m_id : Z;
  m_user_id : Z;
  m_weight : option Z;
  m_body_fat_percentage : option Z;
  m_muscle_mass : option Z;
  m_waist_circumference : option Z;
  m_measurement_date : string;
  m_created_at : string }.

Record tracking : Type := {
  workout_sessions : list workout_row;
  body_measurements : list measurement_row }.

Record session_data : Type := {
  workout_type : string;
  duration_minutes : option Z;
  calories_burned : option Z;
  intensity : option string;
  notes : option string;
  session_date : string }.

Record measurement_data : Type := {
  measured_weight : option Z;            (* [weight] *)
  body_fat_percentage : option Z;
  muscle_mass : option Z;
  waist_circumference : option Z;
  measurement_date : string }.

(** [ORDER BY session_date DESC], [ORDER BY measurement_date DESC] *)
Definition session_date_desc (a b : workout_row) : Prop :=
  String.le (s_session_date b) (s_session_date a).

Global Instance session_date_desc_dec : RelDecision session_date_desc.
Proof. intros a b. unfold session_date_desc. apply _. Defined.

Definition measurement_date_desc (a b : measurement_row) : Prop :=
  String.le (m_measurement_date b) (m_measurement_date a).

Global Instance measurement_date_desc_dec : RelDecision measurement_date_desc.
Proof. intros a b. unfold measurement_date_desc. apply _. Defined.

(** [LIMIT n]: the first [n] rows, every row when [n] is negative. *)
Definition limit_rows {A} (n : Z) (rows : list A) : list A :=
  if n <? 0 then rows else take (Z.to_nat n) rows.

Section Tracking.

Context `{Platform}.

Definition createWorkoutSession (userId : Z) (sessionData : session_data)
  (s : world * tracking) : (world * tracking) * Z :=
let (w, t) := s in
let rowid := next_rowid (db w) "workout_sessions"
               (s_id <$> workout_sessions t) in
(set_db (set_ticks w (S (ticks w)))
   (set_sequence (db w) "workout_sessions" rowid),
 {| workout_sessions :=
      workout_sessions t
        ++ [{| s_id := rowid; s_user_id := userId;
               s_workout_type := workout_type sessionData;
               s_duration_minutes := duration_minutes sessionData;
               s_calories_burned := calories_burned sessionData;
               s_intensity := intensity sessionData;
               s_notes := notes sessionData;
               s_session_date := session_date sessionData;
               s_created_at := sql_time (ticks w) |}];
    body_measurements := body_measurements t |},
 rowid).

Definition addBodyMeasurement (userId : Z) (measurementData : measurement_data)
  (s : world * tracking) : (world * tracking) * Z :=
let (w, t) := s in
let rowid := next_rowid (db w) "body_measurements"
               (m_id <$> body_measurements t) in
(set_db (set_ticks w (S (ticks w)))
   (set_sequence (db w) "body_measurements" rowid),
 {| workout_sessions := workout_sessions t;
    body_measurements :=
      body_measurements t
        ++ [{| m_id := rowid; m_user_id := userId;
               m_weight := measured_weight measurementData;
               m_body_fat_percentage := body_fat_percentage measurementData;
               m_muscle_mass := muscle_mass measurementData;
               m_waist_circumference := waist_circumference measurementData;
               m_measurement_date := measurement_date measurementData;
               m_created_at := sql_time (ticks w) |}] |},
 rowid).

End Tracking.

Definition getWorkoutSessions (userId : Z) (startDate endDate : string)
    (t : tracking) : list workout_row :=
  merge_sort session_date_desc
    (List.filter
       (λ r, holds (sql_eq (JNum (s_user_id r)) (JNum userId))
             && between startDate endDate (s_session_date r))
       (workout_sessions t)).

(** [limit] is 30 when the caller gives none. *)
Definition getBodyMeasurements (userId : Z) (limit : option Z) (t : tracking)
  : list measurement_row :=
  limit_rows (default 30 limit)
    (merge_sort measurement_date_desc
       (List.filter (λ r, holds (sql_eq (JNum (m_user_id r)) (JNum userId)))
                    (body_measurements t))).

(** The five [DELETE FROM ... WHERE user_id = ${userId}] of [clearUserData],
    in their order; the statements leave [users] alone. *)
Definition clearUserData (userId : Z) (s : world * tracking) : world * tracking :=
  let (w, t) := s in
  let other {A} (user_id : A → Z) (r : A) :=
    negb (holds (sql_eq (JNum (user_id r)) (JNum userId))) in
  let d1 := set_activity_logs (db w)
              (List.filter (other l_user_id) (activity_logs (db w))) in
  let d2 := set_fitness_activities d1
              (List.filter (other a_user_id) (fitness_activities d1)) in
  let t3 := {| workout_sessions :=
                 List.filter (other s_user_id) (workout_sessions t);
               body_measurements := body_measurements t |} in
  let t4 := {| workout_sessions := workout_sessions t3;
               body_measurements :=
                 List.filter (other m_user_id) (body_measurements t3) |} in
  let d5 := set_user_profiles d2
              (List.filter (other p_user_id) (user_profiles d2)) in
  (set_db w d5, t4).

(** ** AuthService.updateProfile *)

Definition updateProfile (userId : Z) (profileData : profile_data) : M unit :=
  try_catch (createOrUpdateProfile userId profileData) (λ error, throw error).

(** ** FitnessTrackerScreen: the state of today's logs

    [todayLogs] maps an activity id to what the screen shows of its log of
    the day; a property the object lacks reads as [undefined]. *)

Record log_view : Type := {
  lv_completed : bool;
  lv_actual_value : jsval;
  lv_notes : jsval }.

Record screen : Type := {
  activities : list activity_row;
  todayLogs : gmap Z log_view }.

Section FitnessTrackerScreen.

Context `{Platform}.

(** [new Date().toISOString().split('T')[0]] *)
Definition getTodayDate : M string :=
now <- toISOString ;;
ret (default EmptyString (head (Str.split "T" now))).

(** [loadData], for the user [user.id] of the screen *)
Definition loadData (userId : Z) (s : screen) : M screen :=
try_catch
  (userActivities <- getActivitiesByUser userId ;;
   today <- getTodayDate ;;
   logs <- getActivityLogsForDate userId today ;;
   let logsMap :=
     foldl (λ (logsMap : gmap Z log_view) log,
              <[l_activity_id (la_log log) :=
                  {| lv_completed := bool_decide (l_completed (la_log log) = 1);
                     lv_actual_value := of_number (l_actual_value (la_log log));
                     lv_notes := of_text (l_notes (la_log log)) |}]> logsMap)
           ∅ logs in
   ret {| activities := userActivities; todayLogs := logsMap |})
  (λ error, ret s).

(** [toggleActivity]: [logActivity] is called with four arguments, so
  [actualValue] and [notes] are [null]. *)
Definition toggleActivity (userId activityId : Z) (s : screen) : M screen :=
try_catch
  (let currentLog := todayLogs s !! activityId in
   let newCompleted :=
     negb (from_option lv_completed false currentLog) in
   today <- getTodayDate ;;
   logActivity userId activityId today newCompleted None None ;;;
   ret {| activities := activities s;
          todayLogs :=
            <[activityId :=
                {| lv_completed := newCompleted;
                   lv_actual_value :=
                     from_option lv_actual_value JUndefined currentLog;
                   lv_notes := from_option lv_notes JUndefined currentLog |}]>
              (todayLogs s) |})
  (λ error, ret s).

End FitnessTrackerScreen.

(** ** Vocabulary of the further properties *)

(** The constraints [createTables] declares on the four tables: primary
    keys, [UNIQUE] columns and [UNIQUE(activity_id, log_date)]. *)
Record constraints_hold (d : database) : Prop := {
  users_id_unique : NoDup (u_id <$> users d);
  users_email_unique : NoDup (u_email <$> users d);
  profiles_id_unique : NoDup (p_id <$> user_profiles d);
  profiles_user_unique : NoDup (p_user_id <$> user_profiles d);
  activities_id_unique : NoDup (a_id <$> fitness_activities d);
  logs_id_unique : NoDup (l_id <$> activity_logs d);
  logs_key_unique :
    NoDup ((λ r, (l_activity_id r, l_log_date r)) <$> activity_logs d) }.

(** A computation keeps [I] when it leaves [I] true, whether it returns or
    throws. *)
Definition keeps {A} (I : world → Prop) (m : M A) : Prop :=
  ∀ w, I w → wp m (λ _ w', I w') (λ _ w', I w') w.

(** The worlds whose store meets the constraints *)
Abbreviation constrained := (λ w : world, constraints_hold (db w)).

(** A character the pattern of [validateEmail] takes in its three parts *)
Definition email_char (c : ascii) : bool :=
  negb (Str.is_space c || Ascii.eqb c "@").

(** A non-empty string of such characters *)
Fixpoint email_part (s : string) : bool :=
  match s with
  | EmptyString => false
  | String c EmptyString => email_char c
  | String c s' => email_char c && email_part s'
  end.

(** The strings a regular expression matches *)
Inductive matches : Regex.t → string → Prop :=
| matches_Eps : matches Regex.Eps EmptyString
| matches_Class (p : ascii → bool) (c : ascii) :
    p c = true → matches (Regex.Class p) (String c EmptyString)
| matches_Cat (r s : Regex.t) (u v : string) :
    matches r u → matches s v → matches (Regex.Cat r s) (String.append u v)
| matches_Alt_l (r s : Regex.t) (u : string) :
    matches r u → matches (Regex.Alt r s) u
| matches_Alt_r (r s : Regex.t) (u : string) :
    matches s u → matches (Regex.Alt r s) u
| matches_Star_nil (r : Regex.t) : matches (Regex.Star r) EmptyString
| matches_Star_cons (r : Regex.t) (u v : string) :
    matches r u → matches (Regex.Star r) v →
    matches (Regex.Star r) (String.append u v).

(** The operations of the two services on the four tables, AsyncStorage and
    [currentUser] *)
Inductive action : Type :=
| ARegister (email password fullName : string)
| ALogin (email password : string)
| AGetCurrentUser
| ALogout
| AChangePassword (userId : Z) (currentPassword newPassword : string)
| AUpdateProfile (userId : Z) (profileData : profile_data)
| ACreateUser (email passwordHash fullName : string)
| ACreateActivity (userId : Z) (activityData : activity_data)
| AUpdateActivity (activityId : Z) (activityData : activity_data)
| ADeleteActivity (activityId : Z)
| ALogActivity (userId activityId : Z) (date : string) (completed : bool)
    (actualValue : option Z) (notes : option string).

Definition perform `{Platform} (a : action) (w : world) : world :=
  match a with
  | ARegister email password fullName => exec (register email password fullName) w
  | ALogin email password => exec (login email password) w
  | AGetCurrentUser => exec getCurrentUser w
  | ALogout => exec logout w
  | AChangePassword userId currentPassword newPassword =>
      exec (changePassword userId currentPassword newPassword) w
  | AUpdateProfile userId profileData => exec (updateProfile userId profileData) w
  | ACreateUser email passwordHash fullName =>
      exec (createUser email passwordHash fullName) w
  | ACreateActivity userId activityData => exec (createActivity userId activityData) w
  | AUpdateActivity activityId activityData =>
      exec (updateActivity activityId activityData) w
  | ADeleteActivity activityId => exec (deleteActivity activityId) w
  | ALogActivity userId activityId date completed actualValue notes =>
      exec (logActivity userId activityId date completed actualValue notes) w
  end.

(** The row [createActivity] makes of [activityData] for [userId] *)
Definition activity_created (userId : Z) (r : activity_row)
    (activityData : activity_data) : Prop :=
  a_user_id r = userId ∧ a_is_active r = 1
  ∧ a_name r = name activityData
  ∧ a_description r = description activityData
  ∧ a_icon r = icon activityData
  ∧ a_target_value r = target_value activityData
  ∧ a_target_unit r = target_unit activityData
  ∧ a_category r = category activityData.

(** A profile row that carries [profileData] *)
Definition profile_has (p : profile_row) (profileData : profile_data) : Prop :=
  p_age p = age profileData ∧ p_weight p = weight profileData
  ∧ p_height p = height profileData ∧ p_gender p = gender profileData
  ∧ p_fitness_goal p = fitness_goal profileData.

(** The test [register] makes of [fullName] *)
Definition name_too_short (fullName : string) : bool :=
  bool_decide (fullName = EmptyString) || (Str.length (Str.trim fullName) <? 2).

(** Why [register] refuses, in the order of its checks *)
Definition registration_refused (email fullName : string) (w : world)
    (e : exn) : Prop :=
  (validateEmail email = false ∧ e = Error "Invalid email format")
  ∨ (validateEmail email = true ∧ name_too_short fullName = true
     ∧ e = Error "Full name must be at least 2 characters")
  ∨ (validateEmail email = true ∧ name_too_short fullName = false
     ∧ Str.toLowerCase email ∈ u_email <$> users (db w)
     ∧ e = Error "Email already registered").

(** What a registration that returned [user] has done, from the world [w]
    to the world [w1] *)
Definition registration_done `{Platform} (email password fullName : string)
    (w : world) (user : option jsobj) (w1 : world) : Prop :=
  validateEmail email = true
  ∧ name_too_short fullName = false
  ∧ (Str.toLowerCase email ∉ u_email <$> users (db w))
  ∧ ∃ row timestamp,
      users (db w1) = users (db w) ++ [row]
      ∧ u_id row = next_rowid (db w) "users" (u_id <$> users (db w))
      ∧ u_email row = Str.toLowerCase email
      ∧ u_full_name row = Str.trim fullName
      ∧ u_password_hash row = credential password (salt_of_draw (draws w))
      ∧ (∃ p, List.find (λ p, bool_decide (p_user_id p = u_id row))
                        (user_profiles (db w1)) = Some p
              ∧ profile_has p {| age := None; weight := None; height := None;
                                 gender := None; fitness_goal := None |})
      ∧ (∃ rows, fitness_activities (db w1) = fitness_activities (db w) ++ rows
                 ∧ Forall2 (activity_created (u_id row)) rows defaultActivities)
      ∧ activity_logs (db w1) = activity_logs (db w)
      ∧ user = Some (user_columns row)
      ∧ currentUser w1 = user
      ∧ asyncStorage w1
        = <[SESSION_KEY := {| session_user := user;
                              session_timestamp := timestamp |}]>
            (asyncStorage w).

(** What a login that returned [user] has done, from the world [w] to the
    world [w1]: [row] is the first row of [users] with the lower-cased
    email. *)
Definition login_done `{Platform} (email password : string) (w : world)
    (user : jsobj) (w1 : world) : Prop :=
  ∃ row timestamp,
    List.find (λ r, bool_decide (u_email r = Str.toLowerCase email))
              (users (db w)) = Some row
    ∧ verifies password (u_password_hash row) = true
    ∧ user = user_columns row
    ∧ db w1 = db w
    ∧ currentUser w1 = Some user
    ∧ asyncStorage w1
      = <[SESSION_KEY := {| session_user := Some user;
                            session_timestamp := timestamp |}]>
          (asyncStorage w).

(** The row [r] with the credential [h] *)
Definition with_password_hash (h : string) (r : user_row) : user_row :=
  {| u_id := u_id r; u_email := u_email r; u_password_hash := h;
     u_full_name := u_full_name r; u_created_at := u_created_at r |}.

(** The [WHERE] clause of [getActivitiesByUser] *)
Definition listed_for (userId : Z) (r : activity_row) : bool :=
  bool_decide (a_user_id r = userId) && bool_decide (a_is_active r = 1).

(** A log with the six columns of its activity, as [getActivityLogsForDate]
    selects them *)
Definition with_activity (al : log_row) (fa : activity_row) : log_with_activity :=
  {| la_log := al; la_name := a_name fa; la_description := a_description fa;
     la_icon := a_icon fa; la_target_value := a_target_value fa;
     la_target_unit := a_target_unit fa; la_category := a_category fa |}.

(** The logs of an activity dated in a range, and those of them that are
    completed *)
Definition logs_in_range (activityId : Z) (startDate endDate : string)
    (d : database) : list log_row :=
  List.filter (λ al, bool_decide (l_activity_id al = activityId)
                     && between startDate endDate (l_log_date al))
              (activity_logs d).

Definition completed_logs (logs : list log_row) : list log_row :=
  List.filter (λ al, bool_decide (l_completed al = 1)) logs.

(** The date part of the clock's [n]-th reading, as [getTodayDate] takes it *)
Definition date_at `{Platform} (n : nat) : string :=
  default EmptyString (head (Str.split "T" (iso_time n))).

(** What [loadData] shows of a log *)
Definition view_of (al : log_row) : log_view :=
  {| lv_completed := bool_decide (l_completed al = 1);
     lv_actual_value := of_number (l_actual_value al);
     lv_notes := of_text (l_notes al) |}.

(** * Properties *)

(** ** Reasoning on computations *)

Lemma try_catch_rethrow {A} (m : M A) (w : world) :
  try_catch m (λ error, throw error) w = m w.
Proof. unfold try_catch, throw. by destruct (m w) as [w' [a|e]]. Qed.

Lemma bind_Return {A B} (m : M A) (k : A → M B) w w' a :
  m w = (w', Return a) → bind m k w = k a w'.
Proof. unfold bind. by intros ->. Qed.

Section Wp.

Context {A B : Type}.
Implicit Types (Q : A → world → Prop) (E : exn → world → Prop).

Lemma wp_ret (a : A) Q E w : Q a w → wp (ret a) Q E w.
Proof. done. Qed.

Lemma wp_throw (e : exn) Q E w : E e w → wp (throw e) Q E w.
Proof. done. Qed.

Lemma wp_bind (m : M B) (k : B → M A) Q E w :
  wp m (λ b w', wp (k b) Q E w') E w → wp (bind m k) Q E w.
Proof. unfold wp, bind. by destruct (m w) as [w' [b|e]]. Qed.

Lemma wp_try_catch (m : M A) (h : exn → M A) Q E w :
  wp m Q (λ e w', wp (h e) Q E w') w → wp (try_catch m h) Q E w.
Proof. unfold wp, try_catch. by destruct (m w) as [w' [a|e]]. Qed.

Lemma wp_rethrow (m : M A) Q E w :
  wp m Q E w → wp (try_catch m (λ error, throw error)) Q E w.
Proof. unfold wp. by rewrite try_catch_rethrow. Qed.

Lemma wp_mono (m : M A) Q Q' E E' w :
  (∀ a w', Q a w' → Q' a w') → (∀ e w', E e w' → E' e w') →
  wp m Q E w → wp m Q' E' w.
Proof. unfold wp. destruct (m w) as [w' [a|e]]; auto. Qed.

Lemma wp_gets (f : world → A) Q E w : Q (f w) w → wp (gets f) Q E w.
Proof. done. Qed.

(** What [wp] says of a run that returned. *)
Lemma wp_returned (m : M A) Q E w w' a :
  m w = (w', Return a) → wp m Q E w → Q a w'.
Proof. unfold wp. by intros ->. Qed.

(** A computation that cannot throw returns. *)
Lemma wp_returns (m : M A) Q w :
  wp m Q (λ _ _, False) w → ∃ w' a, m w = (w', Return a) ∧ Q a w'.
Proof. unfold wp. destruct (m w) as [w' [a|e]]; [eauto | done]. Qed.

End Wp.

Lemma wp_modify (f : world → world) Q E w :
  Q tt (f w) → wp (modify f) Q E w.
Proof. done. Qed.

Lemma wp_modify_db (f : database → database) Q E w :
  Q tt (set_db w (f (db w))) → wp (modify_db f) Q E w.
Proof. done. Qed.

Lemma wp_when_throw (b : bool) (e : exn) Q E w :
  (b = true → E e w) → (b = false → Q tt w) → wp (when b (throw e)) Q E w.
Proof. destruct b; cbn; auto. Qed.

(** ** Lists, strings and row identifiers *)

Lemma find_None_iff {A} (p : A → bool) (l : list A) :
  List.find p l = None ↔ ∀ x, x ∈ l → p x = false.
Proof.
  induction l as [|y l IH]; cbn.
  - split; [|done]. intros _ x Hx. by apply elem_of_nil in Hx.
  - destruct (p y) eqn:Hy.
    + split; [done|]. intros Hall. rewrite Hall in Hy; [done | left].
    + rewrite IH. split.
      * intros Hall x [->|Hx]%elem_of_cons; auto.
      * intros Hall x Hx. apply Hall. by right.
Qed.

Lemma find_app_None_l {A} (p : A → bool) (l l' : list A) :
  List.find p l = None → List.find p (l ++ l') = List.find p l'.
Proof.
  induction l as [|y l IH]; cbn; [done|].
  destruct (p y); [done | apply IH].
Qed.

Lemma elem_of_List_filter {A} (p : A → bool) (l : list A) (x : A) :
  x ∈ List.filter p l ↔ x ∈ l ∧ p x = true.
Proof. rewrite !list_elem_of_In. apply filter_In. Qed.

Lemma List_filter_nil {A} (p : A → bool) (l : list A) :
  (∀ x, x ∈ l → p x = false) → List.filter p l = [].
Proof.
  induction l as [|y l IH]; cbn; [done|]. intros Hall.
  rewrite (Hall y) by left. apply IH. intros x Hx. apply Hall. by right.
Qed.

Lemma List_filter_ext_all {A} (p q : A → bool) (l : list A) :
  (∀ x, p x = q x) → List.filter p l = List.filter q l.
Proof. intros Hpq. apply filter_ext. exact Hpq. Qed.

Lemma append_nil_l (s : string) : String.append EmptyString s = s.
Proof. reflexivity. Qed.

Lemma append_cons (c : ascii) (s t : string) :
  String.append (String c s) t = String c (String.append s t).
Proof. reflexivity. Qed.

Lemma append_assoc (s t u : string) :
  String.append (String.append s t) u = String.append s (String.append t u).
Proof.
  induction s as [|c s IH]; [done|]. by rewrite !append_cons, IH.
Qed.

(** A string without the delimiter is one piece. *)
Lemma split_no_sep (sep : ascii) (s : string) :
  Str.mem sep s = false → Str.split sep s = [s].
Proof.
  induction s as [|c s IH]; cbn; [done|].
  destruct (Ascii.eqb c sep); cbn; [done|].
  intros Hs. by rewrite (IH Hs).
Qed.

Lemma split_sep (sep : ascii) (s t : string) :
  Str.mem sep s = false →
  Str.split sep (String.append s (String sep t)) = s :: Str.split sep t.
Proof.
  induction s as [|c s IH].
  - intros _. rewrite append_nil_l. cbn. by rewrite Ascii.eqb_refl.
  - rewrite append_cons. cbn. destruct (Ascii.eqb c sep); cbn; [done|].
    intros Hs. by rewrite (IH Hs).
Qed.

Lemma split_cases (sep : ascii) (s : string) :
  Str.mem sep s = false
  ∨ ∃ p t, s = String.append p (String sep t) ∧ Str.mem sep p = false.
Proof.
  induction s as [|c s IH]; [by left|]. cbn.
  destruct (Ascii.eqb_spec c sep) as [->|Hc]; cbn.
  - right. by exists EmptyString, s.
  - destruct IH as [Hnone|(p & t & -> & Hp)]; [by left|].
    right. exists (String c p), t. split; [done|]. cbn.
    rewrite Hp. by destruct (Ascii.eqb_spec c sep).
Qed.

Lemma mem_append (c : ascii) (s t : string) :
  Str.mem c (String.append s t) = Str.mem c s || Str.mem c t.
Proof.
  induction s as [|d s IH]; [done|].
  rewrite append_cons. cbn. by rewrite IH, orb_assoc.
Qed.

Lemma hex_string_no_colon (s : string) :
  hex_string s = true → Str.mem ":" s = false.
Proof.
  induction s as [|c s IH]; [done|]. cbn.
  intros [Hc Hs]%andb_true_iff. rewrite (IH Hs), orb_false_r.
  destruct (Ascii.eqb_spec c ":") as [->|]; [discriminate Hc | done].
Qed.

Lemma foldr_max_ge (i : Z) (l : list Z) (x : Z) :
  x ∈ l → x ≤ foldr Z.max i l.
Proof.
  induction l as [|y l IH]; cbn.
  - intros Hx. by apply elem_of_nil in Hx.
  - intros [->|Hx]%elem_of_cons; [lia|]. specialize (IH Hx). lia.
Qed.

Lemma next_rowid_fresh (d : database) (table : string) (rowids : list Z) (x : Z) :
  x ∈ rowids → x < next_rowid d table rowids.
Proof.
  intros Hx. unfold next_rowid.
  pose proof (foldr_max_ge (Z.max 0 (default 0 (sqlite_sequence d !! table)))
                _ _ Hx). lia.
Qed.

(** ** Records put back as they were *)

Lemma set_db_same w : set_db w (db w) = w.
Proof. by destruct w. Qed.

Lemma set_fitness_activities_same d :
  set_fitness_activities d (fitness_activities d) = d.
Proof. by destruct d. Qed.

(** ** Comparisons of the statements *)

Lemma holds_sql_eq_num x y : holds (sql_eq (JNum x) (JNum y)) = bool_decide (x = y).
Proof. cbn. repeat case_bool_decide; congruence. Qed.

Lemma holds_sql_eq_str x y : holds (sql_eq (JStr x) (JStr y)) = bool_decide (x = y).
Proof. cbn. repeat case_bool_decide; congruence. Qed.

Lemma holds_sql_eq_null v : holds (sql_eq v JNull) = false.
Proof. by destruct v. Qed.

(** ** The platform the model is run on *)

Example sha256_constants :
  List.length SHA256.K = 64%nat
  ∧ head SHA256.K = Some 0x428a2f98%N ∧ last SHA256.K = Some 0xc67178f2%N
  ∧ head SHA256.H0 = Some 0x6a09e667%N ∧ last SHA256.H0 = Some 0x5be0cd19%N.
Proof. vm_compute. done. Qed.

Example sha256_abc :
  SHA256.hex "abc"
  = "ba7816bf8f01cfea414140de5dae2223b00361a396177a9cb410ff61f20015ad".
Proof. vm_compute. reflexivity. Qed.

Lemma hex_digit_is_hex (k : N) : is_hex_digit (hex_digit k) = true.
Proof.
  unfold hex_digit. destruct (N.to_nat k) as [|n]; [done|].
  do 16 (destruct n as [|n]; [done|]). done.
Qed.

Lemma hex_string_append (s t : string) :
  hex_string (String.append s t) = hex_string s && hex_string t.
Proof.
  induction s as [|c s IH]; [done|].
  rewrite append_cons. cbn. by rewrite IH, andb_assoc.
Qed.

Lemma hex8_is_hex (x : N) : hex_string (SHA256.hex8 x) = true.
Proof.
  unfold SHA256.hex8. cbn -[hex_digit N.shiftr N.modulo N.mul].
  by rewrite !hex_digit_is_hex.
Qed.

Lemma demo_digest_is_hex (s : string) : hex_string (@sha256_hex demo_platform s) = true.
Proof.
  change (@sha256_hex demo_platform s) with (SHA256.hex s).
  unfold SHA256.hex. generalize (SHA256.digest (SHA256.utf8 s)).
  intros l. induction l as [|x l IH]; [done|].
  cbn [foldr]. by rewrite hex_string_append, hex8_is_hex, IH.
Qed.

Example one_activity_db_credential :
  u_password_hash <$> users one_activity_db
  = [@credential demo_platform "Passw0rd!" "000102030405060708090a0b0c0d0e0f"].
Proof. vm_compute. reflexivity. Qed.

(** ** What each method establishes *)

Lemma lookup_user_columns_id (r : user_row) :
  user_columns r !! "id" = Some (JNum (u_id r)).
Proof. reflexivity. Qed.

Lemma lookup_user_columns_password_hash (r : user_row) :
  user_columns r !! "password_hash" = None.
Proof. reflexivity. Qed.

Lemma prop_password_hash (r : user_row) :
  prop (user_columns_with_hash r) "password_hash" = JStr (u_password_hash r).
Proof. reflexivity. Qed.

Lemma lookup_without_password_id (r : user_row) :
  delete "password_hash" (user_columns_with_hash r) !! "id" = Some (JNum (u_id r)).
Proof. reflexivity. Qed.

Lemma toString16_no_colon (b : byte) :
  Str.mem ":" (padStart 2 "0" (toString16 (Byte.to_N b))) = false.
Proof. by destruct b. Qed.

Lemma join_empty_no_colon (pieces : list string) :
  Forall (λ p, Str.mem ":" p = false) pieces →
  Str.mem ":" (join "" pieces) = false.
Proof.
  induction 1 as [|p ps Hp _ IH]; [done|].
  destruct ps as [|q ps]; [done|].
  change (join "" (p :: q :: ps))
    with (String.append p (String.append "" (join "" (q :: ps)))).
  by rewrite append_nil_l, mem_append, Hp, IH.
Qed.

Section Methods.

Context `{Platform}.
Implicit Types (E : exn → world → Prop) (w : world).

Lemma getUserById_eq (userId : jsval) (w : world) :
  getUserById userId w
  = (w, Return (user_columns
                  <$> List.find (λ r, holds (sql_eq (JNum (u_id r)) userId))
                                (users (db w)))).
Proof. reflexivity. Qed.

Lemma getUserByEmail_eq (email : jsval) (w : world) :
  getUserByEmail email w
  = (w, Return (user_columns_with_hash
                  <$> List.find (λ r, holds (sql_eq (JStr (u_email r)) email))
                                (users (db w)))).
Proof. reflexivity. Qed.

Lemma getUserById_unknown (userId : Z) (w : world) :
  (∀ r, r ∈ users (db w) → u_id r ≠ userId) →
  getUserById (JNum userId) w = (w, Return None).
Proof.
  intros Hnone. rewrite getUserById_eq.
  replace (List.find _ _) with (@None user_row); [done|].
  symmetry. apply find_None_iff. intros r Hr.
  rewrite holds_sql_eq_num. apply bool_decide_eq_false, Hnone, Hr.
Qed.

Lemma verifyPassword_string (password stored : string) (w : world) :
  verifyPassword password (JStr stored) w = (w, Return (verifies password stored)).
Proof. reflexivity. Qed.

Lemma verifyPassword_not_string (password : string) (v : jsval) (w : world) :
  (∀ s, v ≠ JStr s) → verifyPassword password v w = (w, Return false).
Proof. intros Hv. destruct v; try reflexivity. by destruct (Hv s). Qed.

Lemma verifyPassword_total (password : string) (v : jsval) (w : world) :
  ∃ b, verifyPassword password v w = (w, Return b).
Proof. destruct v; eexists; reflexivity. Qed.

Lemma salt_of_draw_no_colon (n : nat) : Str.mem ":" (salt_of_draw n) = false.
Proof.
  apply join_empty_no_colon, Forall_fmap, Forall_forall.
  intros b _. apply toString16_no_colon.
Qed.

Lemma wp_getUserByEmail (email : jsval) (Q : option jsobj → world → Prop) E w :
  Q (user_columns_with_hash
       <$> List.find (λ r, holds (sql_eq (JStr (u_email r)) email)) (users (db w))) w →
  wp (getUserByEmail email) Q E w.
Proof. done. Qed.

Lemma wp_getUserById (userId : jsval) (Q : option jsobj → world → Prop) E w :
  Q (user_columns
       <$> List.find (λ r, holds (sql_eq (JNum (u_id r)) userId)) (users (db w))) w →
  wp (getUserById userId) Q E w.
Proof. done. Qed.

Lemma wp_verifyPassword (password stored : string) (Q : bool → world → Prop) E w :
  Q (verifies password stored) w →
  wp (verifyPassword password (JStr stored)) Q E w.
Proof. done. Qed.

Lemma wp_hashPassword (password : string) (Q : string → world → Prop) E w :
  Q (credential password (salt_of_draw (draws w))) (set_draws w (S (draws w))) →
  wp (hashPassword password) Q E w.
Proof. done. Qed.

Lemma wp_createUser (email passwordHash fullName : string)
    (Q : Z → world → Prop) E w :
  let rowid := next_rowid (db w) "users" (u_id <$> users (db w)) in
  (existsb (λ r, bool_decide (u_email r = email)) (users (db w)) = true →
   E (Error "UNIQUE constraint failed: users.email") w) →
  (existsb (λ r, bool_decide (u_email r = email)) (users (db w)) = false →
   Q rowid
     (set_db (set_ticks w (S (ticks w)))
        (set_sequence
           (set_users (db w)
              (users (db w)
                 ++ [{| u_id := rowid; u_email := email;
                        u_password_hash := passwordHash;
                        u_full_name := fullName;
                        u_created_at := sql_time (ticks w) |}]))
           "users" rowid))) →
  wp (createUser email passwordHash fullName) Q E w.
Proof.
  intros rowid Hdup Hnew. unfold wp, createUser, bind, gets. cbn.
  destruct (existsb _ _); [by apply Hdup | by apply Hnew].
Qed.

Lemma wp_createOrUpdateProfile (userId : Z) (profileData : profile_data)
    (Q : unit → world → Prop) E w :
  (∀ d', users d' = users (db w) → Q tt (set_db w d')) →
  wp (createOrUpdateProfile userId profileData) Q E w.
Proof.
  intros HQ. unfold wp, createOrUpdateProfile, bind, gets. cbn.
  destruct (List.find _ _); by apply HQ.
Qed.

Lemma wp_createActivity (userId : Z) (activityData : activity_data)
    (Q : Z → world → Prop) E w :
  (∀ d' rowid, users d' = users (db w) →
               Q rowid (set_db (set_ticks w (S (ticks w))) d')) →
  wp (createActivity userId activityData) Q E w.
Proof. intros HQ. by apply HQ. Qed.

Lemma wp_createActivities (userId : Z) (activities : list activity_data)
    (Q : unit → world → Prop) E w :
  (∀ d' n, users d' = users (db w) → Q tt (set_db (set_ticks w n) d')) →
  wp (createActivities userId activities) Q E w.
Proof.
  revert w. induction activities as [|activity rest IH]; intros w HQ.
  - apply wp_ret. specialize (HQ (db w) (ticks w) eq_refl). by destruct w.
  - cbn [createActivities]. apply wp_bind, wp_createActivity.
    intros d' rowid Hd'. apply IH. intros d'' n Hd''.
    apply (HQ d'' n). by rewrite Hd''.
Qed.

Lemma wp_createSession (user : option jsobj) (Q : unit → world → Prop) E w :
  Q tt (set_currentUser
          (set_asyncStorage (set_ticks w (S (ticks w)))
             (<[SESSION_KEY := {| session_user := user;
                                  session_timestamp := iso_time (ticks w) |}]>
                (asyncStorage w)))
          user) →
  wp (createSession user) Q E w.
Proof. done. Qed.

End Methods.

(** ** C1: the password policy at registration *)

Lemma validatePassword_always_valid (password : string) :
  validatePassword password = {| isValid := true; errors := [] |}.
Proof. reflexivity. Qed.

(** C1 (the code departs from the claim).  [register] should refuse a
    password that breaks the policy and create no user.  The password ["x"]
    breaks it, and registration on the empty store returns a user and leaves
    one row in [users]: [validatePassword] reports every password valid. *)
Theorem register_accepts_weak_password :
  meets_policy "x" = false
  ∧ ∃ w user,
      @register demo_platform "alice@test.com" "x" "Alice A" (boot empty_db)
      = (w, Return (Some user))
      ∧ (λ r, (u_id r, u_email r)) <$> users (db w) = [(1, "alice@test.com")].
Proof.
  split; [reflexivity|]. eexists _, _. split; vm_compute; reflexivity.
Qed.

(** ** C2: deleteActivity *)

(** No row satisfies [id = ?] when nothing is bound to [?]: the statement
    updates no row, whatever [activityId] is. *)
Lemma deleteActivity_no_effect (activityId : Z) (w : world) :
  deleteActivity activityId w = (w, Return tt).
Proof.
  unfold deleteActivity, modify_db, modify.
  assert (Hsame : ((λ r, if holds (sql_eq (JNum (a_id r)) (param [] 0))
                         then deactivate r else r) <$> fitness_activities (db w))
                  = fitness_activities (db w)).
  { rewrite <- (list_fmap_id (fitness_activities (db w))) at 2.
    apply list_fmap_ext. intros i r _.
    change (param [] 0) with JNull. by rewrite holds_sql_eq_null. }
  by rewrite Hsame, set_fitness_activities_same, set_db_same.
Qed.

(** C2 (the code departs from the claim).  [deleteActivity(a)] should set
    [is_active] to 0 on the activity whose id is [a].  On a store whose only
    activity has id 1 and is active, [deleteActivity(1)] returns and the
    activity is still active: the statement is sent with no parameter bound,
    so its [WHERE id = ?] keeps no row. *)
Theorem deleteActivity_keeps_activity_active :
  eval (deleteActivity 1) (boot one_activity_db) = Return tt
  ∧ (λ r, (a_id r, a_is_active r))
      <$> fitness_activities (db (exec (deleteActivity 1) (boot one_activity_db)))
    = [(1, 1)].
Proof.
  unfold eval, exec. rewrite deleteActivity_no_effect. by split.
Qed.

(** ** C3: logActivity twice *)

Section Logging.

Context `{Platform}.

(** The row [logActivity] writes and the table it leaves. *)
Lemma logActivity_eq (userId activityId : Z) (date : string)
    (completed : bool) (actualValue : option Z) (notes : option string)
    (w : world) :
  ∃ w' rowid logged_at,
    logActivity userId activityId date completed actualValue notes w
    = (w', Return tt)
    ∧ activity_logs (db w')
      = List.filter (λ r, negb (bool_decide (l_activity_id r = activityId)
                                && bool_decide (l_log_date r = date)))
                    (activity_logs (db w))
        ++ [{| l_id := rowid; l_activity_id := activityId;
               l_user_id := userId;
               l_completed := if completed then 1 else 0;
               l_actual_value := actualValue; l_notes := notes;
               l_log_date := date; l_logged_at := logged_at |}].
Proof.
  eexists _, _, _. split; [reflexivity|]. cbn. f_equal.
  apply List_filter_ext_all. intros r.
  repeat case_bool_decide; simpl; congruence.
Qed.

(** C3.  Two calls of [logActivity] in succession for the same activity and
    date, with any users and any values, both return, and leave exactly one
    row for that activity and date; its [completed], [actual_value] and
    [notes] are those of the second call. *)
Theorem logActivity_twice_one_row (u1 u2 activityId : Z) (date : string)
    (c1 c2 : bool) (v1 v2 : option Z) (n1 n2 : option string) (w : world) :
  let w1 := exec (logActivity u1 activityId date c1 v1 n1) w in
  let w2 := exec (logActivity u2 activityId date c2 v2 n2) w1 in
  eval (logActivity u1 activityId date c1 v1 n1) w = Return tt
  ∧ eval (logActivity u2 activityId date c2 v2 n2) w1 = Return tt
  ∧ ∃ row, logs_for activityId date (db w2) = [row]
         ∧ l_completed row = (if c2 then 1 else 0)
         ∧ l_actual_value row = v2
         ∧ l_notes row = n2.
Proof.
  intros w1 w2. subst w2 w1. unfold exec, eval.
  destruct (logActivity_eq u1 activityId date c1 v1 n1 w)
    as (w1 & id1 & t1 & -> & Hlogs1). cbn [fst snd].
  destruct (logActivity_eq u2 activityId date c2 v2 n2 w1)
    as (w2 & id2 & t2 & -> & Hlogs2). cbn [fst snd].
  split; [done|]. split; [done|].
  exists {| l_id := id2; l_activity_id := activityId; l_user_id := u2;
            l_completed := if c2 then 1 else 0; l_actual_value := v2;
            l_notes := n2; l_log_date := date; l_logged_at := t2 |}.
  split; [|done].
  unfold logs_for. rewrite Hlogs2, Hlogs1, !List.filter_app. cbn.
  rewrite !bool_decide_eq_true_2 by done. cbn.
  rewrite List_filter_nil; [done|].
  intros r [_ Hr]%elem_of_List_filter. by apply negb_true_iff in Hr.
Qed.

End Logging.

(** ** C4 and C5: getActivityStats *)

Lemma left_join_ext (on on' : activity_row → log_row → bool) fas als :
  (∀ fa al, on fa al = on' fa al) → left_join on fas als = left_join on' fas als.
Proof.
  intros Hon. unfold left_join.
  induction fas as [|fa fas IH]; [done|].
  rewrite !bind_cons, IH. f_equal.
  by rewrite (List_filter_ext_all (on fa) (on' fa)).
Qed.

Lemma getActivityStats_eq (userId : Z) (startDate endDate : string) (w : world) :
  getActivityStats userId startDate endDate w
  = (w, Return (omap aggregate
       (group_by_id
          (List.filter
             (λ jr, bool_decide (a_user_id (fst jr) = userId)
                    && bool_decide (a_is_active (fst jr) = 1))
             (left_join (λ fa al, bool_decide (a_id fa = l_activity_id al)
                                  && between startDate endDate (l_log_date al))
                        (fitness_activities (db w)) (activity_logs (db w))))))).
Proof.
  unfold getActivityStats, bind, gets, ret.
  rewrite (left_join_ext _
             (λ fa al, bool_decide (a_id fa = l_activity_id al)
                       && between startDate endDate (l_log_date al)))
    by (intros fa al; by rewrite holds_sql_eq_num).
  do 4 f_equal.
  apply List_filter_ext_all. intros jr.
  change (param _ 2) with (JNum userId). by rewrite !holds_sql_eq_num.
Qed.

Lemma avg_times_100_none_completed (rows : nat) :
  avg_times_100 0 (S rows) = Some 0%Q.
Proof. reflexivity. Qed.

Lemma aggregate_Some (g : list (activity_row * option log_row)) (row : stat_row) :
  aggregate g = Some row →
  ∃ fa ol g', g = (fa, ol) :: g'
    ∧ st_id row = a_id fa
    ∧ total_count row = Z.of_nat (List.length g)
    ∧ completion_rate row
      = avg_times_100
          (List.length (List.filter (λ jr, completed_is_1 (snd jr)) g))
          (List.length g).
Proof.
  destruct g as [|[fa ol] g']; [done|]. intros [= <-]. by exists fa, ol, g'.
Qed.

(** [COUNT( * )] counts the rows of a group, and a group has a row: no
    activity is ever reported with [total_count = 0]. *)
Lemma getActivityStats_total_count_positive
    (userId : Z) (startDate endDate : string) (w : world) :
  ∃ rows, getActivityStats userId startDate endDate w = (w, Return rows)
        ∧ Forall (λ row, 1 ≤ total_count row) rows.
Proof.
  eexists. split; [apply getActivityStats_eq|].
  apply Forall_forall. intros row (g & _ & Hg)%list_elem_of_omap.
  destruct g as [|[fa al] g]; cbn in Hg; [done|].
  injection Hg as <-. cbn [total_count]. lia.
Qed.

(** C4 (the code departs from the claim).  An active activity with no log in
    the range should be reported with [total_count = 0].  On a store whose
    only activity is active, belongs to user 1 and has no log at all,
    [getActivityStats] reports it with [total_count = 1]: the [LEFT JOIN]
    keeps one row for the activity, with the log's columns [NULL], and
    [COUNT( * )] counts that row, where the sibling [completed_count] counts
    none. *)
Theorem getActivityStats_counts_unlogged_activity :
  activity_logs one_activity_db = []
  ∧ eval (getActivityStats 1 "2024-01-01" "2024-01-31") (boot one_activity_db)
    = Return [{| st_id := 1; st_name := "Cardio"; st_category := Some "exercise";
                 completed_count := 0; total_count := 1;
                 completion_rate := Some 0%Q |}].
Proof. split; reflexivity. Qed.

(** C5.  For every user and date range, and every activity with no log row
    in the range, [getActivityStats] returns without throwing; every row of
    the result that reports the activity has [completion_rate = 0]; and the
    result does report the activity when it is an active activity of the
    user. *)
Theorem getActivityStats_rate_zero_without_logs
    (userId : Z) (startDate endDate : string) (w : world) (fa : activity_row) :
  fa ∈ fitness_activities (db w) →
  (∀ al, al ∈ activity_logs (db w) → l_activity_id al = a_id fa →
         between startDate endDate (l_log_date al) = false) →
  ∃ rows, getActivityStats userId startDate endDate w = (w, Return rows)
        ∧ (∀ row, row ∈ rows → st_id row = a_id fa →
                  completion_rate row = Some 0%Q)
        ∧ (a_user_id fa = userId → a_is_active fa = 1 →
           ∃ row, row ∈ rows ∧ st_id row = a_id fa).
Proof.
  intros Hfa Hnolog.
  eexists. split; [apply getActivityStats_eq|].
  set (on := λ (fa : activity_row) (al : log_row),
         bool_decide (a_id fa = l_activity_id al)
         && between startDate endDate (l_log_date al)).
  set (joined := left_join on _ _).
  set (kept := List.filter _ joined).
  (* every joined row of this id carries no log *)
  assert (Hnull : ∀ fa' ol, (fa', ol) ∈ joined → a_id fa' = a_id fa → ol = None).
  { intros fa' ol Hin Hid. unfold joined, left_join in Hin.
    apply list_elem_of_bind in Hin as (fa0 & Hin & _).
    destruct (List.filter (on fa0) (activity_logs (db w))) as [|al0 m] eqn:Hm.
    - apply list_elem_of_singleton in Hin. congruence.
    - rewrite <- Hm in Hin.
      apply list_elem_of_fmap in Hin as (al & [= -> ->] & Hal).
      apply elem_of_List_filter in Hal as [Hal Hon].
      unfold on in Hon. apply andb_true_iff in Hon as [Heq Hrange].
      apply bool_decide_eq_true in Heq.
      rewrite (Hnolog al Hal) in Hrange by congruence. done. }
  split.
  - (* every row reported for it has rate 0 *)
    intros row (g & Hg & Hrow)%list_elem_of_omap Hid.
    apply aggregate_Some in Hrow as (fa0 & ol0 & g' & Eg & Hst & _ & ->).
    unfold group_by_id in Hg.
    apply list_elem_of_fmap in Hg as (k & Hgk & _).
    assert (Hall : ∀ fa' ol, (fa', ol) ∈ g → a_id fa' = k ∧ (fa', ol) ∈ joined).
    { intros fa' ol. rewrite Hgk.
      intros [[Hin _]%elem_of_List_filter Hk]%elem_of_List_filter.
      cbn in Hk. by apply Z.eqb_eq in Hk. }
    assert (Hk : k = a_id fa).
    { destruct (Hall fa0 ol0) as [<- _]; [rewrite Eg; left | congruence]. }
    rewrite (List_filter_nil (λ jr, completed_is_1 (snd jr))).
    + rewrite Eg. apply avg_times_100_none_completed.
    + intros [fa' ol] Hin. destruct (Hall fa' ol Hin) as [Hid' Hjoined].
      rewrite (Hnull fa' ol Hjoined) by congruence. done.
  - (* an active activity of the user is in the rows kept, so its group is
       reported *)
    intros Huser Hactive.
    assert (Hkept : (fa, None) ∈ kept).
    { apply elem_of_List_filter. split.
      - unfold joined, left_join. apply list_elem_of_bind. exists fa.
        split; [|done]. rewrite List_filter_nil; [by left|].
        intros al Hal. unfold on.
        destruct (bool_decide (a_id fa = l_activity_id al)) eqn:Heq; [|done].
        apply bool_decide_eq_true in Heq. cbn. by apply Hnolog.
      - cbn. by rewrite !bool_decide_eq_true_2. }
    set (g := List.filter (λ jr, a_id (fst jr) =? a_id fa) kept).
    assert (Hg : (fa, None) ∈ g).
    { apply elem_of_List_filter. split; [done|]. cbn. apply Z.eqb_refl. }
    destruct g as [|[fa0 ol0] g'] eqn:Eg; [by apply elem_of_nil in Hg|].
    assert (Hhead : (fa0, ol0) ∈ List.filter (λ jr, a_id (fst jr) =? a_id fa) kept).
    { fold g. rewrite Eg. left. }
    apply elem_of_List_filter in Hhead as [_ Hid]. cbn in Hid.
    apply Z.eqb_eq in Hid.
    eexists. split.
    + apply list_elem_of_omap. exists ((fa0, ol0) :: g'). split; [|reflexivity].
      unfold group_by_id. rewrite <- Eg. unfold g.
      apply (list_elem_of_fmap_2
               (λ k, List.filter (λ jr, a_id (fst jr) =? k) kept)).
      apply elem_of_remove_dups.
      by apply (list_elem_of_fmap_2 (λ jr, a_id (fst jr)) kept (fa, None)).
    + done.
Qed.

Lemma getActivityStats_rate_zero_without_logs_witness :
  ∃ rows,
    getActivityStats 1 "2024-01-01" "2024-01-31" (boot logged_in_2023_db)
    = (boot logged_in_2023_db, Return rows)
    ∧ (∀ row, row ∈ rows → st_id row = 1 → completion_rate row = Some 0%Q)
    ∧ ∃ row, row ∈ rows ∧ st_id row = 1.
Proof.
  destruct (getActivityStats_rate_zero_without_logs
              1 "2024-01-01" "2024-01-31" (boot logged_in_2023_db)
              {| a_id := 1; a_user_id := 1; a_name := "Cardio";
                 a_description := None; a_icon := None;
                 a_target_value := Some 30; a_target_unit := Some "minutes";
                 a_category := Some "exercise"; a_is_active := 1;
                 a_created_at := "2024-01-01 00:00:00" |})
    as (rows & Hrows & Hzero & Hreported).
  - by left.
  - intros al Hal _. cbn in Hal. apply list_elem_of_singleton in Hal.
    subst al. reflexivity.
  - exists rows. split; [exact Hrows|]. split; [exact Hzero|].
    apply Hreported; reflexivity.
Defined.

(** ** C6: register, then login *)

Section RegisterLogin.

Context `{Platform}.

Lemma register_registered (email password fullName : string) (w : world) :
  wp (register email password fullName) (registered email password w)
     (λ _ _, True) w.
Proof.
  unfold register. apply wp_rethrow.
  apply wp_bind, wp_when_throw; [done|]. intros _.
  apply wp_bind, wp_when_throw; [done|]. intros _.
  apply wp_bind, wp_when_throw; [done|]. intros _.
  apply wp_bind, wp_getUserByEmail.
  apply wp_bind, wp_when_throw; [done|]. intros Hfresh.
  apply bool_decide_eq_false in Hfresh.
  destruct (List.find _ (users (db w))) as [existing|] eqn:Hfind;
    [by destruct Hfresh|]. clear Hfresh.
  apply wp_bind, wp_hashPassword.
  apply wp_bind, wp_createUser; [done|]. intros _.
  apply wp_bind, wp_createOrUpdateProfile. intros d1 Hd1.
  apply wp_bind, wp_createActivities. intros d2 n Hd2.
  apply wp_bind, wp_getUserById.
  apply wp_bind, wp_createSession. apply wp_ret.
  unfold registered.
  cbn [users db set_currentUser set_asyncStorage set_ticks set_db set_draws
       set_sequence set_users] in Hd1, Hd2 |- *.
  set (rowid := next_rowid (db w) "users" (u_id <$> users (db w))) in *.
  assert (Hlt : ∀ r, r ∈ users (db w) → u_id r < rowid).
  { intros r Hr. apply next_rowid_fresh. by apply list_elem_of_fmap_2. }
  eexists _, (salt_of_draw (draws w)).
  split; [exact Hfind|]. split; [by rewrite Hd2, Hd1|].
  split; [exact Hlt|]. split; [reflexivity|]. split; [reflexivity|].
  split; [apply salt_of_draw_no_colon|].
  rewrite Hd2, Hd1, find_app_None_l.
  - cbn. by rewrite bool_decide_eq_true_2.
  - apply find_None_iff. intros r Hr. rewrite holds_sql_eq_num.
    apply bool_decide_eq_false. specialize (Hlt r Hr). lia.
Qed.

Lemma verifies_credential (password salt : string) :
  hex_string (sha256_hex (String.append password salt)) = true →
  Str.mem ":" salt = false →
  verifies password (credential password salt) = true.
Proof.
  intros Hhex%hex_string_no_colon Hsalt. unfold verifies, credential.
  rewrite append_cons, append_nil_l.
  rewrite (split_sep _ _ _ Hsalt), (split_no_sep _ _ Hhex). cbn.
  by apply bool_decide_eq_true_2.
Qed.

Lemma login_registered (email password : string) (w w1 : world)
    (row : user_row) :
  List.find (λ r, holds (sql_eq (JStr (u_email r)) (JStr (Str.toLowerCase email))))
            (users (db w)) = None →
  users (db w1) = users (db w) ++ [row] →
  u_email row = Str.toLowerCase email →
  verifies password (u_password_hash row) = true →
  wp (login email password)
     (λ user _, user = delete "password_hash" (user_columns_with_hash row))
     (λ _ _, False) w1.
Proof.
  intros Hfind Husers Hemail Hverifies.
  unfold login. apply wp_rethrow.
  apply wp_bind, wp_getUserByEmail.
  rewrite Husers, (find_app_None_l _ _ _ Hfind). cbn [List.find].
  rewrite holds_sql_eq_str, bool_decide_eq_true_2 by done. cbn [fmap option_fmap option_map].
  rewrite prop_password_hash.
  apply wp_bind, wp_verifyPassword. rewrite Hverifies.
  apply wp_bind, wp_when_throw; [done|]. intros _.
  apply wp_bind, wp_createSession. by apply wp_ret.
Qed.

(** C6.  On a platform whose digest is written in hexadecimal: whenever
    [register] returns, it returns a user object with an id, and [login]
    with the same email and password, run next, returns a user object with
    the same id. *)
Theorem register_then_login (email password fullName : string)
    (w w1 : world) (registered_user : option jsobj) :
  (∀ s, hex_string (sha256_hex s) = true) →
  register email password fullName w = (w1, Return registered_user) →
  ∃ user userId w2 logged_in,
    registered_user = Some user
    ∧ user !! "id" = Some (JNum userId)
    ∧ login email password w1 = (w2, Return logged_in)
    ∧ logged_in !! "id" = Some (JNum userId).
Proof.
  intros Hhex Hregister.
  destruct (wp_returned _ _ _ _ _ _ Hregister
              (register_registered email password fullName w))
    as (row & salt & Hfind & Husers & _ & Hemail & Hhash & Hsalt & ->).
  destruct (wp_returns _ _ _
              (login_registered email password w w1 row Hfind Husers Hemail
                 ltac:(rewrite Hhash; by apply verifies_credential)))
    as (w2 & logged_in & Hlogin & ->).
  exists (user_columns row), (u_id row), w2,
         (delete "password_hash" (user_columns_with_hash row)).
  split; [done|]. split; [apply lookup_user_columns_id|].
  split; [done|]. apply lookup_without_password_id.
Qed.

End RegisterLogin.

Lemma register_then_login_witness :
  ∃ w1 registered_user user userId w2 logged_in,
    @register demo_platform "Alice@Test.com" "Passw0rd!" "Alice A" (boot empty_db)
    = (w1, Return registered_user)
    ∧ registered_user = Some user
    ∧ user !! "id" = Some (JNum userId)
    ∧ @login demo_platform "Alice@Test.com" "Passw0rd!" w1 = (w2, Return logged_in)
    ∧ logged_in !! "id" = Some (JNum userId).
Proof.
  destruct (@register demo_platform "Alice@Test.com" "Passw0rd!" "Alice A"
              (boot empty_db)) as [w1 [registered_user|e]] eqn:Hregister.
  - destruct (@register_then_login demo_platform _ _ _ _ _ _
                demo_digest_is_hex Hregister)
      as (user & userId & w2 & logged_in & Huser & Hid & Hlogin & Hid').
    exists w1, registered_user, user, userId, w2, logged_in.
    split; [reflexivity|]. split; [exact Huser|]. split; [exact Hid|].
    split; [exact Hlogin | exact Hid'].
  - vm_compute in Hregister. discriminate Hregister.
Defined.

(** ** C7: the failures of login *)

Section LoginFailures.

Context `{Platform}.

(** C7.  [login] throws [Error('Invalid email or password')] when no user
    has the lower-cased email, and throws an error with the same message
    when a user has it and [verifyPassword] answers false; either way the
    world is as it was. *)
Theorem login_failures_same_message (email password : string) (w : world) :
  (eval (getUserByEmail (JStr (Str.toLowerCase email))) w = Return None →
   login email password w = (w, Throw (Error "Invalid email or password")))
  ∧ (∀ user,
       eval (getUserByEmail (JStr (Str.toLowerCase email))) w = Return (Some user) →
       eval (verifyPassword password (prop user "password_hash")) w = Return false →
       login email password w = (w, Throw (Error "Invalid email or password"))).
Proof.
  unfold login. rewrite try_catch_rethrow. unfold eval.
  erewrite bind_Return by apply getUserByEmail_eq.
  rewrite getUserByEmail_eq. cbn [snd].
  generalize (user_columns_with_hash
                <$> List.find (λ r, holds (sql_eq (JStr (u_email r))
                                                  (JStr (Str.toLowerCase email))))
                              (users (db w))).
  intros found. split.
  - by intros [= ->].
  - intros user [= ->] Hverify.
    destruct (verifyPassword_total password (prop user "password_hash") w)
      as [b Hb].
    rewrite Hb in Hverify. cbn in Hverify. injection Hverify as ->.
    erewrite bind_Return by exact Hb. reflexivity.
Qed.

End LoginFailures.

Lemma login_failures_same_message_witness :
  @login demo_platform "bob@test.com" "Passw0rd!" (boot one_activity_db)
  = (boot one_activity_db, Throw (Error "Invalid email or password"))
  ∧ @login demo_platform "Alice@Test.com" "passw0rd!" (boot one_activity_db)
    = (boot one_activity_db, Throw (Error "Invalid email or password")).
Proof.
  split.
  - apply (proj1 (@login_failures_same_message demo_platform
                    "bob@test.com" "Passw0rd!" (boot one_activity_db))).
    vm_compute. reflexivity.
  - eapply (proj2 (@login_failures_same_message demo_platform
                     "Alice@Test.com" "passw0rd!" (boot one_activity_db))).
    + vm_compute. reflexivity.
    + vm_compute. reflexivity.
Defined.

(** ** C8: the session never holds the password hash *)

Lemma no_password_hash_user_columns (found : option user_row) :
  no_password_hash (user_columns <$> found).
Proof.
  intros u Hu. destruct found as [r|]; [|done].
  injection Hu as <-. apply lookup_user_columns_password_hash.
Qed.

Lemma no_password_hash_delete (user : jsobj) :
  no_password_hash (Some (delete "password_hash" user)).
Proof. intros u [= <-]. apply lookup_delete_eq. Qed.

Lemma session_clean_created (w : world) (user : option jsobj)
    (timestamp : string) :
  no_password_hash user →
  session_clean
    (set_currentUser
       (set_asyncStorage w
          (<[SESSION_KEY := {| session_user := user;
                               session_timestamp := timestamp |}]>
             (asyncStorage w)))
       user).
Proof.
  intros Huser. split; [|exact Huser]. cbn. intros s.
  rewrite lookup_insert_eq. by intros [= <-].
Qed.

Lemma session_clean_boot (d : database) : session_clean (boot d).
Proof. split; [|done]. cbn. intros s. by rewrite lookup_empty. Qed.

Section Session.

Context `{Platform}.

Lemma register_session_clean (email password fullName : string) (w : world) :
  session_clean w →
  wp (register email password fullName)
     (λ user w', session_clean w' ∧ no_password_hash user)
     (λ _ w', session_clean w') w.
Proof.
  intros Hclean. unfold register. apply wp_rethrow.
  apply wp_bind, wp_when_throw; [done|]. intros _.
  apply wp_bind, wp_when_throw; [done|]. intros _.
  apply wp_bind, wp_when_throw; [done|]. intros _.
  apply wp_bind, wp_getUserByEmail.
  apply wp_bind, wp_when_throw; [done|]. intros _.
  apply wp_bind, wp_hashPassword.
  apply wp_bind, wp_createUser; [done|]. intros _.
  apply wp_bind, wp_createOrUpdateProfile. intros d1 _.
  apply wp_bind, wp_createActivities. intros d2 n _.
  apply wp_bind, wp_getUserById.
  apply wp_bind, wp_createSession. apply wp_ret.
  split; [|apply no_password_hash_user_columns].
  apply (session_clean_created
           (set_ticks (set_db (set_draws w (S (draws w))) d2) (S n))).
  apply no_password_hash_user_columns.
Qed.

Lemma login_session_clean (email password : string) (w : world) :
  session_clean w →
  wp (login email password)
     (λ user w', session_clean w' ∧ no_password_hash (Some user))
     (λ _ w', session_clean w') w.
Proof.
  intros Hclean. unfold login. apply wp_rethrow.
  apply wp_bind, wp_getUserByEmail.
  destruct (List.find _ (users (db w))) as [row|]; [|done].
  cbn [fmap option_fmap option_map]. rewrite prop_password_hash.
  apply wp_bind, wp_verifyPassword.
  apply wp_bind, wp_when_throw; [done|]. intros _.
  apply wp_bind, wp_createSession. apply wp_ret.
  split; [|apply no_password_hash_delete].
  apply (session_clean_created (set_ticks w (S (ticks w)))).
  apply no_password_hash_delete.
Qed.

Lemma getCurrentUser_session_clean (w : world) :
  session_clean w →
  wp getCurrentUser
     (λ user w', session_clean w' ∧ no_password_hash user)
     (λ _ w', session_clean w') w.
Proof.
  intros [Hstored Hcurrent]. unfold getCurrentUser.
  apply wp_try_catch, wp_bind, wp_gets.
  destruct (asyncStorage w !! SESSION_KEY) as [s|] eqn:Hs.
  - apply wp_bind, wp_modify, wp_ret.
    specialize (Hstored s eq_refl). split; [|done].
    split; [|done]. cbn. intros s'. rewrite Hs. by intros [= <-].
  - apply wp_ret. split; [|done]. split; [|done].
    intros s. rewrite Hs. done.
Qed.

Lemma logout_session_clean (w : world) :
  wp logout (λ _ w', session_clean w') (λ _ w', session_clean w') w.
Proof.
  unfold logout. apply wp_rethrow, wp_bind, wp_modify, wp_modify.
  split; [|done]. cbn. intros s. by rewrite lookup_delete_eq.
Qed.

Lemma run_session_clean (op : operation) (w : world) :
  session_clean w →
  session_clean (fst (run op w)) ∧ no_password_hash (snd (run op w)).
Proof.
  intros Hclean. destruct op as [email password fullName|email password| |]; cbn.
  - pose proof (register_session_clean email password fullName w Hclean) as Hwp.
    unfold wp in Hwp.
    by destruct (register email password fullName w) as [w' [user|e]].
  - pose proof (login_session_clean email password w Hclean) as Hwp.
    unfold wp in Hwp.
    by destruct (login email password w) as [w' [user|e]].
  - pose proof (getCurrentUser_session_clean w Hclean) as Hwp.
    unfold wp in Hwp. by destruct (getCurrentUser w) as [w' [user|e]].
  - split; [exact (logout_session_clean w) | done].
Qed.

(** C8.  In every world reached from the start of the application by
    [register], [login], [getCurrentUser] and [logout] (and by starting the
    application again), whatever their arguments and whether they return
    or throw, the session kept in AsyncStorage and [currentUser] have no
    [password_hash] property, and neither has the user object any of these
    operations hands back next. *)
Theorem reachable_session_clean (w : world) :
  reachable w →
  session_clean w ∧ ∀ op, no_password_hash (snd (run op w)).
Proof.
  intros Hreach.
  assert (Hclean : session_clean w).
  { induction Hreach as [d|op w _ IH|w _ [IH _]].
    - apply session_clean_boot.
    - by apply run_session_clean.
    - by split. }
  split; [done|]. intros op. by apply run_session_clean.
Qed.

End Session.

Lemma reachable_session_clean_witness :
  let w := fst (@run demo_platform (Login "Alice@Test.com" "Passw0rd!")
             (fst (@run demo_platform
                     (Register "Alice@Test.com" "Passw0rd!" "Alice A")
                     (boot empty_db)))) in
  session_clean w ∧ ∀ op, no_password_hash (snd (@run demo_platform op w)).
Proof.
  intros w. apply (@reachable_session_clean demo_platform w).
  apply reachable_run, reachable_run, reachable_boot.
Defined.

(** ** C9: verifyPassword on malformed credentials *)

Section MalformedCredentials.

Context `{Platform}.

(** C9, amended.  On a malformed stored string [verifyPassword] does not
    throw: it returns a boolean and leaves the world alone.  The boolean is
    false when the string has no delimiter.  When the string has more than
    one delimiter, only its first two pieces are read: the boolean tells
    whether the second piece is the digest of the password followed by the
    first piece. *)
Theorem verifyPassword_malformed (password stored : string) (w : world) :
  well_formed_credential stored = false →
  ∃ b, verifyPassword password (JStr stored) w = (w, Return b)
     ∧ ((Str.mem ":" stored = false ∧ b = false)
        ∨ ∃ salt digest rest,
            stored = String.append salt
                       (String ":" (String.append digest (String ":" rest)))
            ∧ Str.mem ":" salt = false
            ∧ Str.mem ":" digest = false
            ∧ b = bool_decide (sha256_hex (String.append password salt) = digest)).
Proof.
  intros Hmalformed. exists (verifies password stored).
  split; [apply verifyPassword_string|]. unfold verifies.
  destruct (split_cases ":" stored) as [Hnone|(salt & t & -> & Hsalt)].
  { left. split; [done|]. by rewrite (split_no_sep _ _ Hnone). }
  destruct (split_cases ":" t) as [Hnone|(digest & rest & -> & Hdigest)].
  { unfold well_formed_credential in Hmalformed.
    by rewrite (split_sep _ _ _ Hsalt), (split_no_sep _ _ Hnone) in Hmalformed. }
  right. exists salt, digest, rest. split_and!; [done..|].
  rewrite (split_sep _ _ _ Hsalt), (split_sep _ _ _ Hdigest).
  unfold plus. simpl. repeat case_bool_decide; congruence.
Qed.

(** The pieces after the second are not read: a credential [hashPassword]
    made still verifies when [:] and anything else is written after it. *)
Lemma verifyPassword_ignores_trailing_pieces (password salt rest : string)
    (w : world) :
  hex_string (sha256_hex (String.append password salt)) = true →
  Str.mem ":" salt = false →
  verifyPassword password
    (JStr (String.append (credential password salt) (String ":" rest))) w
  = (w, Return true).
Proof.
  intros Hhex%hex_string_no_colon Hsalt.
  rewrite verifyPassword_string. do 2 f_equal.
  unfold verifies, credential.
  rewrite append_assoc, (append_cons ":" EmptyString), append_nil_l, append_cons.
  rewrite (split_sep _ _ _ Hsalt), (split_sep _ _ _ Hhex). cbn.
  by apply bool_decide_eq_true_2.
Qed.

End MalformedCredentials.

Lemma verifyPassword_malformed_witness :
  ∃ b, @verifyPassword demo_platform "Passw0rd!" (JStr "not-a-credential")
         (boot empty_db) = (boot empty_db, Return b)
     ∧ ((Str.mem ":" "not-a-credential" = false ∧ b = false)
        ∨ ∃ salt digest rest,
            "not-a-credential"
            = String.append salt
                (String ":" (String.append digest (String ":" rest)))
            ∧ Str.mem ":" salt = false
            ∧ Str.mem ":" digest = false
            ∧ b = bool_decide
                    (@sha256_hex demo_platform (String.append "Passw0rd!" salt)
                     = digest)).
Proof.
  apply (@verifyPassword_malformed demo_platform "Passw0rd!" "not-a-credential"
           (boot empty_db)).
  reflexivity.
Defined.

(** C9, as stated, fails.  The stored string below has two delimiters, so
    it is malformed, and [verifyPassword] accepts the password ["pw"] against
    it: its second piece is the SHA-256 digest of ["pwab"]. *)
Lemma verifyPassword_accepts_malformed :
  well_formed_credential
    "ab:7b57ba164878e3a4532b891ce1d2afeea44f54b3d180a3431a5ae6723f2c202a:zz"
  = false
  ∧ @verifyPassword demo_platform "pw"
      (JStr "ab:7b57ba164878e3a4532b891ce1d2afeea44f54b3d180a3431a5ae6723f2c202a:zz")
      (boot empty_db)
    = (boot empty_db, Return true).
Proof. split; vm_compute; reflexivity. Qed.

(** ** C10: changePassword for an unknown user *)

Section UnknownUser.

Context `{Platform}.

(** C10.  When no row of [users] has the id [userId], [changePassword]
    throws the [TypeError] of reading [email] from [null], not an [Error]
    the service makes, and the world, so every stored [password_hash], is
    as it was. *)
Theorem changePassword_unknown_user (userId : Z)
    (currentPassword newPassword : string) (w : world) :
  (∀ r, r ∈ users (db w) → u_id r ≠ userId) →
  changePassword userId currentPassword newPassword w = (w, Throw TypeError)
  ∧ (∀ message, TypeError ≠ Error message)
  ∧ u_password_hash
      <$> users (db (exec (changePassword userId currentPassword newPassword) w))
    = u_password_hash <$> users (db w).
Proof.
  intros Hnone.
  assert (Hrun : changePassword userId currentPassword newPassword w
                 = (w, Throw TypeError)).
  { unfold changePassword. rewrite try_catch_rethrow.
    erewrite bind_Return by apply (getUserById_unknown _ _ Hnone).
    reflexivity. }
  unfold exec. rewrite Hrun. done.
Qed.

End UnknownUser.

Lemma changePassword_unknown_user_witness :
  @changePassword demo_platform 7 "Passw0rd!" "N3wPassword" (boot one_activity_db)
  = (boot one_activity_db, Throw TypeError)
  ∧ (∀ message, TypeError ≠ Error message)
  ∧ u_password_hash
      <$> users (db (exec (@changePassword demo_platform 7 "Passw0rd!" "N3wPassword")
                          (boot one_activity_db)))
    = u_password_hash <$> users (db (boot one_activity_db)).
Proof.
  apply (@changePassword_unknown_user demo_platform 7 "Passw0rd!" "N3wPassword"
           (boot one_activity_db)).
  intros r Hr. cbn in Hr. apply list_elem_of_singleton in Hr. subst r.
  cbn. lia.
Defined.

(** * Further properties *)

(** ** validateEmail *)

Lemma append_nil_inv (u v : string) :
  String.append u v = EmptyString → u = EmptyString ∧ v = EmptyString.
Proof. destruct u; [done | discriminate]. Qed.

Lemma append_cons_inv (u v : string) (c : ascii) (s : string) :
  String.append u v = String c s →
  (u = EmptyString ∧ v = String c s)
  ∨ ∃ u', u = String c u' ∧ s = String.append u' v.
Proof.
  destruct u as [|d u]; [by left|]. rewrite append_cons.
  intros [= -> <-]. right. by exists u.
Qed.

Lemma nullable_matches (r : Regex.t) :
  Regex.nullable r = true ↔ matches r EmptyString.
Proof.
  split.
  - induction r as [| |p|r IHr s IHs|r IHr s IHs|r IHr]; cbn; try done.
    + intros _. constructor.
    + intros [Hr Hs]%andb_true_iff.
      change EmptyString with (String.append EmptyString EmptyString).
      constructor; auto.
    + intros [Hr|Hs]%orb_true_iff; [apply matches_Alt_l | apply matches_Alt_r]; auto.
    + intros _. constructor.
  - intros Hm. remember EmptyString as s eqn:Hs.
    induction Hm as [|p c Hc|r s' u v Hu IHu Hv IHv|r s' u Hu IHu|r s' u Hu IHu
                     |r|r u v Hu IHu Hv IHv]; cbn; try done.
    + apply append_nil_inv in Hs as [-> ->]. by rewrite IHu, IHv.
    + by rewrite IHu.
    + rewrite IHu by done. apply orb_true_r.
Qed.

Lemma deriv_matches (c : ascii) (r : Regex.t) (s : string) :
  matches (Regex.deriv c r) s ↔ matches r (String c s).
Proof.
  split.
  - revert s. induction r as [| |p|r IHr t IHt|r IHr t IHt|r IHr]; cbn; intros s Hm.
    + inversion Hm.
    + inversion Hm.
    + destruct (p c) eqn:Hc; inversion Hm; subst. by constructor.
    + destruct (Regex.nullable r) eqn:Hn.
      * inversion Hm as [| |r1 s1 u v Hu Hv| ? ? ? Hl | ? ? ? Hr| |]; subst.
        -- inversion Hl as [| |r1 s1 u v Hu Hv| | | |]; subst.
           rewrite <- append_cons. constructor; auto.
        -- change (String c s) with (String.append EmptyString (String c s)).
           constructor; [by apply nullable_matches | auto].
      * inversion Hm as [| |r1 s1 u v Hu Hv| | | |]; subst.
        rewrite <- append_cons. constructor; auto.
    + inversion Hm; subst; [apply matches_Alt_l | apply matches_Alt_r]; auto.
    + inversion Hm as [| |r1 s1 u v Hu Hv| | | |]; subst.
      rewrite <- append_cons. constructor; auto.
  - intros Hm. remember (String c s) as t eqn:Ht. revert s Ht.
    induction Hm as [|p d Hd|r t u v Hu IHu Hv IHv|r t u Hu IHu|r t u Hu IHu
                     |r|r u v Hu IHu Hv IHv]; intros s Ht; cbn.
    + discriminate.
    + injection Ht as -> <-. rewrite Hd. constructor.
    + apply append_cons_inv in Ht as [[-> ->]|(u' & -> & ->)].
      * apply nullable_matches in Hu as ->. apply matches_Alt_r. by apply IHv.
      * destruct (Regex.nullable r).
        -- apply matches_Alt_l. constructor; [by apply IHu | done].
        -- constructor; [by apply IHu | done].
    + apply matches_Alt_l. by apply IHu.
    + apply matches_Alt_r. by apply IHu.
    + discriminate.
    + apply append_cons_inv in Ht as [[-> ->]|(u' & -> & ->)].
      * by apply IHv.
      * constructor; [by apply IHu | done].
Qed.

(** The matcher decides the language of the expression. *)
Lemma test_matches (r : Regex.t) (s : string) :
  Regex.test r s = true ↔ matches r s.
Proof.
  revert r. induction s as [|c s IH]; intros r; cbn.
  - apply nullable_matches.
  - rewrite IH. apply deriv_matches.
Qed.

Lemma matches_Star_Class (p : ascii → bool) (s : string) :
  matches (Regex.Star (Regex.Class p)) s
  ↔ forallb p (String.list_ascii_of_string s) = true.
Proof.
  split.
  - intros Hm. remember (Regex.Star (Regex.Class p)) as r eqn:Hr.
    induction Hm as [| | | | | |r u v Hu _ Hv IHv]; try discriminate; [done|].
    injection Hr as ->. inversion Hu; subst. cbn.
    rewrite append_cons, append_nil_l. cbn. rewrite IHv by done.
    by rewrite andb_true_r.
  - induction s as [|c s IH]; cbn.
    + intros _. constructor.
    + intros [Hc Hs]%andb_true_iff.
      change (String c s) with (String.append (String c EmptyString) s).
      constructor; [by constructor | auto].
Qed.

Lemma email_part_forallb (s : string) :
  email_part s = true
  ↔ s ≠ EmptyString ∧ forallb email_char (String.list_ascii_of_string s) = true.
Proof.
  induction s as [|c s IH]; [split; [done | by intros [? _]]|].
  destruct s as [|d s].
  - cbn. rewrite andb_true_r. split; [done | by intros [_ ?]].
  - change (email_part (String c (String d s)))
      with (email_char c && email_part (String d s)).
    change (forallb email_char (String.list_ascii_of_string (String c (String d s))))
      with (email_char c
            && forallb email_char (String.list_ascii_of_string (String d s))).
    rewrite !andb_true_iff, IH. split.
    + intros [Hc [_ Hs]]. done.
    + intros [_ [Hc Hs]]. done.
Qed.

Lemma matches_Plus_email_char (s : string) :
  matches (Regex.Plus (Regex.Class email_char)) s ↔ email_part s = true.
Proof.
  rewrite email_part_forallb. unfold Regex.Plus. split.
  - intros Hm. inversion Hm as [| |r1 s1 u v Hu Hv| | | |]; subst.
    inversion Hu; subst. apply matches_Star_Class in Hv.
    rewrite append_cons, append_nil_l. cbn. split; [done|].
    by rewrite Hv, andb_true_r.
  - intros [Hne Hall]. destruct s as [|c s]; [done|]. cbn in Hall.
    apply andb_true_iff in Hall as [Hc Hs].
    change (String c s) with (String.append (String c EmptyString) s).
    constructor; [by constructor | by apply matches_Star_Class].
Qed.

Lemma matches_Cat_char (c : ascii) (r : Regex.t) (s : string) :
  matches (Regex.Cat (Regex.Class (Ascii.eqb c)) r) s
  ↔ ∃ t, s = String c t ∧ matches r t.
Proof.
  split.
  - intros Hm. inversion Hm as [| |r1 s1 u v Hu Hv| | | |]; subst.
    inversion Hu as [|p d Hd| | | | |]; subst. apply Ascii.eqb_eq in Hd as <-.
    by exists v.
  - intros (t & -> & Ht).
    change (String c t) with (String.append (String c EmptyString) t).
    constructor; [|done]. constructor. apply Ascii.eqb_refl.
Qed.

(** [validateEmail] accepts exactly the strings made of a local part, an
    [@], a part, a dot and a last part, where each part is a non-empty
    string without white space and without [@] (dots are allowed in the
    parts). *)
Theorem validateEmail_shape (email : string) :
  validateEmail email = true
  ↔ ∃ local left right,
      email = String.append local
                (String "@" (String.append left (String "." right)))
      ∧ email_part local = true
      ∧ email_part left = true
      ∧ email_part right = true.
Proof.
  unfold validateEmail. rewrite test_matches. unfold emailRegex.
  change (λ c, negb (Str.is_space c || Ascii.eqb c "@")) with email_char.
  split.
  - intros Hm. inversion Hm as [| |r1 s1 local rest Hlocal Hrest| | | |]; subst.
    apply matches_Cat_char in Hrest as (rest' & -> & Hrest).
    inversion Hrest as [| |r1 s1 left tail Hleft Htail| | | |]; subst.
    apply matches_Cat_char in Htail as (right & -> & Hright).
    exists local, left, right.
    by rewrite <- !matches_Plus_email_char.
  - intros (local & left & right & -> & Hlocal & Hleft & Hright).
    constructor; [by apply matches_Plus_email_char|].
    apply matches_Cat_char. eexists. split; [done|].
    constructor; [by apply matches_Plus_email_char|].
    apply matches_Cat_char. eexists. split; [done|].
    by apply matches_Plus_email_char.
Qed.

(** ** Invariants of computations *)

Section Keeps.

Context (I : world → Prop).

Lemma keeps_ret {A} (a : A) : keeps I (ret a).
Proof. by intros w Hw. Qed.

Lemma keeps_throw {A} (e : exn) : keeps I (@throw A e).
Proof. by intros w Hw. Qed.

Lemma keeps_gets {A} (f : world → A) : keeps I (gets f).
Proof. by intros w Hw. Qed.

Lemma keeps_bind {A B} (m : M A) (k : A → M B) :
  keeps I m → (∀ a, keeps I (k a)) → keeps I (bind m k).
Proof.
  intros Hm Hk w Hw. apply wp_bind. specialize (Hm w Hw).
  unfold wp in *. destruct (m w) as [w' [a|e]]; [by apply Hk | done].
Qed.

Lemma keeps_try_catch {A} (m : M A) (h : exn → M A) :
  keeps I m → (∀ e, keeps I (h e)) → keeps I (try_catch m h).
Proof.
  intros Hm Hh w Hw. apply wp_try_catch. specialize (Hm w Hw).
  unfold wp in *. destruct (m w) as [w' [a|e]]; [done | by apply Hh].
Qed.

Lemma keeps_when (b : bool) (m : M unit) : keeps I m → keeps I (when b m).
Proof. destruct b; [done | intros _; apply keeps_ret]. Qed.

Lemma keeps_modify (f : world → world) :
  (∀ w, I w → I (f w)) → keeps I (modify f).
Proof. intros Hf w Hw. by apply Hf. Qed.

Lemma keeps_run {A} (m : M A) (w : world) : keeps I m → I w → I (exec m w).
Proof.
  intros Hm Hw. specialize (Hm w Hw). unfold wp, exec in *.
  by destruct (m w) as [w' [a|e]].
Qed.

End Keeps.

(** A computation that leaves the database alone keeps what is true of it. *)
Lemma keeps_db_unchanged {A} (P : database → Prop) (m : M A) :
  (∀ w, db (fst (m w)) = db w) → keeps (λ w, P (db w)) m.
Proof.
  intros Hm w Hw. specialize (Hm w). unfold wp.
  destruct (m w) as [w' [a|e]]; cbn in Hm; by rewrite Hm.
Qed.

(** ** The constraints of the schema *)

Lemma NoDup_snoc {A} (l : list A) (x : A) : NoDup l → x ∉ l → NoDup (l ++ [x]).
Proof.
  intros Hl Hx. apply NoDup_app. split; [done|]. split; [|apply NoDup_singleton].
  intros y Hy ->%list_elem_of_singleton. done.
Qed.

Lemma NoDup_fmap_List_filter {A B} (f : A → B) (p : A → bool) (l : list A) :
  NoDup (f <$> l) → NoDup (f <$> List.filter p l).
Proof.
  induction l as [|x l IH]; [done|]. rewrite fmap_cons, NoDup_cons.
  intros [Hx Hl]. cbn. destruct (p x); [|by apply IH].
  rewrite fmap_cons. apply NoDup_cons. split; [|by apply IH].
  intros (y & Hy & [Hin _]%elem_of_List_filter)%list_elem_of_fmap.
  apply Hx. rewrite Hy. by apply list_elem_of_fmap_2.
Qed.

Lemma fmap_update_same {A B} (f : A → B) (g : A → A) (l : list A) :
  (∀ x, f (g x) = f x) → f <$> (g <$> l) = f <$> l.
Proof.
  intros Hfg. rewrite <- list_fmap_compose. apply list_fmap_ext.
  intros i x _. apply Hfg.
Qed.

Lemma existsb_false_not_elem {A B} `{EqDecision B} (f : A → B) (y : B)
    (l : list A) :
  existsb (λ r, bool_decide (f r = y)) l = false → y ∉ f <$> l.
Proof.
  intros Hex (r & -> & Hr)%list_elem_of_fmap.
  assert (existsb (λ r', bool_decide (f r' = f r)) l = true); [|congruence].
  apply existsb_exists. exists r. split; [by apply list_elem_of_In|].
  by apply bool_decide_eq_true_2.
Qed.

Lemma next_rowid_not_elem (d : database) (table : string) (rowids : list Z) :
  next_rowid d table rowids ∉ rowids.
Proof. intros Hin. pose proof (next_rowid_fresh d table _ _ Hin). lia. Qed.

Lemma next_rowid_not_elem_filter {A} (f : A → Z) (p : A → bool) (l : list A)
    (d : database) (table : string) :
  next_rowid d table (f <$> l) ∉ f <$> List.filter p l.
Proof.
  intros (r & Hr & [Hin _]%elem_of_List_filter)%list_elem_of_fmap.
  apply (next_rowid_not_elem d table (f <$> l)). rewrite Hr.
  by apply list_elem_of_fmap_2.
Qed.

Section Constraints.

Context `{Platform}.

Lemma createUser_keeps_constraints (email passwordHash fullName : string) :
  keeps constrained (createUser email passwordHash fullName).
Proof.
  intros w [Hid Hemail Hpid Hpuser Haid Hlid Hlkey].
  apply wp_createUser; [by intros _|]. intros Hnew.
  split; cbn; try done.
  - rewrite fmap_app. apply NoDup_snoc; [done|]. apply next_rowid_not_elem.
  - rewrite fmap_app. apply NoDup_snoc; [done|].
    by apply existsb_false_not_elem.
Qed.

Lemma createOrUpdateProfile_keeps_constraints (userId : Z)
    (profileData : profile_data) :
  keeps constrained (createOrUpdateProfile userId profileData).
Proof.
  intros w [Hid Hemail Hpid Hpuser Haid Hlid Hlkey].
  unfold wp, createOrUpdateProfile, bind, gets. cbn.
  destruct (List.find _ _) as [existing|] eqn:Hfind; cbn.
  - split; cbn; try done.
    + rewrite fmap_update_same; [done|]. intros r. by case_match.
    + rewrite fmap_update_same; [done|]. intros r. by case_match.
  - split; cbn; try done.
    + rewrite fmap_app. apply NoDup_snoc; [done|]. apply next_rowid_not_elem.
    + rewrite fmap_app. apply NoDup_snoc; [done|].
      intros (r & Hr & Hin)%list_elem_of_fmap.
      pose proof (proj1 (find_None_iff _ _) Hfind r Hin) as Hno.
      cbn in Hno. rewrite <- Hr in Hno.
      by rewrite bool_decide_eq_true_2 in Hno.
Qed.

Lemma createActivity_keeps_constraints (userId : Z)
    (activityData : activity_data) :
  keeps constrained (createActivity userId activityData).
Proof.
  intros w [Hid Hemail Hpid Hpuser Haid Hlid Hlkey].
  split; cbn; try done.
  rewrite fmap_app. apply NoDup_snoc; [done|]. apply next_rowid_not_elem.
Qed.

Lemma createActivities_keeps_constraints (userId : Z)
    (activities : list activity_data) :
  keeps constrained (createActivities userId activities).
Proof.
  induction activities as [|activity rest IH]; [apply keeps_ret|].
  cbn [createActivities]. apply keeps_bind; [|done].
  apply createActivity_keeps_constraints.
Qed.

Lemma updateActivity_keeps_constraints (activityId : Z)
    (activityData : activity_data) :
  keeps constrained (updateActivity activityId activityData).
Proof.
  intros w [Hid Hemail Hpid Hpuser Haid Hlid Hlkey].
  split; cbn; try done.
  rewrite fmap_update_same; [done|]. intros r. by case_match.
Qed.

Lemma deleteActivity_keeps_constraints (activityId : Z) :
  keeps constrained (deleteActivity activityId).
Proof. intros w Hw. unfold wp. by rewrite deleteActivity_no_effect. Qed.

Lemma logActivity_keeps_constraints (userId activityId : Z) (date : string)
    (completed : bool) (actualValue : option Z) (notes : option string) :
  keeps constrained (logActivity userId activityId date completed actualValue notes).
Proof.
  intros w [Hid Hemail Hpid Hpuser Haid Hlid Hlkey].
  unfold logActivity. apply wp_rethrow.
  split; cbn; try done.
  - rewrite fmap_app. apply NoDup_snoc.
    + by apply NoDup_fmap_List_filter.
    + apply next_rowid_not_elem_filter.
  - rewrite fmap_app. apply NoDup_snoc.
    + by apply NoDup_fmap_List_filter.
    + intros (r & Hr & [_ Hkeep]%elem_of_List_filter)%list_elem_of_fmap.
      injection Hr as Ha Hd. rewrite <- Ha, <- Hd in Hkeep.
      cbn in Hkeep. by rewrite !bool_decide_eq_true_2 in Hkeep.
Qed.

Lemma update_password_hash_keeps_constraints (params : list jsval) :
  keeps constrained (update_password_hash params).
Proof.
  intros w [Hid Hemail Hpid Hpuser Haid Hlid Hlkey].
  split; cbn; try done.
  - rewrite fmap_update_same; [done|]. intros r. by case_match.
  - rewrite fmap_update_same; [done|]. intros r. by case_match.
Qed.

Lemma hashPassword_keeps_constraints (password : string) :
  keeps constrained (hashPassword password).
Proof. by apply (keeps_db_unchanged constraints_hold). Qed.

Lemma verifyPassword_keeps_constraints (password : string) (v : jsval) :
  keeps constrained (verifyPassword password v).
Proof. apply (keeps_db_unchanged constraints_hold). intros w. by destruct v. Qed.

Lemma createSession_keeps_constraints (user : option jsobj) :
  keeps constrained (createSession user).
Proof. by apply (keeps_db_unchanged constraints_hold). Qed.

Lemma getUserByEmail_keeps_constraints (email : jsval) :
  keeps constrained (getUserByEmail email).
Proof. by apply (keeps_db_unchanged constraints_hold). Qed.

Lemma getUserById_keeps_constraints (userId : jsval) :
  keeps constrained (getUserById userId).
Proof. by apply (keeps_db_unchanged constraints_hold). Qed.

Lemma member_keeps_constraints (o : option jsobj) (k : string) :
  keeps constrained (member o k).
Proof. destruct o; [apply keeps_ret | apply keeps_throw]. Qed.

(** One step through a method body: the goal is matched by its syntax,
    so that no method is unfolded by unification. *)
Ltac keeps_step :=
  lazymatch goal with
  | |- keeps _ (bind _ _) => apply keeps_bind; [|intros ?]
  | |- keeps _ (ret _) => apply keeps_ret
  | |- keeps _ (throw _) => apply keeps_throw
  | |- keeps _ (when _ _) => apply keeps_when
  | |- keeps _ (getUserByEmail _) => apply getUserByEmail_keeps_constraints
  | |- keeps _ (getUserById _) => apply getUserById_keeps_constraints
  | |- keeps _ (member _ _) => apply member_keeps_constraints
  | |- keeps _ (hashPassword _) => apply hashPassword_keeps_constraints
  | |- keeps _ (verifyPassword _ _) => apply verifyPassword_keeps_constraints
  | |- keeps _ (createUser _ _ _) => apply createUser_keeps_constraints
  | |- keeps _ (createOrUpdateProfile _ _) =>
      apply createOrUpdateProfile_keeps_constraints
  | |- keeps _ (createActivities _ _) =>
      apply createActivities_keeps_constraints
  | |- keeps _ (createSession _) => apply createSession_keeps_constraints
  | |- keeps _ (update_password_hash _) =>
      apply update_password_hash_keeps_constraints
  end.

Lemma register_keeps_constraints (email password fullName : string) :
  keeps constrained (register email password fullName).
Proof.
  unfold register, createDefaultActivities.
  apply keeps_try_catch; [|intros e; apply keeps_throw].
  cbv zeta. repeat keeps_step.
Qed.

Lemma login_keeps_constraints (email password : string) :
  keeps constrained (login email password).
Proof.
  unfold login. apply keeps_try_catch; [|intros e; apply keeps_throw].
  apply keeps_bind; [apply getUserByEmail_keeps_constraints|].
  intros [user|]; [|apply keeps_throw].
  cbv zeta. repeat keeps_step.
Qed.

Lemma changePassword_keeps_constraints (userId : Z)
    (currentPassword newPassword : string) :
  keeps constrained (changePassword userId currentPassword newPassword).
Proof.
  unfold changePassword. apply keeps_try_catch; [|intros e; apply keeps_throw].
  cbv zeta. repeat keeps_step.
Qed.

(** The constraints the schema declares (primary keys, unique email,
    one profile per user, one log per activity and day) hold after every
    operation of the two services when they hold before, whether the
    operation returns or throws. *)
Theorem perform_keeps_constraints (a : action) (w : world) :
  constraints_hold (db w) → constraints_hold (db (perform a w)).
Proof.
  intros Hw. destruct a; cbn [perform];
    apply (keeps_run (λ w, constraints_hold (db w))); try done.
  - apply register_keeps_constraints.
  - apply login_keeps_constraints.
  - by apply (keeps_db_unchanged constraints_hold);
      intros w'; unfold getCurrentUser, try_catch, bind, gets;
      cbn; destruct (asyncStorage w' !! SESSION_KEY).
  - by apply (keeps_db_unchanged constraints_hold).
  - apply changePassword_keeps_constraints.
  - unfold updateProfile.
    apply keeps_try_catch; [|intros e; apply keeps_throw].
    apply createOrUpdateProfile_keeps_constraints.
  - apply createUser_keeps_constraints.
  - apply createActivity_keeps_constraints.
  - apply updateActivity_keeps_constraints.
  - apply deleteActivity_keeps_constraints.
  - apply logActivity_keeps_constraints.
Qed.

End Constraints.

(** The store of the examples meets the constraints. *)
Lemma one_activity_db_constraints : constraints_hold one_activity_db.
Proof.
  split; cbn; first [apply NoDup_nil_2 | apply NoDup_singleton].
Qed.

(** A registration on the store of the examples. *)
Lemma perform_keeps_constraints_witness :
  constraints_hold
    (db (@perform demo_platform (ARegister "bob@test.com" "Passw0rd!" "Bob B")
           (boot one_activity_db))).
Proof.
  apply (@perform_keeps_constraints demo_platform).
  exact one_activity_db_constraints.
Defined.

(** ** register *)

Lemma find_is_Some_iff {A B} `{EqDecision B} (f : A → B) (y : B) (l : list A) :
  is_Some (List.find (λ r, bool_decide (f r = y)) l) ↔ y ∈ (f <$> l).
Proof.
  split.
  - intros [r Hr]. apply find_some in Hr as [Hin Hy].
    apply bool_decide_eq_true in Hy as <-.
    apply list_elem_of_fmap_2. by apply list_elem_of_In.
  - intros (r & -> & Hin)%list_elem_of_fmap.
    destruct (List.find _ l) as [r'|] eqn:Hfind; [done|].
    pose proof (proj1 (find_None_iff _ _) Hfind r Hin) as Hno. cbn in Hno.
    by rewrite bool_decide_eq_true_2 in Hno.
Qed.

Lemma find_ext {A} (p q : A → bool) (l : list A) :
  (∀ x, p x = q x) → List.find p l = List.find q l.
Proof. intros Hpq. induction l as [|x l IH]; cbn; [done|]. by rewrite Hpq, IH. Qed.

Lemma find_fmap_update {A} (p : A → bool) (g : A → A) (l : list A) :
  (∀ x, p (g x) = p x) → List.find p (g <$> l) = g <$> List.find p l.
Proof.
  intros Hpg. induction l as [|x l IH]; cbn; [done|].
  rewrite Hpg. by destruct (p x).
Qed.

Lemma List_filter_fmap_fixed {A} (p : A → bool) (g : A → A) (l : list A) :
  (∀ x, p (g x) = p x) → (∀ x, p x = true → g x = x) →
  List.filter p (g <$> l) = List.filter p l.
Proof.
  intros Hpg Hfix. induction l as [|x l IH]; cbn; [done|].
  rewrite Hpg. destruct (p x) eqn:Hx; [|done]. by rewrite IH, Hfix.
Qed.

Lemma find_email_eq (email : string) (l : list user_row) :
  List.find (λ r, holds (sql_eq (JStr (u_email r)) (JStr email))) l
  = List.find (λ r, bool_decide (u_email r = email)) l.
Proof. apply find_ext. intros r. apply holds_sql_eq_str. Qed.

Lemma find_user_id_eq (userId : Z) (l : list user_row) :
  List.find (λ r, holds (sql_eq (JNum (u_id r)) (JNum userId))) l
  = List.find (λ r, bool_decide (u_id r = userId)) l.
Proof. apply find_ext. intros r. apply holds_sql_eq_num. Qed.

Section Register.

Context `{Platform}.
Implicit Types (E : exn → world → Prop) (w : world).

Lemma wp_createOrUpdateProfile_full (userId : Z) (profileData : profile_data)
    (Q : unit → world → Prop) E w :
  (∀ d' p,
     users d' = users (db w) →
     fitness_activities d' = fitness_activities (db w) →
     activity_logs d' = activity_logs (db w) →
     List.find (λ r, bool_decide (p_user_id r = userId)) (user_profiles d')
     = Some p →
     profile_has p profileData →
     List.filter (λ r, negb (bool_decide (p_user_id r = userId)))
                 (user_profiles d')
     = List.filter (λ r, negb (bool_decide (p_user_id r = userId)))
                   (user_profiles (db w)) →
     Q tt (set_db w d')) →
  wp (createOrUpdateProfile userId profileData) Q E w.
Proof.
  intros HQ. unfold wp, createOrUpdateProfile, bind, gets.
  cbn -[holds sql_eq].
  rewrite (find_ext _ (λ r, bool_decide (p_user_id r = userId)))
    by (intros r; apply holds_sql_eq_num).
  destruct (List.find _ _) as [existing|] eqn:Hfind; cbn -[holds sql_eq].
  - set (g := λ r : profile_row, if holds (sql_eq (JNum (p_user_id r)) (JNum userId)) then _ else r).
    assert (Hkey : ∀ r, p_user_id (g r) = p_user_id r).
    { intros r. unfold g. by case_match. }
    eapply HQ; try done; cbn.
    + rewrite find_fmap_update, Hfind; [done|].
      intros r. by rewrite Hkey.
    + apply find_some in Hfind as [_ Hex%bool_decide_eq_true].
      unfold g. rewrite holds_sql_eq_num, bool_decide_eq_true_2 by done. done.
    + apply List_filter_fmap_fixed.
      * intros r. by rewrite Hkey.
      * intros r Hr%negb_true_iff%bool_decide_eq_false. unfold g.
        by rewrite holds_sql_eq_num, bool_decide_eq_false_2.
  - eapply HQ; try done; cbn.
    + rewrite (find_app_None_l _ _ _ Hfind). cbn.
      by rewrite bool_decide_eq_true_2.
    + done.
    + rewrite List.filter_app. cbn. rewrite bool_decide_eq_true_2 by done.
      cbn. by rewrite app_nil_r.
Qed.

Lemma wp_createActivities_full (userId : Z) (activities : list activity_data)
    (Q : unit → world → Prop) E w :
  (∀ d' n rows,
     users d' = users (db w) →
     user_profiles d' = user_profiles (db w) →
     activity_logs d' = activity_logs (db w) →
     fitness_activities d' = fitness_activities (db w) ++ rows →
     Forall2 (activity_created userId) rows activities →
     Q tt (set_db (set_ticks w n) d')) →
  wp (createActivities userId activities) Q E w.
Proof.
  revert w. induction activities as [|activity rest IH]; intros w HQ.
  - apply wp_ret.
    specialize (HQ (db w) (ticks w) [] eq_refl eq_refl eq_refl).
    rewrite app_nil_r in HQ. destruct w. by apply HQ.
  - cbn [createActivities]. apply wp_bind. unfold wp at 1. cbn.
    apply IH. intros d'' n rows Hu Hp Hl Ha Hrows.
    cbn in Hu, Hp, Hl, Ha.
    eapply (HQ d'' n (_ :: rows)); try done.
    + rewrite Ha, <- app_assoc. simpl. reflexivity.
    + constructor; [|done]. by repeat split.
Qed.

Lemma register_spec (email password fullName : string) w :
  wp (register email password fullName)
     (registration_done email password fullName w)
     (λ e w', w' = w ∧ registration_refused email fullName w e) w.
Proof.
  unfold register. apply wp_rethrow.
  apply wp_bind, wp_when_throw.
  { intros Hbad%negb_true_iff. split; [done|]. by left. }
  intros Hemail%negb_false_iff.
  apply wp_bind, wp_when_throw; [done|]. intros _.
  fold (name_too_short fullName).
  apply wp_bind, wp_when_throw.
  { intros Hname. split; [done|]. right. by left. }
  intros Hname.
  apply wp_bind, wp_getUserByEmail. rewrite find_email_eq.
  apply wp_bind, wp_when_throw.
  { intros Htaken%bool_decide_eq_true. split; [done|]. right. right.
    split_and!; try done. apply find_is_Some_iff.
    destruct (List.find _ _); [done|]. by destruct Htaken. }
  intros Hfresh%bool_decide_eq_false.
  assert (Hnew : Str.toLowerCase email ∉ u_email <$> users (db w)).
  { intros Hin%find_is_Some_iff. apply Hfresh.
    destruct (List.find _ _); [done|]. by destruct Hin. }
  clear Hfresh.
  apply wp_bind, wp_hashPassword.
  apply wp_bind, wp_createUser.
  { cbn. intros Hdup. destruct Hnew.
    apply existsb_exists in Hdup as (r & Hr%list_elem_of_In & Heq).
    apply bool_decide_eq_true in Heq as <-. by apply list_elem_of_fmap_2. }
  intros _.
  set (rowid := next_rowid _ _ _).
  apply wp_bind, wp_createOrUpdateProfile_full.
  intros d1 p Hu1 Ha1 Hl1 Hp1 Hp1' _.
  apply wp_bind, wp_createActivities_full.
  intros d2 n rows Hu2 Hp2 Hl2 Ha2 Hrows.
  apply wp_bind, wp_getUserById. rewrite find_user_id_eq.
  apply wp_bind, wp_createSession. apply wp_ret.
  cbn in Hu1, Ha1, Hl1, Hu2, Hp2, Hl2, Ha2.
  split; [done|]. split; [done|]. split; [done|].
  eexists _, _. cbn.
  split; [by rewrite Hu2, Hu1|]. split; [reflexivity|].
  split; [reflexivity|]. split; [reflexivity|]. split; [reflexivity|].
  split; [exists p; by rewrite Hp2|].
  split; [exists rows; by rewrite Ha2, Ha1|].
  split; [by rewrite Hl2, Hl1|].
  assert (Hfound :
    List.find (λ r, bool_decide (u_id r = rowid)) (users d2)
    = Some {| u_id := rowid; u_email := Str.toLowerCase email;
              u_password_hash := credential password (salt_of_draw (draws w));
              u_full_name := Str.trim fullName;
              u_created_at := sql_time (ticks w) |}).
  { rewrite Hu2, Hu1, find_app_None_l.
    - cbn. by rewrite bool_decide_eq_true_2.
    - apply find_None_iff. intros r Hr. apply bool_decide_eq_false.
      pose proof (next_rowid_fresh (db w) "users" _ _
                    (list_elem_of_fmap_2 u_id _ _ Hr)) as Hlt.
      change (u_id r ≠ next_rowid (db w) "users" (u_id <$> users (db w))).
      lia. }
  rewrite Hfound. done.
Qed.

Lemma register_refuses (email password fullName : string) (w : world)
    (e : exn) :
  registration_refused email fullName w e →
  register email password fullName w = (w, Throw e).
Proof.
  intros Hrefused.
  pose proof (register_spec email password fullName w) as Hspec.
  unfold wp in Hspec.
  destruct (register email password fullName w) as [w1 [user|e1]].
  - destruct Hspec as (Hemail & Hname & Hnew & _).
    destruct Hrefused as [[? _]|[(_ & ? & _)|(_ & _ & ? & _)]]; congruence.
  - destruct Hspec as [-> Hrefused1].
    assert (e = e1) as ->; [|done].
    destruct Hrefused as [[? ->]|[(? & ? & ->)|(? & ? & ? & ->)]],
             Hrefused1 as [[? ->]|[(? & ? & ->)|(? & ? & ? & ->)]];
      congruence.
Qed.

(** [register] throws exactly when it refuses its input, for one of three
    reasons tried in this order: the email does not have the shape
    [validateEmail] asks for; the full name is empty or shorter than two
    characters once trimmed; a user already has the lower-cased email.
    When it throws it has written nothing: the world is as it was. *)
Theorem register_throws_iff (email password fullName : string)
    (w w' : world) (e : exn) :
  register email password fullName w = (w', Throw e)
  ↔ w' = w ∧ registration_refused email fullName w e.
Proof.
  split.
  - intros Hrun.
    pose proof (register_spec email password fullName w) as Hspec.
    unfold wp in Hspec. by rewrite Hrun in Hspec.
  - intros [-> Hrefused]. by apply register_refuses.
Qed.

(** A registration that returns has added one row to [users], with the
    lower-cased email, the trimmed name and the credential [hashPassword]
    makes of the password; the user has a profile with every field empty
    and the seven default activities, active, added at the end of the
    table; no log is touched; the object returned is the row without its
    hash, and it is the session kept in AsyncStorage and [currentUser]. *)
Theorem register_returns_effects (email password fullName : string)
    (w w1 : world) (user : option jsobj) :
  register email password fullName w = (w1, Return user) →
  registration_done email password fullName w user w1.
Proof.
  intros Hrun.
  exact (wp_returned _ _ _ _ _ _ Hrun (register_spec email password fullName w)).
Qed.

(** After a registration, registering again with an email that differs at
    most by the case of its letters is refused with
    [Error('Email already registered')], whatever the password and the
    (acceptable) name, and writes nothing. *)
Theorem register_twice_refused (email email' password password'
    fullName fullName' : string) (w w1 : world) (user : option jsobj) :
  register email password fullName w = (w1, Return user) →
  Str.toLowerCase email' = Str.toLowerCase email →
  validateEmail email' = true →
  name_too_short fullName' = false →
  register email' password' fullName' w1
  = (w1, Throw (Error "Email already registered")).
Proof.
  intros Hrun Hsame Hemail Hname.
  destruct (wp_returned _ _ _ _ _ _ Hrun
              (register_spec email password fullName w))
    as (_ & _ & _ & row & ts & Husers & _ & Hrow & _).
  apply register_refuses. right. right.
  split_and!; try done.
  rewrite Hsame, Husers, fmap_app, <- Hrow. apply elem_of_app. right. by left.
Qed.

End Register.

(** A first registration, on the empty store. *)
Lemma register_returns_effects_witness :
  ∃ w1 user,
    @register demo_platform "Alice@Test.com" "Passw0rd!" " Alice A "
      (boot empty_db) = (w1, Return user)
    ∧ @registration_done demo_platform "Alice@Test.com" "Passw0rd!" " Alice A "
        (boot empty_db) user w1.
Proof.
  destruct (@register demo_platform "Alice@Test.com" "Passw0rd!" " Alice A "
              (boot empty_db)) as [w1 [user|e]] eqn:Hrun.
  - exists w1, user. split; [reflexivity|].
    exact (@register_returns_effects demo_platform _ _ _ _ _ _ Hrun).
  - vm_compute in Hrun. discriminate Hrun.
Defined.

(** The same email in other letter case, with another password and name. *)
Lemma register_twice_refused_witness :
  ∃ w1 user,
    @register demo_platform "Alice@Test.com" "Passw0rd!" "Alice A"
      (boot empty_db) = (w1, Return user)
    ∧ @register demo_platform "ALICE@test.COM" "0ther" "Al" w1
      = (w1, Throw (Error "Email already registered")).
Proof.
  destruct (@register demo_platform "Alice@Test.com" "Passw0rd!" "Alice A"
              (boot empty_db)) as [w1 [user|e]] eqn:Hrun.
  - exists w1, user. split; [reflexivity|].
    apply (@register_twice_refused demo_platform "Alice@Test.com"
             "ALICE@test.COM" "Passw0rd!" "0ther" "Alice A" "Al" _ _ _ Hrun);
      vm_compute; reflexivity.
  - vm_compute in Hrun. discriminate Hrun.
Defined.

(** ** login, the session and logout *)

Lemma without_password_hash (r : user_row) :
  delete "password_hash" (user_columns_with_hash r) = user_columns r.
Proof. reflexivity. Qed.

Section Sessions.

Context `{Platform}.

Lemma login_spec (email password : string) (w : world) :
  wp (login email password) (login_done email password w)
     (λ e w', w' = w ∧ e = Error "Invalid email or password"
              ∧ ∀ row, List.find (λ r, bool_decide (u_email r = Str.toLowerCase email))
                                 (users (db w)) = Some row →
                       verifies password (u_password_hash row) = false) w.
Proof.
  unfold login. apply wp_rethrow.
  apply wp_bind, wp_getUserByEmail. rewrite find_email_eq.
  destruct (List.find _ (users (db w))) as [row|] eqn:Hfind; [|done].
  cbn [fmap option_fmap option_map]. rewrite prop_password_hash.
  apply wp_bind, wp_verifyPassword.
  apply wp_bind, wp_when_throw.
  { intros Hwrong%negb_true_iff. split; [done|]. split; [done|].
    by intros ? [= <-]. }
  intros Hverified%negb_false_iff.
  apply wp_bind, wp_createSession. apply wp_ret.
  exists row, (iso_time (ticks w)).
  by rewrite without_password_hash.
Qed.

(** [login] returns when the first user with the lower-cased email has a
    credential that verifies the password. *)
Lemma login_returns (email password : string) (w : world) (row : user_row) :
  List.find (λ r, bool_decide (u_email r = Str.toLowerCase email))
            (users (db w)) = Some row →
  verifies password (u_password_hash row) = true →
  ∃ w1, login email password w = (w1, Return (user_columns row)).
Proof.
  intros Hfind Hverifies.
  pose proof (login_spec email password w) as Hspec. unfold wp in Hspec.
  destruct (login email password w) as [w1 [user|e]].
  - destruct Hspec as (row' & ts & Hfind' & _ & -> & _).
    exists w1. congruence.
  - destruct Hspec as (_ & _ & Hwrong).
    specialize (Hwrong row Hfind). congruence.
Qed.

(** A login that returns has found a user with the lower-cased email whose
    stored credential verifies the password; it returns that user's row
    without [password_hash] (the object [getUserById] gives), leaves the
    database as it was, and makes the user the session kept in
    AsyncStorage and [currentUser]. *)
Theorem login_returns_effects (email password : string) (w w1 : world)
    (user : jsobj) :
  login email password w = (w1, Return user) →
  login_done email password w user w1.
Proof.
  intros Hrun.
  exact (wp_returned _ _ _ _ _ _ Hrun (login_spec email password w)).
Qed.

(** [login] never writes to the database, whether it returns or throws. *)
Lemma login_database_unchanged (email password : string) (w : world) :
  db (exec (login email password) w) = db w.
Proof.
  pose proof (login_spec email password w) as Hspec. unfold wp, exec in *.
  destruct (login email password w) as [w1 [user|e]]; cbn.
  - by destruct Hspec as (row & ts & _ & _ & _ & Hdb & _).
  - by destruct Hspec as [-> _].
Qed.

Lemma getCurrentUser_stored (w : world) (s : session) :
  asyncStorage w !! SESSION_KEY = Some s →
  getCurrentUser w = (set_currentUser w (session_user s), Return (session_user s)).
Proof.
  intros Hs. unfold getCurrentUser, try_catch, bind, getItem, gets. cbn.
  by rewrite Hs.
Qed.

(** The session round trip.  After a [register] or a [login] that
    returned a user, [getCurrentUser] returns that user and changes
    nothing; it still returns that user when the service has been built
    anew in between ([currentUser] back to [null]), since it reads
    AsyncStorage. *)
Theorem getCurrentUser_after_sign_in (w1 : world) (user : option jsobj) :
  (∃ email password fullName w,
     register email password fullName w = (w1, Return user))
  ∨ (∃ email password w u,
       login email password w = (w1, Return u) ∧ user = Some u) →
  getCurrentUser w1 = (w1, Return user)
  ∧ getCurrentUser (set_currentUser w1 None) = (w1, Return user).
Proof.
  intros Hsigned.
  assert (∃ ts, asyncStorage w1 !! SESSION_KEY
                = Some {| session_user := user; session_timestamp := ts |}
                ∧ currentUser w1 = user) as (ts & Hstored & Hcurrent).
  { destruct Hsigned as [(email & password & fullName & w & Hrun)
                        |(email & password & w & u & Hrun & ->)].
    - destruct (wp_returned _ _ _ _ _ _ Hrun
                  (register_spec email password fullName w))
        as (_ & _ & _ & row & ts & _ & _ & _ & _ & _ & _ & _ & _ & _ & Hc & Hs).
      exists ts. by rewrite Hs, lookup_insert_eq.
    - destruct (wp_returned _ _ _ _ _ _ Hrun (login_spec email password w))
        as (row & ts & _ & _ & _ & _ & Hc & Hs).
      exists ts. by rewrite Hs, lookup_insert_eq. }
  split.
  - rewrite (getCurrentUser_stored _ _ Hstored). cbn. f_equal.
    destruct w1. cbn in *. by subst.
  - rewrite (getCurrentUser_stored (set_currentUser w1 None) _ Hstored).
    cbn. f_equal. destruct w1. cbn in *. by subst.
Qed.

End Sessions.

(** [logout] never throws and leaves the database alone; after it
    [getCurrentUser] returns [null] and changes nothing; and a second
    [logout] changes nothing either. *)
Theorem logout_clears_session (w : world) :
  ∃ w1, logout w = (w1, Return tt)
      ∧ db w1 = db w
      ∧ asyncStorage w1 !! SESSION_KEY = None
      ∧ currentUser w1 = None
      ∧ getCurrentUser w1 = (w1, Return None)
      ∧ logout w1 = (w1, Return tt).
Proof.
  eexists. split; [reflexivity|]. split; [reflexivity|].
  cbn. rewrite lookup_delete_eq. split; [done|]. split; [done|]. split.
  - unfold getCurrentUser, try_catch, bind, getItem, gets. cbn.
    by rewrite lookup_delete_eq.
  - unfold logout, try_catch, bind, removeItem, modify. cbn.
    by rewrite delete_delete_eq.
Qed.

(** The user of the store of the examples logs in. *)
Lemma login_returns_effects_witness :
  ∃ w1 user,
    @login demo_platform "Alice@Test.com" "Passw0rd!" (boot one_activity_db)
    = (w1, Return user)
    ∧ @login_done demo_platform "Alice@Test.com" "Passw0rd!"
        (boot one_activity_db) user w1.
Proof.
  destruct (@login demo_platform "Alice@Test.com" "Passw0rd!"
              (boot one_activity_db)) as [w1 [user|e]] eqn:Hrun.
  - exists w1, user. split; [reflexivity|].
    exact (@login_returns_effects demo_platform _ _ _ _ _ Hrun).
  - vm_compute in Hrun. discriminate Hrun.
Defined.

(** After the login of the user of the examples. *)
Lemma getCurrentUser_after_sign_in_witness :
  ∃ w1 user,
    @login demo_platform "Alice@Test.com" "Passw0rd!" (boot one_activity_db)
    = (w1, Return user)
    ∧ getCurrentUser w1 = (w1, Return (Some user))
    ∧ getCurrentUser (set_currentUser w1 None) = (w1, Return (Some user)).
Proof.
  destruct (@login demo_platform "Alice@Test.com" "Passw0rd!"
              (boot one_activity_db)) as [w1 [user|e]] eqn:Hrun.
  - exists w1, user. split; [reflexivity|].
    apply (@getCurrentUser_after_sign_in demo_platform). right.
    exists "Alice@Test.com", "Passw0rd!", (boot one_activity_db), user.
    split; [exact Hrun | reflexivity].
  - vm_compute in Hrun. discriminate Hrun.
Defined.

(** ** The credential hasher *)

Lemma length_append (s t : string) :
  String.length (String.append s t) = (String.length s + String.length t)%nat.
Proof. induction s as [|c s IH]; [done|]. rewrite append_cons. cbn. by rewrite IH. Qed.

Lemma join_empty_length (n : nat) (pieces : list string) :
  Forall (λ p, String.length p = n) pieces →
  String.length (join "" pieces) = (List.length pieces * n)%nat.
Proof.
  induction 1 as [|p ps Hp _ IH]; [done|].
  destruct ps as [|q ps]; [cbn; lia|].
  change (join "" (p :: q :: ps))
    with (String.append p (String.append "" (join "" (q :: ps)))).
  rewrite append_nil_l, length_append, Hp, IH. cbn. lia.
Qed.

Lemma join_empty_hex (pieces : list string) :
  Forall (λ p, hex_string p = true) pieces → hex_string (join "" pieces) = true.
Proof.
  induction 1 as [|p ps Hp _ IH]; [done|].
  destruct ps as [|q ps]; [done|].
  change (join "" (p :: q :: ps))
    with (String.append p (String.append "" (join "" (q :: ps)))).
  by rewrite append_nil_l, hex_string_append, Hp, IH.
Qed.

Lemma two_hex_digits (b : byte) :
  String.length (padStart 2 "0" (toString16 (Byte.to_N b))) = 2%nat
  ∧ hex_string (padStart 2 "0" (toString16 (Byte.to_N b))) = true.
Proof. by destruct b. Qed.

Section Hasher.

Context `{Platform}.

(** [generateSalt] never throws.  It draws once from the random source and
    writes every byte it is given as two hexadecimal digits, so that the
    salt of 16 bytes has 32 digits. *)
Theorem generateSalt_hex (w : world) :
  ∃ salt,
    generateSalt w = (set_draws w (S (draws w)), Return salt)
    ∧ String.length salt
      = (2 * List.length (random_bytes (draws w) 16))%nat
    ∧ hex_string salt = true.
Proof.
  exists (salt_of_draw (draws w)). split; [reflexivity|].
  unfold salt_of_draw. split.
  - rewrite (join_empty_length 2), length_fmap; [lia|].
    apply Forall_fmap, Forall_forall. intros b _. apply two_hex_digits.
  - apply join_empty_hex, Forall_fmap, Forall_forall.
    intros b _. apply two_hex_digits.
Qed.

Lemma verifies_credential_iff (password attempt salt : string) :
  hex_string (sha256_hex (String.append password salt)) = true →
  Str.mem ":" salt = false →
  verifies attempt (credential password salt)
  = bool_decide (sha256_hex (String.append attempt salt)
                 = sha256_hex (String.append password salt)).
Proof.
  intros Hhex%hex_string_no_colon Hsalt. unfold verifies, credential.
  rewrite append_cons, append_nil_l.
  rewrite (split_sep _ _ _ Hsalt), (split_no_sep _ _ Hhex). cbn.
  unfold plus. cbn. apply bool_decide_ext. split; congruence.
Qed.

Lemma credential_well_formed (password salt : string) :
  hex_string (sha256_hex (String.append password salt)) = true →
  Str.mem ":" salt = false →
  well_formed_credential (credential password salt) = true.
Proof.
  intros Hhex%hex_string_no_colon Hsalt. unfold well_formed_credential, credential.
  rewrite append_cons, append_nil_l.
  by rewrite (split_sep _ _ _ Hsalt), (split_no_sep _ _ Hhex).
Qed.

(** The round trip of the hasher, on a platform whose digest is written in
    hexadecimal.  [hashPassword] never throws and returns a credential of
    the form [salt:digest]; [verifyPassword] then accepts the password it
    was made of, and accepts another password exactly when that one has
    the same digest with the salt. *)
Theorem hashPassword_verifyPassword (password : string) (w : world) :
  (∀ s, hex_string (sha256_hex s) = true) →
  ∃ stored salt,
    hashPassword password w = (set_draws w (S (draws w)), Return stored)
    ∧ well_formed_credential stored = true
    ∧ Str.split ":" stored
      = [salt; sha256_hex (String.append password salt)]
    ∧ (∀ w', verifyPassword password (JStr stored) w' = (w', Return true))
    ∧ ∀ attempt w',
        verifyPassword attempt (JStr stored) w'
        = (w', Return (bool_decide
                         (sha256_hex (String.append attempt salt)
                          = sha256_hex (String.append password salt)))).
Proof.
  intros Hhex.
  exists (credential password (salt_of_draw (draws w))), (salt_of_draw (draws w)).
  pose proof (salt_of_draw_no_colon (draws w)) as Hsalt.
  split; [reflexivity|]. split; [by apply credential_well_formed|].
  split.
  { unfold credential. rewrite append_cons, append_nil_l.
    rewrite (split_sep _ _ _ Hsalt), split_no_sep; [done|].
    apply hex_string_no_colon, Hhex. }
  split.
  - intros w'. rewrite verifyPassword_string, verifies_credential_iff by done.
    by rewrite bool_decide_eq_true_2.
  - intros attempt w'.
    by rewrite verifyPassword_string, verifies_credential_iff.
Qed.

End Hasher.

(** With SHA-256 as the digest. *)
Lemma hashPassword_verifyPassword_witness :
  ∃ stored salt,
    @hashPassword demo_platform "Passw0rd!" (boot empty_db)
    = (set_draws (boot empty_db) 1, Return stored)
    ∧ well_formed_credential stored = true
    ∧ Str.split ":" stored
      = [salt; @sha256_hex demo_platform (String.append "Passw0rd!" salt)]
    ∧ (∀ w', @verifyPassword demo_platform "Passw0rd!" (JStr stored) w'
             = (w', Return true))
    ∧ ∀ attempt w',
        @verifyPassword demo_platform attempt (JStr stored) w'
        = (w', Return (bool_decide
                         (@sha256_hex demo_platform (String.append attempt salt)
                          = @sha256_hex demo_platform
                              (String.append "Passw0rd!" salt)))).
Proof.
  exact (@hashPassword_verifyPassword demo_platform "Passw0rd!" (boot empty_db)
           demo_digest_is_hex).
Defined.

(** ** changePassword *)

Lemma prop_email (r : user_row) : prop (user_columns r) "email" = JStr (u_email r).
Proof. reflexivity. Qed.

Lemma fmap_ext_all {A B} (f g : A → B) (l : list A) :
  (∀ x, f x = g x) → f <$> l = g <$> l.
Proof. intros Hfg. induction l as [|x l IH]; cbn; [done|]. by rewrite Hfg, IH. Qed.

(** In a column without duplicates a row is the first, and the only one, to
    have its key. *)
Lemma find_NoDup_key {A B} `{EqDecision B} (f : A → B) (l : list A) (x : A) :
  NoDup (f <$> l) → x ∈ l →
  List.find (λ r, bool_decide (f r = f x)) l = Some x.
Proof.
  induction l as [|y l IH]; cbn.
  - intros _ Hx. by apply elem_of_nil in Hx.
  - intros [Hy Hl]%NoDup_cons [->|Hx]%elem_of_cons.
    + by rewrite bool_decide_eq_true_2.
    + rewrite bool_decide_eq_false_2; [by apply IH|].
      intros Heq. apply Hy. rewrite Heq. by apply list_elem_of_fmap_2.
Qed.

Lemma find_Some_elem {A} (p : A → bool) (l : list A) (x : A) :
  List.find p l = Some x → x ∈ l ∧ p x = true.
Proof. intros [Hin Hp]%find_some. split; [by apply list_elem_of_In | done]. Qed.

Section Password.

Context `{Platform}.

Lemma changePassword_spec (userId : Z) (currentPassword newPassword : string)
    (w : world) :
  wp (changePassword userId currentPassword newPassword)
     (λ b w1,
        b = true
        ∧ ∃ row row1,
            List.find (λ r, bool_decide (u_id r = userId)) (users (db w))
            = Some row
            ∧ List.find (λ r, bool_decide (u_email r = u_email row))
                        (users (db w)) = Some row1
            ∧ verifies currentPassword (u_password_hash row1) = true
            ∧ w1 = set_db (set_draws w (S (draws w)))
                     (set_users (db w)
                        ((λ r, if bool_decide (u_id r = userId)
                               then with_password_hash
                                      (credential newPassword
                                         (salt_of_draw (draws w))) r
                               else r) <$> users (db w))))
     (λ e w',
        w' = w
        ∧ match List.find (λ r, bool_decide (u_id r = userId)) (users (db w)) with
          | None => e = TypeError
          | Some row =>
              ∃ row1,
                List.find (λ r, bool_decide (u_email r = u_email row))
                          (users (db w)) = Some row1
                ∧ verifies currentPassword (u_password_hash row1) = false
                ∧ e = Error "Current password is incorrect"
          end) w.
Proof.
  unfold changePassword. apply wp_rethrow.
  apply wp_bind, wp_getUserById. rewrite find_user_id_eq.
  destruct (List.find _ (users (db w))) as [row|] eqn:Hrow; [|done].
  cbn [fmap option_fmap option_map member]. apply wp_bind, wp_ret.
  rewrite prop_email.
  apply wp_bind, wp_getUserByEmail. rewrite find_email_eq.
  destruct (List.find (λ r, bool_decide (u_email r = u_email row)) _)
    as [row1|] eqn:Hrow1.
  2:{ apply find_Some_elem in Hrow as [Hin _].
      pose proof (proj1 (find_None_iff _ _) Hrow1 row Hin) as Hno.
      cbn in Hno. by rewrite bool_decide_eq_true_2 in Hno. }
  cbn [fmap option_fmap option_map member]. apply wp_bind, wp_ret.
  rewrite prop_password_hash.
  apply wp_bind, wp_verifyPassword.
  apply wp_bind, wp_when_throw.
  { intros Hwrong%negb_true_iff. split; [done|]. by exists row1. }
  intros Hverified%negb_false_iff.
  apply wp_bind, wp_when_throw; [done|]. intros _.
  apply wp_bind, wp_hashPassword.
  apply wp_bind, wp_modify_db. apply wp_ret.
  split; [done|]. exists row, row1. split; [done|]. split; [done|].
  split; [done|]. cbn -[holds sql_eq]. do 2 f_equal. apply fmap_ext_all. intros r.
  by rewrite holds_sql_eq_num.
Qed.

Lemma changePassword_spec_unique (userId : Z)
    (currentPassword newPassword : string) (w : world) (row : user_row) :
  constraints_hold (db w) → row ∈ users (db w) → u_id row = userId →
  wp (changePassword userId currentPassword newPassword)
     (λ b w1,
        b = true ∧ verifies currentPassword (u_password_hash row) = true
        ∧ w1 = set_db (set_draws w (S (draws w)))
                 (set_users (db w)
                    ((λ r, if bool_decide (u_id r = userId)
                           then with_password_hash
                                  (credential newPassword
                                     (salt_of_draw (draws w))) r
                           else r) <$> users (db w))))
     (λ e w',
        w' = w ∧ verifies currentPassword (u_password_hash row) = false
        ∧ e = Error "Current password is incorrect") w.
Proof.
  intros Hwf Hin <-.
  pose proof (find_NoDup_key u_id _ _ (users_id_unique _ Hwf) Hin) as Hid.
  pose proof (find_NoDup_key u_email _ _ (users_email_unique _ Hwf) Hin) as Hemail.
  eapply wp_mono, changePassword_spec.
  - intros b w1 (-> & row0 & row1 & Hid0 & Hemail1 & Hverified & ->).
    rewrite Hid in Hid0. injection Hid0 as <-.
    rewrite Hemail in Hemail1. by injection Hemail1 as <-.
  - intros e w' [-> Hwhy]. rewrite Hid in Hwhy.
    destruct Hwhy as (row1 & Hemail1 & Hwrong & ->).
    rewrite Hemail in Hemail1. by injection Hemail1 as <-.
Qed.

(** [changePassword] for a user who exists, in a store that meets the
    constraints of the schema.  When the current password verifies against
    the stored credential it returns [true], and all it has written is
    the user's credential: the one [hashPassword] makes of the new
    password, with a fresh salt; no rule on the new password stands in
    the way.  When the current password does not verify it throws
    [Error('Current password is incorrect')] and writes nothing. *)
Theorem changePassword_outcome (userId : Z)
    (currentPassword newPassword : string) (w : world) (row : user_row) :
  constraints_hold (db w) → row ∈ users (db w) → u_id row = userId →
  changePassword userId currentPassword newPassword w
  = if verifies currentPassword (u_password_hash row)
    then (set_db (set_draws w (S (draws w)))
            (set_users (db w)
               ((λ r, if bool_decide (u_id r = userId)
                      then with_password_hash
                             (credential newPassword (salt_of_draw (draws w)))
                             r
                      else r) <$> users (db w))),
          Return true)
    else (w, Throw (Error "Current password is incorrect")).
Proof.
  intros Hwf Hin Hid.
  pose proof (changePassword_spec_unique userId currentPassword newPassword
                w row Hwf Hin Hid) as Hspec.
  unfold wp in Hspec.
  destruct (changePassword userId currentPassword newPassword w)
    as [w1 [b|e]].
  - destruct Hspec as (-> & -> & ->). done.
  - destruct Hspec as (-> & -> & ->). done.
Qed.

(** After a change of password, on a platform whose digest is written in
    hexadecimal and in a store that meets the constraints of the schema:
    [login] with the user's email and the new password returns the user,
    and [login] with another password returns exactly when that password
    has the same digest as the new one with the new salt.  The old
    password no longer counts. *)
Theorem changePassword_then_login (userId : Z)
    (currentPassword newPassword email : string) (w w1 : world) (b : bool)
    (row : user_row) :
  (∀ s, hex_string (sha256_hex s) = true) →
  constraints_hold (db w) →
  changePassword userId currentPassword newPassword w = (w1, Return b) →
  row ∈ users (db w) → u_id row = userId →
  Str.toLowerCase email = u_email row →
  (∃ w2, login email newPassword w1 = (w2, Return (user_columns row)))
  ∧ ∀ attempt,
      (∃ w2 user, login email attempt w1 = (w2, Return user))
      ↔ sha256_hex (String.append attempt (salt_of_draw (draws w)))
        = sha256_hex (String.append newPassword (salt_of_draw (draws w))).
Proof.
  intros Hhex Hwf Hrun Hin Hid Hemail.
  destruct (wp_returned _ _ _ _ _ _ Hrun
              (changePassword_spec_unique userId currentPassword newPassword
                 w row Hwf Hin Hid))
    as (_ & _ & ->).
  set (salt := salt_of_draw (draws w)).
  set (stored := credential newPassword salt).
  set (w1 := set_db _ _).
  assert (Hfind :
    List.find (λ r, bool_decide (u_email r = Str.toLowerCase email))
              (users (db w1))
    = Some (with_password_hash stored row)).
  { cbn. rewrite find_fmap_update.
    - rewrite Hemail.
      rewrite (find_NoDup_key u_email _ _ (users_email_unique _ Hwf) Hin).
      cbn. by rewrite bool_decide_eq_true_2.
    - intros r. cbn. by destruct (bool_decide (u_id r = userId)). }
  assert (Hverifies : ∀ attempt,
    verifies attempt stored
    = bool_decide (sha256_hex (String.append attempt salt)
                   = sha256_hex (String.append newPassword salt))).
  { intros attempt. apply verifies_credential_iff; [apply Hhex|].
    apply salt_of_draw_no_colon. }
  split.
  - apply (login_returns email newPassword w1 _ Hfind). cbn.
    rewrite Hverifies. by apply bool_decide_eq_true_2.
  - intros attempt. split.
    + intros (w2 & user & Hlogin).
      destruct (wp_returned _ _ _ _ _ _ Hlogin (login_spec email attempt w1))
        as (row' & ts & Hfind' & Hverified & _).
      rewrite Hfind in Hfind'. injection Hfind' as <-. cbn in Hverified.
      rewrite Hverifies in Hverified. by apply bool_decide_eq_true in Hverified.
    + intros Hsame.
      destruct (login_returns email attempt w1 _ Hfind) as [w2 Hlogin].
      * cbn. rewrite Hverifies. by apply bool_decide_eq_true_2.
      * by exists w2, (user_columns (with_password_hash stored row)).
Qed.

End Password.

(** The user of the examples changes the password. *)
Lemma changePassword_outcome_witness :
  @changePassword demo_platform 1 "Passw0rd!" "N3wPassw0rd" (boot one_activity_db)
  = (set_db (set_draws (boot one_activity_db) 1)
       (set_users one_activity_db
          [{| u_id := 1; u_email := "alice@test.com";
              u_password_hash :=
                @credential demo_platform "N3wPassw0rd"
                  (@salt_of_draw demo_platform 0);
              u_full_name := "Alice A";
              u_created_at := "2024-01-01 00:00:00" |}]),
     Return true).
Proof.
  pose proof (@changePassword_outcome demo_platform 1 "Passw0rd!" "N3wPassw0rd"
                (boot one_activity_db)
                {| u_id := 1; u_email := "alice@test.com";
                   u_password_hash :=
                     "000102030405060708090a0b0c0d0e0f:572a578e2bb9b6010e5bd7abc7540a733205bc6d4d99bb41d429d58af5e93565";
                   u_full_name := "Alice A";
                   u_created_at := "2024-01-01 00:00:00" |}
                one_activity_db_constraints ltac:(left) eq_refl) as Hrun.
  assert (Hverifies :
    @verifies demo_platform "Passw0rd!" "000102030405060708090a0b0c0d0e0f:572a578e2bb9b6010e5bd7abc7540a733205bc6d4d99bb41d429d58af5e93565" = true)
    by (vm_compute; reflexivity).
  cbn [u_password_hash] in Hrun. rewrite Hverifies in Hrun. exact Hrun.
Defined.

(** The user of the examples logs in with the new password. *)
Lemma changePassword_then_login_witness :
  ∃ w1 b,
    @changePassword demo_platform 1 "Passw0rd!" "N3wPassw0rd"
      (boot one_activity_db) = (w1, Return b)
    ∧ (∃ w2 user, @login demo_platform "Alice@Test.com" "N3wPassw0rd" w1
                  = (w2, Return user))
    ∧ ∀ attempt,
        (∃ w2 user, @login demo_platform "Alice@Test.com" attempt w1
                    = (w2, Return user))
        ↔ @sha256_hex demo_platform
            (String.append attempt (@salt_of_draw demo_platform 0))
          = @sha256_hex demo_platform
              (String.append "N3wPassw0rd" (@salt_of_draw demo_platform 0)).
Proof.
  destruct (@changePassword demo_platform 1 "Passw0rd!" "N3wPassw0rd"
              (boot one_activity_db)) as [w1 [b|e]] eqn:Hrun.
  - exists w1, b. split; [reflexivity|].
    destruct (@changePassword_then_login demo_platform 1 "Passw0rd!"
                "N3wPassw0rd" "Alice@Test.com" (boot one_activity_db) w1 b
                {| u_id := 1; u_email := "alice@test.com";
                   u_password_hash :=
                     "000102030405060708090a0b0c0d0e0f:572a578e2bb9b6010e5bd7abc7540a733205bc6d4d99bb41d429d58af5e93565";
                   u_full_name := "Alice A";
                   u_created_at := "2024-01-01 00:00:00" |}
                demo_digest_is_hex one_activity_db_constraints Hrun
                ltac:(left) eq_refl ltac:(vm_compute; reflexivity))
      as [[w2 Hlogin] Hothers].
    split; [exists w2; eexists; exact Hlogin | exact Hothers].
  - vm_compute in Hrun. discriminate Hrun.
Defined.

(** ** Activities *)

Lemma created_at_desc_transitive : Transitive created_at_desc.
Proof.
  intros a b c Hab Hbc. unfold created_at_desc in *.
  by etransitivity.
Qed.

Lemma created_at_desc_total : Total created_at_desc.
Proof. intros a b. unfold created_at_desc. apply (total String.le). Qed.

Lemma List_filter_listed_for (userId : Z) (l : list activity_row) :
  List.filter (λ r, holds (sql_eq (JNum (a_user_id r)) (JNum userId))
                    && holds (sql_eq (JNum (a_is_active r)) (JNum 1))) l
  = List.filter (listed_for userId) l.
Proof.
  apply List_filter_ext_all. intros r. unfold listed_for.
  by rewrite !holds_sql_eq_num.
Qed.

Lemma getActivitiesByUser_eq (userId : Z) (w : world) :
  getActivitiesByUser userId w
  = (w, Return (merge_sort created_at_desc
                  (List.filter (listed_for userId) (fitness_activities (db w))))).
Proof.
  unfold getActivitiesByUser, bind, gets, ret. cbn -[holds sql_eq merge_sort].
  by rewrite List_filter_listed_for.
Qed.

(** [getActivitiesByUser] never throws and writes nothing.  Its rows are the
    rows of [fitness_activities] that belong to the user and are active,
    each as often as the table holds it, from the latest [created_at] to the
    earliest. *)
Theorem getActivitiesByUser_spec (userId : Z) (w : world) :
  ∃ rows,
    getActivitiesByUser userId w = (w, Return rows)
    ∧ rows ≡ₚ List.filter (listed_for userId) (fitness_activities (db w))
    ∧ StronglySorted created_at_desc rows
    ∧ ∀ r, r ∈ rows ↔ r ∈ fitness_activities (db w)
                       ∧ a_user_id r = userId ∧ a_is_active r = 1.
Proof.
  eexists. split; [apply getActivitiesByUser_eq|].
  split; [apply merge_sort_Permutation|]. split.
  - apply (@StronglySorted_merge_sort _ created_at_desc _
             created_at_desc_transitive created_at_desc_total).
  - intros r. rewrite merge_sort_Permutation, elem_of_List_filter.
    unfold listed_for. rewrite andb_true_iff, !bool_decide_eq_true. tauto.
Qed.

Lemma fmap_fixed {A} (f : A → A) (l : list A) :
  (∀ x, x ∈ l → f x = x) → f <$> l = l.
Proof.
  induction l as [|x l IH]; cbn; [done|]. intros Hf.
  rewrite Hf by left. rewrite IH; [done|]. intros y Hy. apply Hf. by right.
Qed.

Section Activities.

Context `{Platform}.

(** [createActivity] never throws: it adds one active row with the data
    it is given, under an id larger than every id of the table, and
    returns that id.  [getActivitiesByUser] then gives the owner the rows
    it gave before and the new row, and gives every other user what it
    gave before. *)
Theorem createActivity_then_listed (userId : Z) (activityData : activity_data)
    (w : world) :
  ∃ rowid row w1,
    createActivity userId activityData w = (w1, Return rowid)
    ∧ a_id row = rowid
    ∧ activity_created userId row activityData
    ∧ (∀ r, r ∈ fitness_activities (db w) → a_id r < rowid)
    ∧ fitness_activities (db w1) = fitness_activities (db w) ++ [row]
    ∧ ∀ u rows,
        getActivitiesByUser u w = (w, Return rows) →
        ∃ rows1,
          getActivitiesByUser u w1 = (w1, Return rows1)
          ∧ rows1 ≡ₚ rows ++ (if bool_decide (u = userId) then [row] else []).
Proof.
  set (rowid := next_rowid (db w) "fitness_activities"
                  (a_id <$> fitness_activities (db w))).
  exists rowid,
    {| a_id := rowid; a_user_id := userId; a_name := name activityData;
       a_description := description activityData;
       a_icon := icon activityData;
       a_target_value := target_value activityData;
       a_target_unit := target_unit activityData;
       a_category := category activityData; a_is_active := 1;
       a_created_at := sql_time (ticks w) |}.
  eexists. split; [by cbn|].
  split; [reflexivity|]. split; [by repeat split|]. split.
  { intros r Hr. apply next_rowid_fresh. by apply list_elem_of_fmap_2. }
  split; [reflexivity|].
  intros u rows. rewrite !getActivitiesByUser_eq. intros [= <-].
  eexists. split; [reflexivity|]. cbn.
  rewrite !merge_sort_Permutation, List.filter_app. cbn.
  unfold listed_for at 2. cbn.
  rewrite (bool_decide_ext (userId = u) (u = userId)) by done.
  by destruct (bool_decide (u = userId)).
Qed.

(** [updateActivity] never throws and checks neither that the activity
    exists nor whose it is.  A row with the id takes the six fields of the
    form and keeps its id, its owner, its [is_active] flag and its date;
    every other row, and every other table, is left as it was.  When no
    row has the id nothing is written. *)
Theorem updateActivity_effects (activityId : Z) (activityData : activity_data)
    (w : world) :
  ∃ w1,
    updateActivity activityId activityData w = (w1, Return tt)
    ∧ Forall2
        (λ r r1,
           a_id r1 = a_id r ∧ a_user_id r1 = a_user_id r
           ∧ a_is_active r1 = a_is_active r ∧ a_created_at r1 = a_created_at r
           ∧ if bool_decide (a_id r = activityId)
             then a_name r1 = name activityData
                  ∧ a_description r1 = description activityData
                  ∧ a_icon r1 = icon activityData
                  ∧ a_target_value r1 = target_value activityData
                  ∧ a_target_unit r1 = target_unit activityData
                  ∧ a_category r1 = category activityData
             else r1 = r)
        (fitness_activities (db w)) (fitness_activities (db w1))
    ∧ users (db w1) = users (db w)
    ∧ user_profiles (db w1) = user_profiles (db w)
    ∧ activity_logs (db w1) = activity_logs (db w)
    ∧ ((∀ r, r ∈ fitness_activities (db w) → a_id r ≠ activityId) → w1 = w).
Proof.
  eexists. split; [reflexivity|]. cbn -[holds sql_eq].
  split; [|split; [done|split; [done|split; [done|]]]].
  - apply Forall2_fmap_r, Forall_Forall2_diag, Forall_forall.
    intros r _. cbn -[holds sql_eq]. rewrite holds_sql_eq_num.
    by destruct (bool_decide (a_id r = activityId)).
  - intros Hnone.
    rewrite fmap_fixed; [by rewrite set_fitness_activities_same, set_db_same|].
    intros r Hr.
    rewrite holds_sql_eq_num, bool_decide_eq_false_2; [done|].
    by apply Hnone.
Qed.

End Activities.

(** ** The profile *)

Lemma find_filter_implied {A} (p q : A → bool) (l : list A) :
  (∀ x, p x = true → q x = true) →
  List.find p (List.filter q l) = List.find p l.
Proof.
  intros Hpq. induction l as [|x l IH]; cbn; [done|].
  destruct (p x) eqn:Hp.
  - rewrite (Hpq x Hp). cbn. by rewrite Hp.
  - destruct (q x); cbn; [by rewrite Hp|done].
Qed.

Lemma getUserProfile_eq (userId : Z) (w : world) :
  getUserProfile userId w
  = (w, Return (List.find (λ r, bool_decide (p_user_id r = userId))
                          (user_profiles (db w)))).
Proof.
  unfold getUserProfile, bind, gets, ret. cbn -[holds sql_eq]. do 2 f_equal.
  apply find_ext. intros r. apply holds_sql_eq_num.
Qed.

Section Profile.

Context `{Platform}.

(** [updateProfile] never throws.  After it [getUserProfile] gives the
    user a profile that carries the five fields of the form, whether there
    was a profile before or not, and gives every other user the profile it
    gave before; no other table is written. *)
Theorem updateProfile_then_getUserProfile (userId : Z)
    (profileData : profile_data) (w : world) :
  ∃ w1 p,
    updateProfile userId profileData w = (w1, Return tt)
    ∧ getUserProfile userId w1 = (w1, Return (Some p))
    ∧ p_user_id p = userId
    ∧ profile_has p profileData
    ∧ (∀ u, u ≠ userId →
         ∃ o, getUserProfile u w = (w, Return o)
              ∧ getUserProfile u w1 = (w1, Return o))
    ∧ users (db w1) = users (db w)
    ∧ fitness_activities (db w1) = fitness_activities (db w)
    ∧ activity_logs (db w1) = activity_logs (db w).
Proof.
  destruct (wp_returns (updateProfile userId profileData)
              (λ _ w1, ∃ p,
                 List.find (λ r, bool_decide (p_user_id r = userId))
                           (user_profiles (db w1)) = Some p
                 ∧ profile_has p profileData
                 ∧ List.filter (λ r, negb (bool_decide (p_user_id r = userId)))
                               (user_profiles (db w1))
                   = List.filter (λ r, negb (bool_decide (p_user_id r = userId)))
                                 (user_profiles (db w))
                 ∧ users (db w1) = users (db w)
                 ∧ fitness_activities (db w1) = fitness_activities (db w)
                 ∧ activity_logs (db w1) = activity_logs (db w)) w)
    as (w1 & [] & Hrun & p & Hfind & Hhas & Hothers & Hu & Ha & Hl).
  { unfold updateProfile. apply wp_rethrow, wp_createOrUpdateProfile_full.
    intros d' p Hu Ha Hl Hfind Hhas Hothers. by exists p. }
  exists w1, p. split; [done|]. rewrite !getUserProfile_eq, Hfind.
  split; [done|]. split.
  { by apply find_Some_elem in Hfind as [_ ?%bool_decide_eq_true]. }
  split; [done|]. split; [|done].
  intros u Hu'. eexists. split; [apply getUserProfile_eq|].
  rewrite getUserProfile_eq. do 2 f_equal.
  rewrite <- (find_filter_implied _
                (λ r, negb (bool_decide (p_user_id r = userId)))
                (user_profiles (db w1))), Hothers.
  - apply find_filter_implied.
    intros r Hr%bool_decide_eq_true. apply negb_true_iff, bool_decide_eq_false.
    congruence.
  - intros r Hr%bool_decide_eq_true. apply negb_true_iff, bool_decide_eq_false.
    congruence.
Qed.

End Profile.

(** ** The logs of a day *)

Lemma bind_ext_all {A B} (f g : A → list B) (l : list A) :
  (∀ x, f x = g x) → l ≫= f = l ≫= g.
Proof. intros Hfg. induction l as [|x l IH]; cbn; [done|]. by rewrite Hfg, IH. Qed.

Lemma getActivityLogsForDate_eq (userId : Z) (date : string) (w : world) :
  getActivityLogsForDate userId date w
  = (w, Return
          (List.filter (λ al, bool_decide (l_user_id al = userId)
                              && bool_decide (l_log_date al = date))
                       (activity_logs (db w))
           ≫= (λ al, with_activity al
                       <$> List.filter
                             (λ fa, bool_decide (l_activity_id al = a_id fa))
                             (fitness_activities (db w))))).
Proof.
  unfold getActivityLogsForDate, bind, gets, ret. cbn -[holds sql_eq].
  do 2 f_equal.
  rewrite (List_filter_ext_all _
             (λ al, bool_decide (l_user_id al = userId)
                    && bool_decide (l_log_date al = date))).
  - apply bind_ext_all. intros al. unfold with_activity. f_equal.
    apply List_filter_ext_all. intros fa. apply holds_sql_eq_num.
  - intros al. by rewrite holds_sql_eq_num, holds_sql_eq_str.
Qed.

(** With unique ids a log joins at most one activity. *)
Lemma List_filter_key_unique {A B} `{EqDecision B} (f : A → B) (k : B)
    (l : list A) :
  NoDup (f <$> l) →
  (List.length (List.filter (λ x, bool_decide (k = f x)) l) ≤ 1)%nat.
Proof.
  induction l as [|x l IH]; cbn; [lia|].
  intros [Hx Hl]%NoDup_cons. case_bool_decide as Hk; cbn; [|by apply IH].
  rewrite List_filter_nil; [cbn; lia|].
  intros y Hy. apply bool_decide_eq_false. intros Hky.
  apply Hx. rewrite <- Hk, Hky. by apply list_elem_of_fmap_2.
Qed.

Lemma joined_activity_ids (date : string) (userId : Z)
    (logs : list log_row) (acts : list activity_row) :
  NoDup (a_id <$> acts) →
  NoDup ((λ r, (l_activity_id r, l_log_date r)) <$> logs) →
  let rows :=
    List.filter (λ al, bool_decide (l_user_id al = userId)
                       && bool_decide (l_log_date al = date)) logs
    ≫= (λ al, with_activity al
                <$> List.filter (λ fa, bool_decide (l_activity_id al = a_id fa))
                                acts) in
  NoDup ((λ x, l_activity_id (la_log x)) <$> rows)
  ∧ ∀ k, k ∈ (λ x, l_activity_id (la_log x)) <$> rows →
         (k, date) ∈ (λ r, (l_activity_id r, l_log_date r)) <$> logs.
Proof.
  intros Hacts. induction logs as [|al logs IH]; cbn.
  - intros _. split; [constructor|]. intros k Hk. by apply elem_of_nil in Hk.
  - intros [Hal Hlogs]%NoDup_cons. destruct (IH Hlogs) as [IHnodup IHin].
    destruct (bool_decide (l_user_id al = userId)
              && bool_decide (l_log_date al = date)) eqn:Hkeep; cbn.
    2:{ split; [done|]. intros k Hk. right. by apply IHin. }
    apply andb_true_iff in Hkeep as [_ Hdate%bool_decide_eq_true].
    rewrite fmap_app, <- list_fmap_compose.
    pose proof (List_filter_key_unique a_id (l_activity_id al) acts Hacts)
      as Hone.
    destruct (List.filter _ acts) as [|fa [|fa' rest]]; cbn in Hone |- *;
      [split; [done|]; intros k Hk; right; by apply IHin | | lia].
    split.
    + constructor; [|done]. intros Hin. apply Hal.
      rewrite Hdate. by apply IHin.
    + intros k [->|Hk]%elem_of_cons.
      * apply elem_of_cons. left. cbn. by rewrite Hdate.
      * right. by apply IHin.
Qed.

(** [getActivityLogsForDate] never throws and writes nothing.  Its rows are
    the logs of the user on the date, each joined with every activity that
    has the id the log names, active or not and whoever owns it.  In a store
    that meets the constraints of the schema no two rows are of the same
    activity. *)
Theorem getActivityLogsForDate_spec (userId : Z) (date : string) (w : world) :
  ∃ rows,
    getActivityLogsForDate userId date w = (w, Return rows)
    ∧ (∀ x, x ∈ rows ↔
            ∃ al fa,
              al ∈ activity_logs (db w) ∧ fa ∈ fitness_activities (db w)
              ∧ l_user_id al = userId ∧ l_log_date al = date
              ∧ a_id fa = l_activity_id al
              ∧ x = with_activity al fa)
    ∧ (constraints_hold (db w) →
       NoDup ((λ x, l_activity_id (la_log x)) <$> rows)).
Proof.
  eexists. split; [apply getActivityLogsForDate_eq|]. split.
  - intros x. rewrite list_elem_of_bind. split.
    + intros (al & (fa & -> & Hfa)%list_elem_of_fmap & Hal).
      apply elem_of_List_filter in Hal as [Hal Hkeep].
      apply andb_true_iff in Hkeep
        as [Huser%bool_decide_eq_true Hdate%bool_decide_eq_true].
      apply elem_of_List_filter in Hfa as [Hfa Hid%bool_decide_eq_true].
      by exists al, fa.
    + intros (al & fa & Hal & Hfa & Huser & Hdate & Hid & ->).
      exists al. split.
      * apply list_elem_of_fmap_2, elem_of_List_filter.
        split; [done|]. by apply bool_decide_eq_true.
      * apply elem_of_List_filter. split; [done|].
        apply andb_true_iff. by rewrite !bool_decide_eq_true.
  - intros Hwf.
    apply (joined_activity_ids date userId _ _
             (activities_id_unique _ Hwf) (logs_key_unique _ Hwf)).
Qed.

Lemma List_filter_all {A} (p : A → bool) (l : list A) :
  (∀ x, x ∈ l → p x = true) → List.filter p l = l.
Proof.
  induction l as [|y l IH]; cbn; [done|]. intros Hall.
  rewrite (Hall y) by left. f_equal. apply IH. intros x Hx. apply Hall. by right.
Qed.

Lemma List_filter_comm {A} (p q : A → bool) (l : list A) :
  List.filter p (List.filter q l) = List.filter q (List.filter p l).
Proof.
  induction l as [|x l IH]; cbn; [done|].
  destruct (p x) eqn:Hp, (q x) eqn:Hq; cbn; rewrite ?Hp, ?Hq, IH; done.
Qed.

Lemma List_filter_bind {A B} (p : A → bool) (q : B → bool) (g : A → list B)
    (l : list A) :
  (∀ a x, x ∈ g a → q x = p a) →
  List.filter q (l ≫= g) = List.filter p l ≫= g.
Proof.
  intros Hg. induction l as [|a l IH]; cbn; [done|].
  rewrite List.filter_app, IH. destruct (p a) eqn:Hp; cbn.
  - rewrite List_filter_all; [done|]. intros x Hx. by rewrite (Hg a x Hx).
  - rewrite List_filter_nil; [done|]. intros x Hx. by rewrite (Hg a x Hx).
Qed.

Section LogsOfADay.

Context `{Platform}.

Lemma logActivity_full (userId activityId : Z) (date : string)
    (completed : bool) (actualValue : option Z) (notes : option string)
    (w : world) :
  ∃ w1,
    logActivity userId activityId date completed actualValue notes w
    = (w1, Return tt)
    ∧ activity_logs (db w1)
      = List.filter (λ r, negb (bool_decide (l_activity_id r = activityId)
                                && bool_decide (l_log_date r = date)))
                    (activity_logs (db w))
        ++ [{| l_id := next_rowid (db w) "activity_logs"
                         (l_id <$> activity_logs (db w));
               l_activity_id := activityId; l_user_id := userId;
               l_completed := if completed then 1 else 0;
               l_actual_value := actualValue; l_notes := notes;
               l_log_date := date; l_logged_at := sql_time (ticks w) |}]
    ∧ users (db w1) = users (db w)
    ∧ user_profiles (db w1) = user_profiles (db w)
    ∧ fitness_activities (db w1) = fitness_activities (db w)
    ∧ ticks w1 = S (ticks w).
Proof.
  eexists. split; [reflexivity|]. cbn. split; [|done]. f_equal.
  apply List_filter_ext_all. intros r.
  repeat case_bool_decide; simpl; congruence.
Qed.

(** [logActivity] never throws.  When the activity exists,
    [getActivityLogsForDate] for the user and the date then has the log
    just written, joined with the activity, with the flag, value and notes
    of the call, and has no other log of that activity. *)
Theorem logActivity_then_listed (userId activityId : Z) (date : string)
    (completed : bool) (actualValue : option Z) (notes : option string)
    (w : world) (fa : activity_row) :
  fa ∈ fitness_activities (db w) → a_id fa = activityId →
  ∃ w1 al rows,
    logActivity userId activityId date completed actualValue notes w
    = (w1, Return tt)
    ∧ getActivityLogsForDate userId date w1 = (w1, Return rows)
    ∧ with_activity al fa ∈ rows
    ∧ l_user_id al = userId ∧ l_activity_id al = activityId
    ∧ l_log_date al = date
    ∧ l_completed al = (if completed then 1 else 0)
    ∧ l_actual_value al = actualValue ∧ l_notes al = notes
    ∧ ∀ x, x ∈ rows → l_activity_id (la_log x) = activityId → la_log x = al.
Proof.
  intros Hfa Hid.
  destruct (logActivity_full userId activityId date completed actualValue
              notes w) as (w1 & Hrun & Hlogs & _ & _ & Hacts & _).
  destruct (getActivityLogsForDate_spec userId date w1)
    as (rows & Hrows & Hin & _).
  eexists w1, _, rows. split; [done|]. split; [done|]. split.
  { apply Hin. eexists _, fa. rewrite Hlogs, Hacts.
    split; [apply elem_of_app; right; by left|]. by repeat split. }
  do 6 (split; [reflexivity|]).
  intros x (al & fa' & Hal & _ & _ & Hdate & _ & ->)%Hin Hact. cbn in *.
  rewrite Hlogs in Hal. apply elem_of_app in Hal as [Hal|Hal].
  - apply elem_of_List_filter in Hal as [_ Hkept].
    by rewrite !bool_decide_eq_true_2 in Hkept.
  - by apply list_elem_of_singleton in Hal.
Qed.

(** What [logActivity] does to the other readings of the logs: every
    table but [activity_logs] is left as it was, and
    [getActivityLogsForDate] for another user or another date gives what
    it gave before, less the logs of the activity on the date of the
    call, which the statement has replaced. *)
Theorem logActivity_frame (userId activityId : Z) (date : string)
    (completed : bool) (actualValue : option Z) (notes : option string)
    (w : world) :
  ∃ w1,
    logActivity userId activityId date completed actualValue notes w
    = (w1, Return tt)
    ∧ users (db w1) = users (db w)
    ∧ user_profiles (db w1) = user_profiles (db w)
    ∧ fitness_activities (db w1) = fitness_activities (db w)
    ∧ ∀ u d rows,
        (u, d) ≠ (userId, date) →
        getActivityLogsForDate u d w = (w, Return rows) →
        getActivityLogsForDate u d w1
        = (w1, Return
                 (List.filter
                    (λ x, negb (bool_decide (l_activity_id (la_log x) = activityId)
                                && bool_decide (l_log_date (la_log x) = date)))
                    rows)).
Proof.
  destruct (logActivity_full userId activityId date completed actualValue
              notes w) as (w1 & Hrun & Hlogs & Hu & Hp & Hacts & _).
  exists w1. do 4 (split; [done|]).
  intros u d rows Hother. rewrite !getActivityLogsForDate_eq.
  intros [= <-]. do 2 f_equal.
  rewrite Hlogs, Hacts, List.filter_app. cbn.
  replace (bool_decide (userId = u) && bool_decide (date = d)) with false.
  2:{ symmetry. apply andb_false_iff.
      rewrite !bool_decide_eq_false. 
      destruct (decide (userId = u)) as [->|]; [|by left].
      right. congruence. }
  rewrite app_nil_r, List_filter_comm. symmetry. apply List_filter_bind.
  intros al x (fa & -> & _)%list_elem_of_fmap. done.
Qed.

End LogsOfADay.

(** A log of the activity of the examples. *)
Lemma logActivity_then_listed_witness :
  ∃ w1 al rows,
    @logActivity demo_platform 1 1 "2024-01-02" true (Some 30) None
      (boot one_activity_db) = (w1, Return tt)
    ∧ getActivityLogsForDate 1 "2024-01-02" w1 = (w1, Return rows)
    ∧ l_completed al = 1 ∧ l_actual_value al = Some 30
    ∧ (∀ x, x ∈ rows → l_activity_id (la_log x) = 1 → la_log x = al).
Proof.
  destruct (@logActivity_then_listed demo_platform 1 1 "2024-01-02" true
              (Some 30) None (boot one_activity_db)
              {| a_id := 1; a_user_id := 1; a_name := "Cardio";
                 a_description := None; a_icon := None;
                 a_target_value := Some 30; a_target_unit := Some "minutes";
                 a_category := Some "exercise"; a_is_active := 1;
                 a_created_at := "2024-01-01 00:00:00" |}
              ltac:(left) eq_refl)
    as (w1 & al & rows & Hrun & Hrows & _ & _ & _ & _ & Hc & Hv & _ & Honly).
  exists w1, al, rows.
  split; [exact Hrun|]. split; [exact Hrows|]. split; [exact Hc|].
  split; [exact Hv | exact Honly].
Defined.

(** ** The statistics *)

Lemma left_join_cons (on : activity_row → log_row → bool) fa fas als :
  left_join on (fa :: fas) als = left_join on [fa] als ++ left_join on fas als.
Proof. unfold left_join. cbn. by rewrite app_nil_r. Qed.

Lemma left_join_one (on : activity_row → log_row → bool) fa als :
  left_join on [fa] als
  = match List.filter (on fa) als with
    | [] => [(fa, None)]
    | matched => (λ al, (fa, Some al)) <$> matched
    end.
Proof. unfold left_join. cbn. by rewrite app_nil_r. Qed.

Lemma left_join_one_fst (on : activity_row → log_row → bool) fa als jr :
  jr ∈ left_join on [fa] als → fst jr = fa.
Proof.
  rewrite left_join_one. destruct (List.filter _ _) as [|al m].
  - by intros ->%list_elem_of_singleton.
  - by intros (al' & -> & _)%list_elem_of_fmap.
Qed.

Lemma left_join_one_not_nil (on : activity_row → log_row → bool) fa als :
  ∃ ol rest, left_join on [fa] als = (fa, ol) :: rest.
Proof.
  rewrite left_join_one. destruct (List.filter _ _) as [|al m]; cbn; eauto.
Qed.

(** Every activity has a row in the join, and the join has rows of the
    activities only. *)
Lemma left_join_fst (on : activity_row → log_row → bool) fas als fa :
  fa ∈ fst <$> left_join on fas als ↔ fa ∈ fas.
Proof.
  induction fas as [|fa' fas IH].
  - cbn. split; intros Hin; by apply elem_of_nil in Hin.
  - rewrite left_join_cons, fmap_app, elem_of_app, IH, elem_of_cons.
    split; (intros [Hhere|Hlater]; [left|by right]).
    + apply list_elem_of_fmap in Hhere as (jr & -> & Hjr).
      by apply left_join_one_fst in Hjr.
    + subst fa'. destruct (left_join_one_not_nil on fa als) as (ol & rest & ->).
      cbn. left.
Qed.

(** One row comes out of each group, under the id of the group. *)
Lemma aggregate_groups_ids (kept : list (activity_row * option log_row))
    (ks : list Z) :
  (∀ k, k ∈ ks → k ∈ (λ jr, a_id (fst jr)) <$> kept) →
  st_id <$> omap aggregate
              ((λ k, List.filter (λ jr, a_id (fst jr) =? k) kept) <$> ks)
  = ks.
Proof.
  induction ks as [|k ks IH]; [done|]. intros Hks. cbn.
  assert (Hk0 : k ∈ (λ jr, a_id (fst jr)) <$> kept) by (apply Hks; left).
  apply list_elem_of_fmap in Hk0 as (jr & Hk & Hjr).
  assert (Hin : jr ∈ List.filter (λ jr, a_id (fst jr) =? k) kept).
  { apply elem_of_List_filter. split; [done|]. cbn. apply Z.eqb_eq. done. }
  destruct (List.filter _ kept) as [|[fa ol] g] eqn:Hg;
    [by apply elem_of_nil in Hin|].
  assert (Hhead : (fa, ol) ∈ List.filter (λ jr, a_id (fst jr) =? k) kept)
    by (rewrite Hg; left).
  apply elem_of_List_filter in Hhead as [_ Hid%Z.eqb_eq].
  cbn. rewrite IH; [by f_equal|]. intros k' Hk'. apply Hks. by right.
Qed.

Lemma getActivityStats_ids (userId : Z) (startDate endDate : string) (w : world) :
  ∃ rows kept,
    getActivityStats userId startDate endDate w = (w, Return rows)
    ∧ kept = List.filter
               (λ jr, bool_decide (a_user_id (fst jr) = userId)
                      && bool_decide (a_is_active (fst jr) = 1))
               (left_join (λ fa al, bool_decide (a_id fa = l_activity_id al)
                                    && between startDate endDate (l_log_date al))
                          (fitness_activities (db w)) (activity_logs (db w)))
    ∧ rows = omap aggregate (group_by_id kept)
    ∧ st_id <$> rows = remove_dups ((λ jr, a_id (fst jr)) <$> kept).
Proof.
  eexists _, _. split; [apply getActivityStats_eq|]. split; [reflexivity|].
  split; [reflexivity|]. unfold group_by_id. apply aggregate_groups_ids.
  intros k. by rewrite elem_of_remove_dups.
Qed.





Lemma List_filter_fmap_length {A B} (q : B → bool) (f : A → B) (l : list A) :
  List.length (List.filter q (f <$> l))
  = List.length (List.filter (λ x, q (f x)) l).
Proof.
  induction l as [|x l IH]; cbn; [done|].
  destruct (q (f x)); cbn; by rewrite IH.
Qed.

(** With unique ids the group of an activity is made of its own rows. *)
Lemma group_of_activity (on : activity_row → log_row → bool)
    (fas : list activity_row) (als : list log_row) (fa : activity_row) :
  NoDup (a_id <$> fas) → fa ∈ fas →
  List.filter (λ jr, a_id (fst jr) =? a_id fa) (left_join on fas als)
  = left_join on [fa] als.
Proof.
  induction fas as [|fa' fas IH]; intros Hnodup Hin.
  - by apply elem_of_nil in Hin.
  - cbn in Hnodup. apply NoDup_cons in Hnodup as [Hfresh Hnodup].
    rewrite left_join_cons, List.filter_app.
    apply elem_of_cons in Hin as [->|Hin].
    + rewrite List_filter_all, List_filter_nil; [by rewrite app_nil_r| |].
      * intros jr Hjr. apply Z.eqb_neq. intros Hid. apply Hfresh.
        rewrite <- Hid. apply (list_elem_of_fmap_2 a_id).
        eapply left_join_fst. exact (list_elem_of_fmap_2 fst _ _ Hjr).
      * intros jr ->%left_join_one_fst. apply Z.eqb_refl.
    + rewrite List_filter_nil, IH; [done..|].
      intros jr ->%left_join_one_fst. apply Z.eqb_neq. intros Hid.
      apply Hfresh. rewrite Hid. by apply list_elem_of_fmap_2.
Qed.

Lemma NoDup_fmap_eq {A B} (f : A → B) (l : list A) (x y : A) :
  NoDup (f <$> l) → x ∈ l → y ∈ l → f x = f y → x = y.
Proof.
  induction l as [|z l IH]; cbn.
  - intros _ Hx. by apply elem_of_nil in Hx.
  - intros [Hz Hl]%NoDup_cons [->|Hx]%elem_of_cons [->|Hy]%elem_of_cons Hxy.
    + done.
    + destruct Hz. rewrite Hxy. by apply list_elem_of_fmap_2.
    + destruct Hz. rewrite <- Hxy. by apply list_elem_of_fmap_2.
    + by apply IH.
Qed.

(** The counts, in a store where no two activities share an id.  For an
    active activity of the user there is exactly one row.  It carries the
    name and the category of the activity; [completed_count] is the number
    of logs of the activity dated in the range that are completed, logged by
    whichever user; [total_count] is the number of its logs dated in the
    range, but 1 when there is none. *)
Theorem getActivityStats_counts
    (userId : Z) (startDate endDate : string) (w : world) (fa : activity_row) :
  NoDup (a_id <$> fitness_activities (db w)) →
  fa ∈ fitness_activities (db w) → a_user_id fa = userId → a_is_active fa = 1 →
  ∃ rows row,
    getActivityStats userId startDate endDate w = (w, Return rows)
    ∧ row ∈ rows
    ∧ (∀ row', row' ∈ rows → st_id row' = a_id fa → row' = row)
    ∧ st_id row = a_id fa
    ∧ st_name row = a_name fa
    ∧ st_category row = a_category fa
    ∧ completed_count row
      = Z.of_nat (List.length
                    (completed_logs
                       (logs_in_range (a_id fa) startDate endDate (db w))))
    ∧ total_count row
      = Z.max 1 (Z.of_nat (List.length
                             (logs_in_range (a_id fa) startDate endDate (db w)))).
Proof.
  intros Hnodup Hfa Huser Hactive.
  destruct (getActivityStats_ids userId startDate endDate w)
    as (rows & kept & Hrun & Hkept & Hrows & Hids).
  set (on := λ (fa : activity_row) (al : log_row),
         bool_decide (a_id fa = l_activity_id al)
         && between startDate endDate (l_log_date al)) in *.
  assert (Hgroup :
    List.filter (λ jr, a_id (fst jr) =? a_id fa) kept
    = left_join on [fa] (activity_logs (db w))).
  { rewrite Hkept, List_filter_comm, group_of_activity by done.
    apply List_filter_all. intros jr ->%left_join_one_fst.
    by rewrite !bool_decide_eq_true_2. }
  assert (Hmatched :
    List.filter (on fa) (activity_logs (db w))
    = logs_in_range (a_id fa) startDate endDate (db w)).
  { apply List_filter_ext_all. intros al. unfold on.
    by rewrite (bool_decide_ext (a_id fa = l_activity_id al)
                  (l_activity_id al = a_id fa)). }
  assert (Hin : ∀ row, aggregate (left_join on [fa] (activity_logs (db w)))
                       = Some row → row ∈ rows).
  { intros row Hrow. rewrite Hrows. apply list_elem_of_omap.
    eexists. split; [|exact Hrow]. rewrite <- Hgroup. unfold group_by_id.
    apply (list_elem_of_fmap_2
             (λ k, List.filter (λ jr, a_id (fst jr) =? k) kept)).
    apply elem_of_remove_dups.
    destruct (left_join_one_not_nil on fa (activity_logs (db w)))
      as (ol & rest & Hjoin).
    apply (list_elem_of_fmap_2 (λ jr, a_id (fst jr)) kept (fa, ol)).
    assert (Hhead : (fa, ol) ∈ List.filter (λ jr, a_id (fst jr) =? a_id fa) kept)
      by (rewrite Hgroup, Hjoin; left).
    by apply elem_of_List_filter in Hhead as [? _]. }
  assert (Hunique : ∀ row row', row ∈ rows → row' ∈ rows →
                                st_id row' = st_id row → row' = row).
  { intros row row' Hrow Hrow' Hid.
    apply (NoDup_fmap_eq st_id rows); [|done..].
    rewrite Hids. apply NoDup_remove_dups. }
  rewrite left_join_one, Hmatched in Hin.
  exists rows.
  destruct (logs_in_range (a_id fa) startDate endDate (db w)) as [|al m].
  - eexists. split; [done|]. split; [by apply Hin|].
    split; [|done]. intros row' Hrow' Hid. apply Hunique; [by apply Hin|done..].
  - eexists. split; [done|]. split; [by apply Hin|].
    split. { intros row' Hrow' Hid. apply Hunique; [by apply Hin|done..]. }
    cbn [st_id st_name st_category completed_count total_count].
    do 3 (split; [done|]). split.
    + f_equal. unfold completed_logs.
      rewrite (List_filter_fmap_length (λ jr, completed_is_1 (snd jr))
                 (λ al, (fa, Some al)) (al :: m)).
      f_equal. apply List_filter_ext_all. intros al'. cbn -[holds sql_eq].
      apply holds_sql_eq_num.
    + rewrite length_fmap. cbn [List.length]. lia.
Qed.

(** The activity of the examples, with its log of 2023. *)
Lemma getActivityStats_counts_witness :
  ∃ rows row,
    getActivityStats 1 "2023-01-01" "2023-12-31" (boot logged_in_2023_db)
    = (boot logged_in_2023_db, Return rows)
    ∧ row ∈ rows ∧ st_id row = 1
    ∧ completed_count row = 1 ∧ total_count row = 1.
Proof.
  destruct (getActivityStats_counts 1 "2023-01-01" "2023-12-31"
              (boot logged_in_2023_db)
              {| a_id := 1; a_user_id := 1; a_name := "Cardio";
                 a_description := None; a_icon := None;
                 a_target_value := Some 30; a_target_unit := Some "minutes";
                 a_category := Some "exercise"; a_is_active := 1;
                 a_created_at := "2024-01-01 00:00:00" |}
              ltac:(apply NoDup_singleton) ltac:(left) eq_refl eq_refl)
    as (rows & row & Hrun & Hrow & _ & Hid & _ & _ & Hcompleted & Htotal).
  exists rows, row. split; [exact Hrun|]. split; [exact Hrow|].
  split; [exact Hid|]. split; [exact Hcompleted | exact Htotal].
Defined.

(** ** Workout sessions and body measurements *)

Lemma session_date_desc_transitive : Transitive session_date_desc.
Proof. intros a b c Hab Hbc. unfold session_date_desc in *. by etransitivity. Qed.

Lemma session_date_desc_total : Total session_date_desc.
Proof. intros a b. unfold session_date_desc. apply (total String.le). Qed.

Lemma measurement_date_desc_transitive : Transitive measurement_date_desc.
Proof. intros a b c Hab Hbc. unfold measurement_date_desc in *. by etransitivity. Qed.

Lemma measurement_date_desc_total : Total measurement_date_desc.
Proof. intros a b. unfold measurement_date_desc. apply (total String.le). Qed.

Lemma between_le (lo hi x : string) :
  between lo hi x = true ↔ String.le lo x ∧ String.le x hi.
Proof.
  unfold between, String.le. rewrite andb_true_iff.
  by rewrite !Is_true_true.
Qed.

(** [getWorkoutSessions] gives the sessions of the user dated from
    [startDate] to [endDate], both included, each as often as the table
    holds it, from the latest date to the earliest. *)
Theorem getWorkoutSessions_spec (userId : Z) (startDate endDate : string)
    (t : tracking) :
  getWorkoutSessions userId startDate endDate t
    ≡ₚ List.filter (λ r, bool_decide (s_user_id r = userId)
                         && between startDate endDate (s_session_date r))
                   (workout_sessions t)
  ∧ StronglySorted session_date_desc
      (getWorkoutSessions userId startDate endDate t)
  ∧ ∀ r, r ∈ getWorkoutSessions userId startDate endDate t ↔
         r ∈ workout_sessions t ∧ s_user_id r = userId
         ∧ String.le startDate (s_session_date r)
         ∧ String.le (s_session_date r) endDate.
Proof.
  unfold getWorkoutSessions.
  rewrite (List_filter_ext_all _
             (λ r, bool_decide (s_user_id r = userId)
                   && between startDate endDate (s_session_date r)))
    by (intros r; by rewrite holds_sql_eq_num).
  split; [apply merge_sort_Permutation|]. split.
  - apply (@StronglySorted_merge_sort _ session_date_desc _
             session_date_desc_transitive session_date_desc_total).
  - intros r. rewrite merge_sort_Permutation, elem_of_List_filter.
    rewrite andb_true_iff, bool_decide_eq_true, between_le. tauto.
Qed.

Lemma getBodyMeasurements_eq (userId : Z) (limit : option Z) (t : tracking) :
  getBodyMeasurements userId limit t
  = limit_rows (default 30 limit)
      (merge_sort measurement_date_desc
         (List.filter (λ r, bool_decide (m_user_id r = userId))
                      (body_measurements t))).
Proof.
  unfold getBodyMeasurements. do 2 f_equal.
  apply List_filter_ext_all. intros r. apply holds_sql_eq_num.
Qed.

(** [getBodyMeasurements] gives the measurements of the user from the
    latest date to the earliest and stops after [limit] rows, 30 when the
    caller names no limit; a negative limit is none.  What it leaves out is
    no later than what it gives. *)
Theorem getBodyMeasurements_spec (userId : Z) (limit : option Z) (t : tracking) :
  ∃ rest,
    getBodyMeasurements userId limit t ++ rest
      ≡ₚ List.filter (λ r, bool_decide (m_user_id r = userId))
                     (body_measurements t)
    ∧ StronglySorted measurement_date_desc
        (getBodyMeasurements userId limit t ++ rest)
    ∧ (default 30 limit < 0 → rest = [])
    ∧ (0 ≤ default 30 limit →
       List.length (getBodyMeasurements userId limit t)
       = Nat.min (Z.to_nat (default 30 limit))
                 (List.length
                    (List.filter (λ r, bool_decide (m_user_id r = userId))
                                 (body_measurements t)))).
Proof.
  rewrite getBodyMeasurements_eq. unfold limit_rows.
  set (sorted := merge_sort _ _).
  assert (Hperm : sorted ≡ₚ List.filter (λ r, bool_decide (m_user_id r = userId))
                                        (body_measurements t))
    by apply merge_sort_Permutation.
  assert (Hsorted : StronglySorted measurement_date_desc sorted)
    by apply (@StronglySorted_merge_sort _ measurement_date_desc _
                measurement_date_desc_transitive measurement_date_desc_total).
  destruct (Z.ltb_spec (default 30 limit) 0) as [Hneg|Hpos].
  - exists []. rewrite app_nil_r. split; [done|]. split; [done|].
    split; [done|]. lia.
  - exists (drop (Z.to_nat (default 30 limit)) sorted). rewrite take_drop.
    split; [done|]. split; [done|]. split; [lia|]. intros _.
    by rewrite length_take, <- Hperm.
Qed.

Section TrackingProperties.

Context `{Platform}.

(** [createWorkoutSession] adds one row with the fields of the form, under
    an id larger than every id of the table, and returns that id; it asks
    for no uniqueness, so that a user can have several sessions on a day.
    [getWorkoutSessions] then gives the user, for a range that holds the
    date of the session, the rows it gave before and the new row; it gives
    what it gave before to another user and for a range that does not
    hold the date. *)
Theorem createWorkoutSession_then_listed (userId : Z)
    (sessionData : session_data) (w : world) (t : tracking) :
  ∃ rowid row w1 t1,
    createWorkoutSession userId sessionData (w, t) = ((w1, t1), rowid)
    ∧ s_id row = rowid ∧ s_user_id row = userId
    ∧ s_workout_type row = workout_type sessionData
    ∧ s_duration_minutes row = duration_minutes sessionData
    ∧ s_calories_burned row = calories_burned sessionData
    ∧ s_intensity row = intensity sessionData
    ∧ s_notes row = notes sessionData
    ∧ s_session_date row = session_date sessionData
    ∧ (∀ r, r ∈ workout_sessions t → s_id r < rowid)
    ∧ workout_sessions t1 = workout_sessions t ++ [row]
    ∧ body_measurements t1 = body_measurements t
    ∧ ∀ u startDate endDate,
        getWorkoutSessions u startDate endDate t1
        ≡ₚ getWorkoutSessions u startDate endDate t
           ++ (if bool_decide (u = userId)
                  && between startDate endDate (session_date sessionData)
               then [row] else []).
Proof.
  set (rowid := next_rowid (db w) "workout_sessions"
                  (s_id <$> workout_sessions t)).
  exists rowid,
    {| s_id := rowid; s_user_id := userId;
       s_workout_type := workout_type sessionData;
       s_duration_minutes := duration_minutes sessionData;
       s_calories_burned := calories_burned sessionData;
       s_intensity := intensity sessionData; s_notes := notes sessionData;
       s_session_date := session_date sessionData;
       s_created_at := sql_time (ticks w) |}.
  eexists _, _. split; [reflexivity|].
  do 8 (split; [reflexivity|]). split.
  { intros r Hr. apply next_rowid_fresh. by apply list_elem_of_fmap_2. }
  do 2 (split; [reflexivity|]).
  intros u startDate endDate. unfold getWorkoutSessions.
  rewrite !merge_sort_Permutation. cbn [workout_sessions].
  rewrite List.filter_app. cbn [List.filter s_user_id s_session_date].
  rewrite holds_sql_eq_num.
  rewrite (bool_decide_ext (userId = u) (u = userId)) by done.
  by destruct (bool_decide (u = userId) && between _ _ _).
Qed.

(** [addBodyMeasurement] adds one row with the fields of the form, under
    an id larger than every id of the table, and returns that id.  Read
    without a limit, the measurements of the user are then those of before
    and the new one; read with the limit of 30 that [getBodyMeasurements]
    has by default, they hold the new one when the user had fewer than 30
    before. *)
Theorem addBodyMeasurement_then_listed (userId : Z)
    (measurementData : measurement_data) (w : world) (t : tracking) :
  ∃ rowid row w1 t1,
    addBodyMeasurement userId measurementData (w, t) = ((w1, t1), rowid)
    ∧ m_id row = rowid ∧ m_user_id row = userId
    ∧ m_weight row = measured_weight measurementData
    ∧ m_body_fat_percentage row = body_fat_percentage measurementData
    ∧ m_muscle_mass row = muscle_mass measurementData
    ∧ m_waist_circumference row = waist_circumference measurementData
    ∧ m_measurement_date row = measurement_date measurementData
    ∧ (∀ r, r ∈ body_measurements t → m_id r < rowid)
    ∧ body_measurements t1 = body_measurements t ++ [row]
    ∧ workout_sessions t1 = workout_sessions t
    ∧ (∀ u, getBodyMeasurements u (Some (-1)) t1
            ≡ₚ getBodyMeasurements u (Some (-1)) t
               ++ (if bool_decide (u = userId) then [row] else []))
    ∧ ((List.length (List.filter (λ r, bool_decide (m_user_id r = userId))
                                 (body_measurements t)) < 30)%nat →
       row ∈ getBodyMeasurements userId None t1).
Proof.
  set (rowid := next_rowid (db w) "body_measurements"
                  (m_id <$> body_measurements t)).
  exists rowid,
    {| m_id := rowid; m_user_id := userId;
       m_weight := measured_weight measurementData;
       m_body_fat_percentage := body_fat_percentage measurementData;
       m_muscle_mass := muscle_mass measurementData;
       m_waist_circumference := waist_circumference measurementData;
       m_measurement_date := measurement_date measurementData;
       m_created_at := sql_time (ticks w) |}.
  eexists _, _. split; [reflexivity|].
  do 7 (split; [reflexivity|]). split.
  { intros r Hr. apply next_rowid_fresh. by apply list_elem_of_fmap_2. }
  do 2 (split; [reflexivity|]). split.
  - intros u. rewrite !getBodyMeasurements_eq. unfold limit_rows. cbn.
    rewrite !merge_sort_Permutation, List.filter_app. cbn.
    rewrite (bool_decide_ext (userId = u) (u = userId)) by done.
    by destruct (bool_decide (u = userId)).
  - intros Hfew. rewrite getBodyMeasurements_eq. unfold limit_rows. cbn.
    rewrite take_ge.
    + rewrite merge_sort_Permutation, List.filter_app. cbn.
      rewrite bool_decide_eq_true_2 by done.
      apply elem_of_app. right. left.
    + rewrite merge_sort_Permutation, List.filter_app, length_app. cbn.
      rewrite bool_decide_eq_true_2 by done. cbn. lia.
Qed.

End TrackingProperties.

(** ** clearUserData *)

Lemma List_filter_idem {A} (p : A → bool) (l : list A) :
  List.filter p (List.filter p l) = List.filter p l.
Proof.
  apply List_filter_all. by intros x [_ Hx]%elem_of_List_filter.
Qed.

Lemma List_filter_none_after {A} (p q : A → bool) (l : list A) :
  (∀ x, q x = true → p x = false) → List.filter p (List.filter q l) = [].
Proof.
  intros Hpq. apply List_filter_nil.
  intros x [_ Hx]%elem_of_List_filter. by apply Hpq.
Qed.

Lemma List_filter_same_after {A} (p q : A → bool) (l : list A) :
  (∀ x, p x = true → q x = true) →
  List.filter p (List.filter q l) = List.filter p l.
Proof.
  intros Hpq. induction l as [|x l IH]; cbn; [done|].
  destruct (q x) eqn:Hq, (p x) eqn:Hp; cbn; rewrite ?Hp, ?IH; try done.
  by rewrite (Hpq x Hp) in Hq.
Qed.

Lemma clearUserData_eq (userId : Z) (w : world) (t : tracking) :
  clearUserData userId (w, t)
  = (set_db w
       {| users := users (db w);
          user_profiles :=
            List.filter (λ r, negb (bool_decide (p_user_id r = userId)))
                        (user_profiles (db w));
          fitness_activities :=
            List.filter (λ r, negb (bool_decide (a_user_id r = userId)))
                        (fitness_activities (db w));
          activity_logs :=
            List.filter (λ r, negb (bool_decide (l_user_id r = userId)))
                        (activity_logs (db w));
          sqlite_sequence := sqlite_sequence (db w) |},
     {| workout_sessions :=
          List.filter (λ r, negb (bool_decide (s_user_id r = userId)))
                      (workout_sessions t);
        body_measurements :=
          List.filter (λ r, negb (bool_decide (m_user_id r = userId)))
                      (body_measurements t) |}).
Proof.
  unfold clearUserData, set_db, set_user_profiles, set_fitness_activities,
    set_activity_logs.
  cbn -[holds sql_eq].
  f_equal; [do 2 f_equal | f_equal]; apply List_filter_ext_all; intros r;
    by rewrite holds_sql_eq_num.
Qed.

(** [clearUserData] empties the five tables of the rows of the user and
    keeps, in their order, the rows of every other user.  It leaves [users]
    alone, and the session with it: the account stays, and so does the
    signed-in user.  The constraints of the schema hold afterwards when they
    held before, and clearing a second time changes nothing. *)
Theorem clearUserData_effects (userId : Z) (w : world) (t : tracking) :
  ∃ w1 t1,
    clearUserData userId (w, t) = (w1, t1)
    ∧ (∀ r, r ∈ activity_logs (db w1) ↔
            r ∈ activity_logs (db w) ∧ l_user_id r ≠ userId)
    ∧ (∀ r, r ∈ fitness_activities (db w1) ↔
            r ∈ fitness_activities (db w) ∧ a_user_id r ≠ userId)
    ∧ (∀ r, r ∈ workout_sessions t1 ↔
            r ∈ workout_sessions t ∧ s_user_id r ≠ userId)
    ∧ (∀ r, r ∈ body_measurements t1 ↔
            r ∈ body_measurements t ∧ m_user_id r ≠ userId)
    ∧ (∀ r, r ∈ user_profiles (db w1) ↔
            r ∈ user_profiles (db w) ∧ p_user_id r ≠ userId)
    ∧ users (db w1) = users (db w)
    ∧ asyncStorage w1 = asyncStorage w
    ∧ currentUser w1 = currentUser w
    ∧ (constraints_hold (db w) → constraints_hold (db w1))
    ∧ clearUserData userId (w1, t1) = (w1, t1).
Proof.
  eexists _, _. split; [apply clearUserData_eq|].
  assert (Hother : ∀ {A} (f : A → Z) (l : list A) (r : A),
            r ∈ List.filter (λ r, negb (bool_decide (f r = userId))) l
            ↔ r ∈ l ∧ f r ≠ userId).
  { intros A f l r.
    by rewrite elem_of_List_filter, negb_true_iff, bool_decide_eq_false. }
  do 5 (split; [cbn; apply Hother|]). do 3 (split; [done|]). split.
  - intros [? ? ? ? ? ? ?]. split; cbn; try done;
      by apply NoDup_fmap_List_filter.
  - rewrite clearUserData_eq. cbn. by rewrite !List_filter_idem.
Qed.

Lemma getActivityStats_no_activity (userId : Z) (startDate endDate : string)
    (w : world) :
  (∀ fa, fa ∈ fitness_activities (db w) → a_user_id fa ≠ userId) →
  getActivityStats userId startDate endDate w = (w, Return []).
Proof.
  intros Hnone.
  destruct (getActivityStats_ids userId startDate endDate w)
    as (rows & kept & Hrun & Hkept & _ & Hids).
  rewrite Hrun. do 2 f_equal. apply (fmap_nil_inv st_id). rewrite Hids.
  replace kept with (@nil (activity_row * option log_row)); [done|].
  rewrite Hkept. symmetry. apply List_filter_nil. intros [fa ol] Hjr. cbn.
  rewrite bool_decide_eq_false_2; [done|]. apply Hnone.
  eapply left_join_fst. exact (list_elem_of_fmap_2 fst _ _ Hjr).
Qed.

(** After [clearUserData] every reading of the user's data comes back
    empty: no activity, no profile, no log on any date, no statistics, no
    workout session, no body measurement.  The activities, the profile, the
    workout sessions and the body measurements of every other user read as
    before. *)
Theorem clearUserData_then_queries (userId : Z) (w : world) (t : tracking) :
  ∃ w1 t1,
    clearUserData userId (w, t) = (w1, t1)
    ∧ getActivitiesByUser userId w1 = (w1, Return [])
    ∧ getUserProfile userId w1 = (w1, Return None)
    ∧ (∀ date, getActivityLogsForDate userId date w1 = (w1, Return []))
    ∧ (∀ startDate endDate,
         getActivityStats userId startDate endDate w1 = (w1, Return []))
    ∧ (∀ startDate endDate,
         getWorkoutSessions userId startDate endDate t1 = [])
    ∧ (∀ limit, getBodyMeasurements userId limit t1 = [])
    ∧ ∀ u, u ≠ userId →
        (∀ rows, getActivitiesByUser u w = (w, Return rows) →
                 getActivitiesByUser u w1 = (w1, Return rows))
        ∧ (∀ o, getUserProfile u w = (w, Return o) →
                getUserProfile u w1 = (w1, Return o))
        ∧ (∀ startDate endDate,
             getWorkoutSessions u startDate endDate t1
             = getWorkoutSessions u startDate endDate t)
        ∧ (∀ limit, getBodyMeasurements u limit t1
                    = getBodyMeasurements u limit t).
Proof.
  eexists _, _. split; [apply clearUserData_eq|].
  assert (Hgone : ∀ {A} (f : A → Z) (q : A → bool) (l : list A),
            List.filter (λ r, bool_decide (f r = userId) && q r)
              (List.filter (λ r, negb (bool_decide (f r = userId))) l) = []).
  { intros A f q l. apply List_filter_none_after.
    intros r ->%negb_true_iff. done. }
  assert (Hkept : ∀ {A} (f : A → Z) (q : A → bool) (l : list A) u,
            u ≠ userId →
            List.filter (λ r, bool_decide (f r = u) && q r)
              (List.filter (λ r, negb (bool_decide (f r = userId))) l)
            = List.filter (λ r, bool_decide (f r = u) && q r) l).
  { intros A f q l u Hu. apply List_filter_same_after.
    intros r [->%bool_decide_eq_true _]%andb_true_iff.
    by apply negb_true_iff, bool_decide_eq_false. }
  split.
  { rewrite getActivitiesByUser_eq. cbn [db set_db fitness_activities].
    unfold listed_for. by rewrite Hgone. }
  split.
  { rewrite getUserProfile_eq. do 2 f_equal. apply find_None_iff.
    intros r [_ Hr]%elem_of_List_filter. by apply negb_true_iff in Hr. }
  split.
  { intros date. rewrite getActivityLogsForDate_eq.
    cbn [db set_db activity_logs]. by rewrite Hgone. }
  split.
  { intros startDate endDate. apply getActivityStats_no_activity.
    intros fa [_ Hfa]%elem_of_List_filter. cbn in Hfa.
    by apply negb_true_iff, bool_decide_eq_false in Hfa. }
  split.
  { intros startDate endDate. unfold getWorkoutSessions. cbn [workout_sessions].
    rewrite (List_filter_ext_all _
               (λ r, bool_decide (s_user_id r = userId)
                     && between startDate endDate (s_session_date r)))
      by (intros r; by rewrite holds_sql_eq_num).
    by rewrite Hgone. }
  split.
  { intros limit. rewrite getBodyMeasurements_eq. cbn [body_measurements].
    rewrite (List_filter_ext_all _
               (λ r, bool_decide (m_user_id r = userId) && true))
      by (intros r; by rewrite andb_true_r).
    rewrite Hgone. unfold limit_rows. cbn. destruct (_ <? 0); [done|].
    apply take_nil. }
  intros u Hu. split; [|split; [|split]].
  - intros rows. rewrite !getActivitiesByUser_eq. intros [= <-].
    cbn [db set_db fitness_activities]. unfold listed_for.
    by rewrite Hkept.
  - intros o. rewrite !getUserProfile_eq. intros [= <-].
    cbn [db set_db user_profiles]. do 2 f_equal.
    apply find_filter_implied. intros r ->%bool_decide_eq_true.
    by apply negb_true_iff, bool_decide_eq_false.
  - intros startDate endDate. unfold getWorkoutSessions. cbn [workout_sessions].
    f_equal.
    rewrite !(List_filter_ext_all
                (λ r, holds (sql_eq (JNum (s_user_id r)) (JNum u))
                      && between startDate endDate (s_session_date r))
                (λ r, bool_decide (s_user_id r = u)
                      && between startDate endDate (s_session_date r)))
      by (intros r; by rewrite holds_sql_eq_num).
    by apply Hkept.
  - intros limit. rewrite !getBodyMeasurements_eq. cbn [body_measurements].
    do 2 f_equal.
    rewrite !(List_filter_ext_all (λ r, bool_decide (m_user_id r = u))
                (λ r, bool_decide (m_user_id r = u) && true))
      by (intros r; by rewrite andb_true_r).
    by apply Hkept.
Qed.

(** ** The screen: today's logs *)

(** A map filled from a list with one entry per key holds what the list
    says. *)
Lemma foldl_insert_lookup {A V} (k : A → Z) (f : A → V) (l : list A)
    (m : gmap Z V) (a : Z) (v : V) :
  NoDup (k <$> l) →
  foldl (λ m x, <[k x := f x]> m) m l !! a = Some v
  ↔ (∃ x, x ∈ l ∧ k x = a ∧ f x = v) ∨ ((a ∉ k <$> l) ∧ m !! a = Some v).
Proof.
  revert m. induction l as [|y l IH]; intros m; cbn.
  - intros _. split.
    + intros Hm. right. split; [apply not_elem_of_nil | done].
    + intros [(x & Hx & _)|[_ Hm]]; [by apply elem_of_nil in Hx | done].
  - intros [Hy Hl]%NoDup_cons. rewrite (IH _ Hl). split.
    + intros [(x & Hx & Hk & Hf)|[Ha Hm]].
      * left. exists x. split; [by right | done].
      * destruct (decide (k y = a)) as [Heq|Hne].
        -- rewrite Heq, lookup_insert_eq in Hm. injection Hm as <-.
           left. exists y. split; [left | done].
        -- rewrite lookup_insert_ne in Hm by done. right. split; [|done].
           rewrite not_elem_of_cons. done.
    + intros [(x & [->|Hx]%elem_of_cons & Hk & Hf)|[Ha Hm]].
      * right. split; [by rewrite <- Hk|].
        by rewrite Hk, lookup_insert_eq, Hf.
      * left. by exists x.
      * apply not_elem_of_cons in Ha as [Hne Ha]. right. split; [done|].
        by rewrite lookup_insert_ne.
Qed.

Section Screen.

Context `{Platform}.

Lemma getTodayDate_eq (w : world) :
  getTodayDate w = (set_ticks w (S (ticks w)), Return (date_at (ticks w))).
Proof. reflexivity. Qed.

Lemma loadData_run (userId : Z) (s : screen) (w : world) :
  ∃ s1,
    loadData userId s w = (set_ticks w (S (ticks w)), Return s1)
    ∧ activities s1 ≡ₚ List.filter (listed_for userId)
                                    (fitness_activities (db w))
    ∧ (constraints_hold (db w) →
       ∀ a v,
         todayLogs s1 !! a = Some v ↔
         ∃ al fa,
           al ∈ activity_logs (db w) ∧ fa ∈ fitness_activities (db w)
           ∧ l_user_id al = userId ∧ l_log_date al = date_at (ticks w)
           ∧ l_activity_id al = a ∧ a_id fa = a
           ∧ v = view_of al).
Proof.
  destruct (getActivityLogsForDate_spec userId (date_at (ticks w))
              (set_ticks w (S (ticks w)))) as (rows & Hrows & Hin & Hnodup).
  eexists. split.
  { unfold loadData, try_catch, bind.
    rewrite getActivitiesByUser_eq, getTodayDate_eq, Hrows. reflexivity. }
  cbn [activities todayLogs]. split; [apply merge_sort_Permutation|].
  intros Hwf a v.
  rewrite (foldl_insert_lookup (λ x, l_activity_id (la_log x))
             (λ x, view_of (la_log x))) by (by apply Hnodup).
  split.
  - intros [(x & Hx & Hk & Hv)|[_ Hempty]]; [|by rewrite lookup_empty in Hempty].
    apply Hin in Hx as (al & fa & Hal & Hfa & Huser & Hdate & Hid & ->).
    cbn in Hk, Hv. exists al, fa. by rewrite Hid.
  - intros (al & fa & Hal & Hfa & Huser & Hdate & Hact & Hid & ->).
    left. exists (with_activity al fa). split; [|done].
    apply Hin. exists al, fa. split_and!; try done. congruence.
Qed.

(** [loadData] always succeeds, reads the clock once and writes nothing
    to the database.  The screen then lists the active activities of the
    user, and in a store that meets the constraints of the schema
    [todayLogs] has an entry for an activity exactly when the user has a
    log of it dated today and the activity exists; the entry shows the
    flag, the value and the notes of that log. *)
Theorem loadData_spec (userId : Z) (s : screen) (w : world) :
  ∃ s1,
    loadData userId s w = (set_ticks w (S (ticks w)), Return s1)
    ∧ activities s1 ≡ₚ List.filter (listed_for userId)
                                    (fitness_activities (db w))
    ∧ (constraints_hold (db w) →
       ∀ a v,
         todayLogs s1 !! a = Some v ↔
         ∃ al fa,
           al ∈ activity_logs (db w) ∧ fa ∈ fitness_activities (db w)
           ∧ l_user_id al = userId ∧ l_log_date al = date_at (ticks w)
           ∧ l_activity_id al = a ∧ a_id fa = a
           ∧ v = view_of al).
Proof. apply loadData_run. Qed.

Lemma toggleActivity_run (userId activityId : Z) (s : screen) (w : world) :
  ∃ w1,
    logActivity userId activityId (date_at (ticks w))
      (negb (from_option lv_completed false (todayLogs s !! activityId)))
      None None (set_ticks w (S (ticks w))) = (w1, Return tt)
    ∧ toggleActivity userId activityId s w
      = (w1,
         Return
           {| activities := activities s;
              todayLogs :=
                <[activityId :=
                    {| lv_completed :=
                         negb (from_option lv_completed false
                                 (todayLogs s !! activityId));
                       lv_actual_value :=
                         from_option lv_actual_value JUndefined
                           (todayLogs s !! activityId);
                       lv_notes :=
                         from_option lv_notes JUndefined
                           (todayLogs s !! activityId) |}]>
                  (todayLogs s) |}).
Proof.
  destruct (logActivity_full userId activityId (date_at (ticks w))
              (negb (from_option lv_completed false (todayLogs s !! activityId)))
              None None (set_ticks w (S (ticks w))))
    as (w1 & Hrun & _).
  exists w1. split; [done|].
  unfold toggleActivity, try_catch, bind.
  rewrite getTodayDate_eq, Hrun. reflexivity.
Qed.

(** [toggleActivity] always succeeds.  It leaves in the store exactly one
    log of the activity dated today, of the user, with the flag turned
    over and with [actual_value] and [notes] [NULL], whatever the log of
    the day held before; on the screen the entry of the activity has the
    new flag and keeps the value and the notes it showed, and every other
    entry is as it was. *)
Theorem toggleActivity_effects (userId activityId : Z) (s : screen)
    (w : world) :
  ∃ w1 s1 al,
    toggleActivity userId activityId s w = (w1, Return s1)
    ∧ logs_for activityId (date_at (ticks w)) (db w1) = [al]
    ∧ l_user_id al = userId
    ∧ l_completed al
      = (if from_option lv_completed false (todayLogs s !! activityId)
         then 0 else 1)
    ∧ l_actual_value al = None ∧ l_notes al = None
    ∧ todayLogs s1 !! activityId
      = Some {| lv_completed :=
                  negb (from_option lv_completed false
                          (todayLogs s !! activityId));
                lv_actual_value :=
                  from_option lv_actual_value JUndefined
                    (todayLogs s !! activityId);
                lv_notes :=
                  from_option lv_notes JUndefined
                    (todayLogs s !! activityId) |}
    ∧ (∀ a, a ≠ activityId → todayLogs s1 !! a = todayLogs s !! a)
    ∧ activities s1 = activities s.
Proof.
  destruct (toggleActivity_run userId activityId s w) as (w1 & Hlog & Hrun).
  destruct (logActivity_full userId activityId (date_at (ticks w))
              (negb (from_option lv_completed false (todayLogs s !! activityId)))
              None None (set_ticks w (S (ticks w))))
    as (w1' & Hlog' & Hlogs & _).
  rewrite Hlog in Hlog'. injection Hlog' as <-.
  eexists w1, _, _. split; [exact Hrun|].
  cbn [todayLogs activities]. split.
  { unfold logs_for. rewrite Hlogs, List.filter_app. cbn.
    rewrite !bool_decide_eq_true_2 by done. cbn.
    rewrite List_filter_nil; [done|].
    intros r [_ Hr]%elem_of_List_filter. by apply negb_true_iff in Hr. }
  split; [done|]. split.
  { cbn. by destruct (from_option _ _ _). }
  do 2 (split; [done|]). split; [by rewrite lookup_insert_eq|].
  split; [|done]. intros a Ha. by rewrite lookup_insert_ne.
Qed.


End Screen.

